(** * The bitswap session orchestrator (src/index.js)

    A shallow embedding of the [Bitwap] class of src/index.js: the handler
    of inbound messages with its receive counters, [hasBlock] with its
    retried blockstore put, the streaming get with its one-shot
    notification listeners, [unwantBlocks], and [start] / [stop].

    Conventions.
    - Node-style callbacks are continuations: a function that takes
      [cb] is written in continuation-passing style, exactly as in the
      source, and a collaborator is taken to call back before it returns.
    - Every call that leaves the class (blockstore, decision engine,
      network, want manager, debug log, timers) is appended to the
      [trace] of the instance, in the order the calls are made. *)

From Stdlib Require Import ZArith NArith Strings.Byte Strings.Ascii Strings.String.
From stdpp Require Import base option list gmap strings.

Local Open Scope N_scope.

(** ** Data *)

Global Instance byte_eq_decision : EqDecision Byte.byte := Byte.byte_eq_dec.

(** A node [Buffer]. *)
Definition Buffer := list Byte.byte.

(** A multihash, the key of a block. *)
Definition Key := Buffer.

(** An [ipfs-block]: [block.key] and [block.data]. *)
Record Block := mkBlock { key : Key; data : Buffer }.

(** [buf.length]. *)
Definition buffer_length (b : Buffer) : N := N.of_nat (length b).

(** A JavaScript [Error]; only [err.message] is ever read. *)
Record Error := mkError { message : string }.

(** A peer id, known to this class through [toB58String()] alone. *)
Record PeerId := mkPeerId { peer_toB58String : string }.

Global Instance PeerId_eq_dec : EqDecision PeerId.
Proof. solve_decision. Defined.

(** Modelled from the spec: src/wantmanager and src/message are not among
    the sources.  An entry of a want-list, as the messages and the
    want-list carry it: key, priority, cancel flag and refcount. *)
Record WantEntry := mkWantEntry {
  entry_key : Key;
  entry_priority : Z;
  entry_cancel : bool;
  entry_refcount : N
}.

(** Modelled from the spec: src/message is not among the sources.  A
    bitswap message: the [full] flag, the want entries and the blocks.
    [incoming.blocks] is a [Map]; the class reads its [size] and iterates
    its [values()], which come in insertion order. *)
Record Message := mkMessage {
  msg_full : bool;
  msg_wantlist : list WantEntry;
  msg_blocks : list Block
}.

(** ** The trace of outgoing calls *)

(** [log] is [debug('bitswap')], [log.error] is [debug('bitswap:error')]. *)
Inductive LogChannel := DebugLog | ErrorLog.

(** Arguments of a [debug] line after the format; [ArgBuffer b] stands
    for [b.toString()]. *)
Inductive LogArg :=
| ArgString (s : string)
| ArgBuffer (b : Buffer)
| ArgMessage (m : Message).

Inductive Event :=
| EvLog (chan : LogChannel) (fmt : string) (args : list LogArg)
| EvEngineMessageReceived (peer : PeerId) (msg : Message) (err : option Error)
| EvEngineReceivedBlock (block : Block)
| EvEnginePeerDisconnected (peer : PeerId)
| EvEngineStart
| EvEngineStop
| EvNetworkStart
| EvNetworkStop
| EvWmRun
| EvWmStop
| EvWmConnected (peer : PeerId)
| EvWmDisconnected (peer : PeerId)
| EvWmWantBlocks (keys : list Key)
| EvWmCancelWants (keys : list Key)
| EvWmUnwantBlocks (keys : list Key)
| EvWmEnqueue (peer : PeerId) (entries : list WantEntry)
| EvBlockstoreHas (k : Key) (res : Error + bool)
| EvBlockstoreGet (k : Key) (res : Error + Block)
| EvBlockstorePut (block : Block) (err : option Error)
| EvTimeout (ms : N)
| EvEmit (event : string) (payload : option Block)
| EvCallback (name : string) (err : option Error).

(** ** External collaborators

    The blockstore and the decision engine are handed to the constructor;
    the class sees them through these calls only.  They share a state [W]
    of their own, which every call may change, and each of them may fail. *)
Class Collaborators (W : Type) := {
  (** [blockstore.has(key, cb)] *)
  blockstore_has : Key → W → (Error + bool) * W;
  (** [blockstore.getStream(key)], drained *)
  blockstore_getStream : Key → W → (Error + Block) * W;
  (** [pull(pull.values([block]), blockstore.putStream(), pull.onEnd(done))] *)
  blockstore_putStream : Block → W → option Error * W;
  (** [engine.messageReceived(peerId, incoming, cb)] *)
  engine_messageReceived : PeerId → Message → W → option Error * W
}.

(** ** The want manager

    src/wantmanager is not among the sources: the want-list and the want
    manager follow the specification.  The want-list maps the base58 form
    of a key to its entry. *)
Module WantList.

Abbreviation t := (gmap string WantEntry).

(** Modelled from the spec: [add(key, priority)] of the missing want-list.
    The refcount of an entry is incremented, its priority becomes the
    larger of the two; an absent key is inserted with refcount 1. *)
Definition add (keyS : string) (k : Key) (priority : Z) (wl : t) : t :=
  match wl !! keyS with
  | Some e =>
      <[keyS := mkWantEntry (entry_key e) (Z.max (entry_priority e) priority)
                  (entry_cancel e) (entry_refcount e + 1)]> wl
  | None => <[keyS := mkWantEntry k priority false 1]> wl
  end.

(** Modelled from the spec: [remove(key)] of the missing want-list.  The
    refcount is decremented; at 0 the entry is deleted and returned. *)
Definition remove (keyS : string) (wl : t) : t * option WantEntry :=
  match wl !! keyS with
  | Some e =>
      if entry_refcount e <=? 1 then (delete keyS wl, Some e)
      else (<[keyS := mkWantEntry (entry_key e) (entry_priority e)
                        (entry_cancel e) (entry_refcount e - 1)]> wl, None)
  | None => (wl, None)
  end.

(** Modelled from the spec: [removeForce(key)] of the missing want-list.
    The entry is deleted and returned whatever its refcount. *)
Definition removeForce (keyS : string) (wl : t) : t * option WantEntry :=
  match wl !! keyS with
  | Some e => (delete keyS wl, Some e)
  | None => (wl, None)
  end.

(** Modelled from the spec: [contains(key)] of the missing want-list. *)
Definition contains (keyS : string) (wl : t) : bool :=
  bool_decide (is_Some (wl !! keyS)).

(** Modelled from the spec: the refcount of a key in the missing
    want-list, 0 when it has no entry. *)
Definition refcount (keyS : string) (wl : t) : N :=
  match wl !! keyS with
  | Some e => entry_refcount e
  | None => 0
  end.

End WantList.

(** Modelled from the spec: the missing want manager owns one want-list
    ([wm.wl]) and knows the connected peers. *)
Record WantManager := mkWantManager {
  wl : gmap string WantEntry;
  wm_peers : list PeerId
}.

(** Modelled from the spec: [cs.defaultPriority] of the missing
    src/constants, which the spec gives as 1. *)
Definition defaultPriority : Z := 1.

(** ** The notification emitter and the get streams *)

(** The two closures [addListener] makes.  [sid] is the [getStream] call
    whose [pusher], [unwantListeners] and [blockListeners] they close
    over. *)
Inductive ListenerBody :=
| UnwantListener (sid : nat) (k : Key)
| BlockListener (sid : nat).

(** A function object: [listener_id] is its identity, which
    [removeListener] compares with [===]. *)
Record Listener := mkListener {
  listener_id : nat;
  listener_body : ListenerBody
}.

(** What one [getStream()] call holds: its two listener objects, the
    [finished] flag, the [pusher], and the blocks that were read from
    [source].  The reader of [source] is taken to read whatever is
    pushed at once, as [pull.collect] does. *)
Record GetStream := mkGetStream {
  unwantListeners : gmap string Listener;
  blockListeners : gmap string Listener;
  finished : bool;
  (** [None]: open; [Some None]: [pusher.end()]; [Some (Some e)]:
      [pusher.end(e)] *)
  pusher_ended : option (option Error);
  emitted : list Block
}.

(** ** The instance *)

Record Bitswap {W : Type} := mkBitswap {
  (** [this.blockstore] and [this.engine] *)
  collaborators : W;
  (** [this.wm] *)
  wm : WantManager;
  (** the three counters are JavaScript numbers, which count exactly up
      to 2^53; they are taken as natural numbers *)
  blocksRecvd : N;
  dupBlocksRecvd : N;
  dupDataRecvd : N;
  (** [this.notifications._events] *)
  notifications : gmap string (list Listener);
  (** the [getStream()] calls made so far, by number *)
  streams : list GetStream;
  (** next fresh function identity *)
  next_listener : nat;
  trace : list Event
}.
Arguments Bitswap : clear implicits.

(** The result of a call from outside: it returns, or an exception
    leaves it. *)
Inductive Outcome {W : Type} :=
| Returned (st : Bitswap W)
| Threw (exn : string) (st : Bitswap W).
Arguments Outcome : clear implicits.

Section Orchestrator.

Context {W : Type} `{Collaborators W}.

(** [mh.toB58String], from the multihashes package. *)
Variable toB58String : Key → string.

Local Abbreviation State := (Bitswap W).

(** A callback [(err) => ...]: the rest of the computation. *)
Definition Callback := option Error → State → Outcome W.

(** *** Field updates *)

Definition set_collaborators (w : W) (st : State) : State :=
  mkBitswap W w (wm st) (blocksRecvd st) (dupBlocksRecvd st) (dupDataRecvd st)
    (notifications st) (streams st) (next_listener st) (trace st).

Definition set_wm (m : WantManager) (st : State) : State :=
  mkBitswap W (collaborators st) m (blocksRecvd st) (dupBlocksRecvd st)
    (dupDataRecvd st) (notifications st) (streams st) (next_listener st) (trace st).

Definition set_counters (b d dd : N) (st : State) : State :=
  mkBitswap W (collaborators st) (wm st) b d dd (notifications st) (streams st)
    (next_listener st) (trace st).

Definition set_notifications (n : gmap string (list Listener)) (st : State) : State :=
  mkBitswap W (collaborators st) (wm st) (blocksRecvd st) (dupBlocksRecvd st)
    (dupDataRecvd st) n (streams st) (next_listener st) (trace st).

Definition set_streams (ss : list GetStream) (st : State) : State :=
  mkBitswap W (collaborators st) (wm st) (blocksRecvd st) (dupBlocksRecvd st)
    (dupDataRecvd st) (notifications st) ss (next_listener st) (trace st).

Definition set_next_listener (n : nat) (st : State) : State :=
  mkBitswap W (collaborators st) (wm st) (blocksRecvd st) (dupBlocksRecvd st)
    (dupDataRecvd st) (notifications st) (streams st) n (trace st).

Definition record (ev : Event) (st : State) : State :=
  mkBitswap W (collaborators st) (wm st) (blocksRecvd st) (dupBlocksRecvd st)
    (dupDataRecvd st) (notifications st) (streams st) (next_listener st)
    (trace st ++ [ev]).

(** [log(fmt, ...args)] and [log.error(fmt, ...args)] *)
Definition log (chan : LogChannel) (fmt : string) (args : list LogArg)
    (st : State) : State :=
  record (EvLog chan fmt args) st.

Definition update_stream (sid : nat) (f : GetStream → GetStream) (st : State) : State :=
  set_streams (alter f sid (streams st)) st.

(** [new Bitswap(p, libp2p, blockstore, peerBook)] *)
Definition constructor (w : W) : State :=
  mkBitswap W w (mkWantManager ∅ []) 0 0 0 ∅ [] 0%nat [].

(** *** The want manager's calls *)

(** Modelled from the spec: the missing want manager enqueues a delta
    for every connected peer; nothing when there is nothing to say. *)
Definition broadcast (entries : list WantEntry) (st : State) : State :=
  match entries with
  | [] => st
  | _ => foldl (λ st p, record (EvWmEnqueue p entries) st) st (wm_peers (wm st))
  end.

(** Modelled from the spec: the cancel notice of an entry. *)
Definition as_cancel (e : WantEntry) : WantEntry :=
  mkWantEntry (entry_key e) (entry_priority e) true (entry_refcount e).

(** Modelled from the spec: the missing want manager removes each key
    and collects a cancel for each entry that was dropped. *)
Definition drop_keys (rm : string → WantList.t → WantList.t * option WantEntry)
    (keys : list Key) (l : WantList.t) : WantList.t * list WantEntry :=
  foldl (λ acc k,
           let '(l', e) := rm (toB58String k) acc.1 in
           (l', acc.2 ++ match e with Some e => [as_cancel e] | None => [] end))
        (l, []) keys.

(** Modelled from the spec: [wm.wantBlocks(keys)] of the missing want
    manager adds each key with the default priority and enqueues the new
    wants for every connected peer. *)
Definition wm_wantBlocks (keys : list Key) (st : State) : State :=
  let st := record (EvWmWantBlocks keys) st in
  let l := foldl (λ l k, WantList.add (toB58String k) k defaultPriority l)
                 (wl (wm st)) keys in
  let st := set_wm (mkWantManager l (wm_peers (wm st))) st in
  broadcast (map (λ k, mkWantEntry k defaultPriority false 1) keys) st.

(** Modelled from the spec: [wm.cancelWants(keys)] of the missing want
    manager removes each key and enqueues a cancel for each key whose
    refcount fell to 0. *)
Definition wm_cancelWants (keys : list Key) (st : State) : State :=
  let st := record (EvWmCancelWants keys) st in
  let '(l, dropped) := drop_keys WantList.remove keys (wl (wm st)) in
  let st := set_wm (mkWantManager l (wm_peers (wm st))) st in
  broadcast dropped st.

(** Modelled from the spec: [wm.unwantBlocks(keys)] of the missing want
    manager removes each key whatever its refcount, with the same
    broadcast. *)
Definition wm_unwantBlocks (keys : list Key) (st : State) : State :=
  let st := record (EvWmUnwantBlocks keys) st in
  let '(l, dropped) := drop_keys WantList.removeForce keys (wl (wm st)) in
  let st := set_wm (mkWantManager l (wm_peers (wm st))) st in
  broadcast dropped st.

(** Modelled from the spec: [wm.connected(peerId)] of the missing want
    manager; the peer gets a queue.  The snapshot of the want-list that
    the new queue sends first is not recorded in the trace. *)
Definition wm_connected (p : PeerId) (st : State) : State :=
  let st := record (EvWmConnected p) st in
  let ps := wm_peers (wm st) in
  set_wm (mkWantManager (wl (wm st))
            (if bool_decide (p ∈ ps) then ps else ps ++ [p])) st.

(** Modelled from the spec: [wm.disconnected(peerId)] of the missing want
    manager; the queue of the peer is torn down. *)
Definition wm_disconnected (p : PeerId) (st : State) : State :=
  let st := record (EvWmDisconnected p) st in
  set_wm (mkWantManager (wl (wm st))
            (filter (λ q, q ≠ p) (wm_peers (wm st)))) st.

(** *** [this.notifications], a node [EventEmitter]

    [setMaxListeners] only moves the threshold of a warning and is left
    out. *)

Definition unwantEvent (keyS : string) : string := "unwant:" +:+ keyS.
Definition blockEvent (keyS : string) : string := "block:" +:+ keyS.

Definition listeners_of (event : string) (st : State) : list Listener :=
  default [] (notifications st !! event).

(** [notifications.once(event, listener)]: appended to the listeners of
    [event]. *)
Definition once (event : string) (l : Listener) (st : State) : State :=
  set_notifications (<[event := listeners_of event st ++ [l]]> (notifications st)) st.

Fixpoint remove_first (id : nat) (ls : list Listener) : list Listener :=
  match ls with
  | [] => []
  | l :: rest =>
      if bool_decide (listener_id l = id) then rest
      else l :: remove_first id rest
  end.

(** [removeListener] scans from the end and splices one match out. *)
Definition remove_last (id : nat) (ls : list Listener) : list Listener :=
  reverse (remove_first id (reverse ls)).

(** [notifications.removeListener(event, listener)] *)
Definition removeListener (event : string) (l : Listener) (st : State) : State :=
  match notifications st !! event with
  | None => st
  | Some ls =>
      match remove_last (listener_id l) ls with
      | [] => set_notifications (delete event (notifications st)) st
      | ls' => set_notifications (<[event := ls']> (notifications st)) st
      end
  end.

(** *** [getStream] *)

Definition new_stream : GetStream := mkGetStream ∅ ∅ false None [].

(** The variables of the [getStream()] call number [sid]. *)
Definition the_stream (sid : nat) (st : State) : GetStream :=
  default new_stream (streams st !! sid).

(** [pusher.end(err)]: the first end wins. *)
Definition pusher_end (sid : nat) (err : option Error) (st : State) : State :=
  update_stream sid
    (λ s, match pusher_ended s with
          | Some _ => s
          | None => mkGetStream (unwantListeners s) (blockListeners s)
                      (finished s) (Some err) (emitted s)
          end) st.

(** [finish] *)
Definition finish (sid : nat) (st : State) : State :=
  let s := the_stream sid st in
  if finished s && bool_decide (size (blockListeners s) = 0%nat)
  then pusher_end sid None st
  else st.

(** [cleanupListener(key)] *)
Definition cleanupListener (sid : nat) (k : Key) (st : State) : State :=
  let keyS := toB58String k in
  let st :=
    match unwantListeners (the_stream sid st) !! keyS with
    | Some l =>
        update_stream sid
          (λ s, mkGetStream (delete keyS (unwantListeners s)) (blockListeners s)
                  (finished s) (pusher_ended s) (emitted s))
          (removeListener (unwantEvent keyS) l st)
    | None => st
    end in
  let st :=
    match blockListeners (the_stream sid st) !! keyS with
    | Some l =>
        update_stream sid
          (λ s, mkGetStream (unwantListeners s) (delete keyS (blockListeners s))
                  (finished s) (pusher_ended s) (emitted s))
          (removeListener (blockEvent keyS) l st)
    | None => st
    end in
  finish sid st.

(** [pusher.push(block)], read at once through
    [pull.through((block) => cleanupListener(block.key))].  A push after
    the end is dropped. *)
Definition pusher_push (sid : nat) (block : Block) (st : State) : State :=
  match pusher_ended (the_stream sid st) with
  | Some _ => st
  | None =>
      let st := cleanupListener sid (key block) st in
      update_stream sid
        (λ s, mkGetStream (unwantListeners s) (blockListeners s) (finished s)
                (pusher_ended s) (emitted s ++ [block])) st
  end.

(** One listener of an [emit].  It was registered with [once], so it is
    removed before it runs.  A block listener is only ever registered
    under a [block:] name, which [hasBlock] emits with the block. *)
Definition call_listener (event : string) (payload : option Block)
    (l : Listener) (st : State) : State :=
  let st := removeListener event l st in
  match listener_body l, payload with
  | UnwantListener sid k, _ =>
      cleanupListener sid k (log DebugLog ("manual unwant: " +:+ toB58String k) [] st)
  | BlockListener sid, Some block => pusher_push sid block st
  | BlockListener sid, None => st
  end.

(** [notifications.emit(event, payload)]: the listeners registered when
    the emit starts are called in the order of their registration. *)
Definition emit (event : string) (payload : option Block) (st : State) : State :=
  let st := record (EvEmit event payload) st in
  foldl (λ st l, call_listener event payload l st) st (listeners_of event st).

(** [addListener(key)] *)
Definition addListener (sid : nat) (k : Key) (st : State) : State :=
  let keyS := toB58String k in
  let u := mkListener (next_listener st) (UnwantListener sid k) in
  let b := mkListener (S (next_listener st)) (BlockListener sid) in
  let st := set_next_listener (S (S (next_listener st))) st in
  let st :=
    update_stream sid
      (λ s, mkGetStream (<[keyS := u]> (unwantListeners s))
              (<[keyS := b]> (blockListeners s))
              (finished s) (pusher_ended s) (emitted s)) st in
  let st := once (unwantEvent keyS) u st in
  once (blockEvent keyS) b st.

(** *** Callbacks *)

(** A value in callback position: [None] is [undefined]. *)
Definition JsCallback := option Callback.

(** [cb(err)].  Calling [undefined] throws. *)
Definition call (cb : JsCallback) (err : option Error) (st : State) : Outcome W :=
  match cb with
  | Some f => f err st
  | None => Threw "TypeError: cb is not a function" st
  end.

(** [cb || (() => {})] *)
Definition or_noop (cb : JsCallback) : JsCallback :=
  match cb with
  | Some f => Some f
  | None => Some (λ _ st, Returned st)
  end.

(** *** The async package, with callbacks that come back at once *)

(** [eachLimit(coll, limit, iteratee, cb)].  Each [iteratee] has called
    back by the time it returns, so the items run one after the other
    and [limit] is never reached. *)
Fixpoint eachLimit {A : Type} (coll : list A) (limit : nat)
    (iteratee : A → Callback → State → Outcome W) (cb : Callback)
    (st : State) : Outcome W :=
  match coll with
  | [] => cb None st
  | x :: rest =>
      iteratee x
        (λ err st',
           match err with
           | Some e => cb (Some e) st'
           | None => eachLimit rest limit iteratee cb st'
           end) st
  end.

(** [series(tasks, cb)] *)
Fixpoint series (tasks : list (Callback → State → Outcome W)) (cb : Callback)
    (st : State) : Outcome W :=
  match tasks with
  | [] => cb None st
  | task :: rest =>
      task (λ err st',
              match err with
              | Some e => cb (Some e) st'
              | None => series rest cb st'
              end) st
  end.

(** One attempt of [retry] and, while it fails and [more] attempts are
    left, a [setTimeout] of [interval] before the next. *)
Fixpoint retry_from (more : nat) (interval : N)
    (task : Callback → State → Outcome W) (cb : Callback) (st : State)
    : Outcome W :=
  task (λ err st',
          match err, more with
          | Some _, S m =>
              retry_from m interval task cb (record (EvTimeout interval) st')
          | _, _ => cb err st'
          end) st.

(** [retry({times, interval}, task, cb)]: [task] is tried until it
    succeeds, [times] times at most; the last error goes to [cb]. *)
Definition retry (times : nat) (interval : N)
    (task : Callback → State → Outcome W) (cb : Callback) (st : State)
    : Outcome W :=
  retry_from (times - 1) interval task cb st.

(** *** Receiving *)

(** [blockstore.has(key, cb)] *)
Definition has (k : Key) (cb : Error + bool → State → Outcome W) (st : State)
    : Outcome W :=
  let '(res, w) := blockstore_has k (collaborators st) in
  cb res (record (EvBlockstoreHas k res) (set_collaborators w st)).

(** [_updateReceiveCounters(block, cb)] *)
Definition _updateReceiveCounters (block : Block) (cb : Callback) (st : State)
    : Outcome W :=
  let st := set_counters (blocksRecvd st + 1) (dupBlocksRecvd st)
              (dupDataRecvd st) st in
  has (key block)
    (λ res st,
       match res with
       | inl err =>
           cb (Some err)
              (log DebugLog "blockstore.has error: %s" [ArgString (message err)] st)
       | inr true =>
           cb (Some (mkError "Already have block"))
              (set_counters (blocksRecvd st) (dupBlocksRecvd st + 1)
                 (dupDataRecvd st + buffer_length (data block)) st)
       | inr false => cb None st
       end) st.

(** The task [_tryPutBlock] retries:
    [pull(pull.values([block]), this.blockstore.putStream(), pull.onEnd(done))] *)
Definition put_task (block : Block) (done : Callback) (st : State) : Outcome W :=
  let '(err, w) := blockstore_putStream block (collaborators st) in
  done err (record (EvBlockstorePut block err) (set_collaborators w st)).

(** [_tryPutBlock(block, times, cb)] *)
Definition _tryPutBlock (block : Block) (times : nat) (cb : Callback)
    (st : State) : Outcome W :=
  let st := log DebugLog "trying to put block %s" [ArgBuffer (data block)] st in
  retry times 400 (put_task block) cb st.

(** [hasBlock(block, cb)] *)
Definition hasBlock (block : Block) (cb : JsCallback) (st : State) : Outcome W :=
  let cb := or_noop cb in
  _tryPutBlock block 4
    (λ err st,
       match err with
       | Some e =>
           let st := log ErrorLog "Error writing block to blockstore: %s"
                       [ArgString (message e)] st in
           call cb (Some e) st
       | None =>
           let keyS := toB58String (key block) in
           let st := log DebugLog "put block: %s" [ArgString keyS] st in
           let st := emit (blockEvent keyS) (Some block) st in
           let st := record (EvEngineReceivedBlock block) st in
           call cb None st
       end) st.

(** The [for] loop of [_receiveMessage] over [iblocks.values()], which
    fills [keys]. *)
Fixpoint wanted_keys (peerId : PeerId) (iblocks : list Block) (keys : list Key)
    (st : State) : list Key * State :=
  match iblocks with
  | [] => (keys, st)
  | block :: rest =>
      let found := WantList.contains (toB58String (key block)) (wl (wm st)) in
      if negb found then
        wanted_keys peerId rest keys
          (log DebugLog "received un-askes-for %s from %s"
             [ArgString (toB58String (key block));
              ArgString (peer_toB58String peerId)] st)
      else wanted_keys peerId rest (keys ++ [key block]) st
  end.

(** The iteratee [_receiveMessage] hands to [eachLimit]. *)
Definition receive_block (peerId : PeerId) (block : Block) (next : Callback)
    (st : State) : Outcome W :=
  series
    [ (λ innerCb st,
         _updateReceiveCounters block
           (λ err st,
              match err with
              | Some _ => innerCb None st
              | None =>
                  innerCb None
                    (log DebugLog "got block from %s"
                       [ArgString (peer_toB58String peerId);
                        ArgBuffer (data block)] st)
              end) st);
      (λ innerCb st,
         hasBlock block
           (Some (λ err st,
                    match err with
                    | Some e =>
                        innerCb None
                          (log ErrorLog "receiveMessage hasBlock error: %s"
                             [ArgString (message e)] st)
                    | None => innerCb None st
                    end)) st) ]
    next st.

(** [_receiveMessage(peerId, incoming, cb)] *)
Definition _receiveMessage (peerId : PeerId) (incoming : Message)
    (cb : JsCallback) (st : State) : Outcome W :=
  let cb := or_noop cb in
  let st := log DebugLog "receiving message from %s"
              [ArgString (peer_toB58String peerId)] st in
  let '(err, w) := engine_messageReceived peerId incoming (collaborators st) in
  let st := record (EvEngineMessageReceived peerId incoming err)
              (set_collaborators w st) in
  let st := match err with
            | Some _ => log DebugLog "failed to receive message" [ArgMessage incoming] st
            | None => st
            end in
  let iblocks := msg_blocks incoming in
  if bool_decide (length iblocks = 0%nat) then call cb None st
  else
    let '(keys, st) := wanted_keys peerId iblocks [] st in
    let st := wm_cancelWants keys st in
    eachLimit iblocks 10 (receive_block peerId) (call cb) st.

(** [_receiveError(err)] *)
Definition _receiveError (err : Error) (st : State) : State :=
  log ErrorLog "ReceiveError: %s" [ArgString (message err)] st.

(** [_onPeerConnected(peerId)] *)
Definition _onPeerConnected (peerId : PeerId) (st : State) : State :=
  wm_connected peerId st.

(** [_onPeerDisconnected(peerId)] *)
Definition _onPeerDisconnected (peerId : PeerId) (st : State) : State :=
  record (EvEnginePeerDisconnected peerId) (wm_disconnected peerId st).

(** [wantlistForPeer], [engine.peers()]: answered by the decision
    engine, which is not part of this class. *)

(** *** The sink of [getStream]

    One key through the stages of the sink: [asyncMap] asks the
    blockstore; [map] returns the key when it is there and otherwise
    adds the listeners and wants the key; [filter(Boolean)] drops what
    the miss returned; the block is read and handed to [through].  The
    result is the error that ends the pipeline, if any. *)
Definition sink_key (sid : nat) (k : Key) (st : State) : option Error * State :=
  let '(res, w) := blockstore_has k (collaborators st) in
  let st := record (EvBlockstoreHas k res) (set_collaborators w st) in
  match res with
  | inl err => (Some err, st)
  | inr false => (None, wm_wantBlocks [k] (addListener sid k st))
  | inr true =>
      let '(res, w) := blockstore_getStream k (collaborators st) in
      let st := record (EvBlockstoreGet k res) (set_collaborators w st) in
      match res with
      | inl err => (Some err, st)
      | inr block =>
          (None, pusher_push sid block (wm_cancelWants [key block] st))
      end
  end.

Fixpoint sink_keys (sid : nat) (keys : list Key) (st : State)
    : option Error * State :=
  match keys with
  | [] => (None, st)
  | k :: rest =>
      match sink_key sid k st with
      | (Some err, st') => (Some err, st')
      | (None, st') => sink_keys sid rest st'
      end
  end.

(** [pull.onEnd((err) => ...)] at the end of the sink *)
Definition sink_onEnd (sid : nat) (err : option Error) (st : State) : State :=
  let st :=
    update_stream sid
      (λ s, mkGetStream (unwantListeners s) (blockListeners s) true
              (pusher_ended s) (emitted s)) st in
  match err with
  | Some e => pusher_end sid (Some e) st
  | None => finish sid st
  end.

(** [getStream()]: the variables of the call are allocated; the result
    is the number under which [sink] and [source] find them. *)
Definition getStream (st : State) : nat * State :=
  (length (streams st), set_streams (streams st ++ [new_stream]) st).

(** [pull(source_of_keys, stream.sink)]: the upstream source gives
    [keys] and then ends, with [upstream_end] if it fails. *)
Definition sink (sid : nat) (keys : list Key) (upstream_end : option Error)
    (st : State) : State :=
  let '(err, st) := sink_keys sid keys st in
  sink_onEnd sid (match err with Some e => Some e | None => upstream_end end) st.

(** A get of one key: a [getStream()] whose sink is fed the key and then
    ends, as [pull(pull.values([key]), bitswap.getStream(), ...)] does. *)
Definition get_one (k : Key) (st : State) : nat * State :=
  let '(sid, st) := getStream st in
  (sid, sink sid [k] None st).

(** *** The rest of the public methods *)

(** [unwantBlocks(keys)] *)
Definition unwantBlocks (keys : list Key) (st : State) : State :=
  let st := wm_unwantBlocks keys st in
  foldl (λ st k, emit (unwantEvent (toB58String k)) None st) st keys.

(** [cancelWants(keys)] *)
Definition cancelWants (keys : list Key) (st : State) : State :=
  wm_cancelWants keys st.

(** [getWantlist()] *)
Definition getWantlist (st : State) : list WantEntry :=
  (map_to_list (wl (wm st))).*2.

(** [stat()], but for [peers], which the decision engine answers. *)
Record Stat := mkStat {
  wantlist : list WantEntry;
  blocksReceived : N;
  dupBlksReceived : N;
  dupDataReceived : N
}.

Definition stat (st : State) : Stat :=
  mkStat (getWantlist st) (blocksRecvd st) (dupBlocksRecvd st) (dupDataRecvd st).

(** [start()] *)
Definition start (st : State) : State :=
  let st := record EvWmRun st in
  let st := record EvNetworkStart st in
  record EvEngineStart st.

(** [stop()] *)
Definition stop (st : State) : State :=
  let st := record EvWmStop st in
  let st := record EvNetworkStop st in
  record EvEngineStop st.

(** *** What the callbacks are called with

    The functions above take their callback as the source does.  For
    each of them, the function below gives the error and the state that
    callback receives, so that properties of the state can be stated;
    the two are shown to agree for every callback. *)

Definition has_result (k : Key) (st : State) : (Error + bool) * State :=
  let '(res, w) := blockstore_has k (collaborators st) in
  (res, record (EvBlockstoreHas k res) (set_collaborators w st)).

Definition updateReceiveCounters_result (block : Block) (st : State)
    : option Error * State :=
  let st := set_counters (blocksRecvd st + 1) (dupBlocksRecvd st)
              (dupDataRecvd st) st in
  let '(res, st) := has_result (key block) st in
  match res with
  | inl err =>
      (Some err, log DebugLog "blockstore.has error: %s" [ArgString (message err)] st)
  | inr true =>
      (Some (mkError "Already have block"),
       set_counters (blocksRecvd st) (dupBlocksRecvd st + 1)
         (dupDataRecvd st + buffer_length (data block)) st)
  | inr false => (None, st)
  end.

Definition put_result (block : Block) (st : State) : option Error * State :=
  let '(err, w) := blockstore_putStream block (collaborators st) in
  (err, record (EvBlockstorePut block err) (set_collaborators w st)).

Fixpoint retry_result (more : nat) (interval : N) (block : Block) (st : State)
    : option Error * State :=
  let '(err, st') := put_result block st in
  match err, more with
  | Some _, S m => retry_result m interval block (record (EvTimeout interval) st')
  | _, _ => (err, st')
  end.

Definition tryPutBlock_result (block : Block) (times : nat) (st : State)
    : option Error * State :=
  retry_result (times - 1) 400 block
    (log DebugLog "trying to put block %s" [ArgBuffer (data block)] st).

Definition hasBlock_result (block : Block) (st : State) : option Error * State :=
  let '(err, st) := tryPutBlock_result block 4 st in
  match err with
  | Some e =>
      (Some e,
       log ErrorLog "Error writing block to blockstore: %s"
         [ArgString (message e)] st)
  | None =>
      let keyS := toB58String (key block) in
      let st := log DebugLog "put block: %s" [ArgString keyS] st in
      let st := emit (blockEvent keyS) (Some block) st in
      (None, record (EvEngineReceivedBlock block) st)
  end.

Definition receive_block_result (peerId : PeerId) (block : Block) (st : State)
    : State :=
  let '(err, st) := updateReceiveCounters_result block st in
  let st := match err with
            | Some _ => st
            | None =>
                log DebugLog "got block from %s"
                  [ArgString (peer_toB58String peerId); ArgBuffer (data block)] st
            end in
  let '(err, st) := hasBlock_result block st in
  match err with
  | Some e =>
      log ErrorLog "receiveMessage hasBlock error: %s" [ArgString (message e)] st
  | None => st
  end.

Definition receiveMessage_result (peerId : PeerId) (incoming : Message)
    (st : State) : State :=
  let st := log DebugLog "receiving message from %s"
              [ArgString (peer_toB58String peerId)] st in
  let '(err, w) := engine_messageReceived peerId incoming (collaborators st) in
  let st := record (EvEngineMessageReceived peerId incoming err)
              (set_collaborators w st) in
  let st := match err with
            | Some _ => log DebugLog "failed to receive message" [ArgMessage incoming] st
            | None => st
            end in
  let iblocks := msg_blocks incoming in
  if bool_decide (length iblocks = 0%nat) then st
  else
    let '(keys, st) := wanted_keys peerId iblocks [] st in
    let st := wm_cancelWants keys st in
    foldl (λ st block, receive_block_result peerId block st) st iblocks.

(** The calls that reach the instance from outside: from the network
    and from the user of the class, who passes no callback and feeds each
    [getStream()] all its keys at once. *)
Inductive Method :=
| CallReceiveMessage (peerId : PeerId) (incoming : Message)
| CallReceiveError (err : Error)
| CallPeerConnected (peerId : PeerId)
| CallPeerDisconnected (peerId : PeerId)
| CallGetStream (keys : list Key) (upstream_end : option Error)
| CallUnwantBlocks (keys : list Key)
| CallCancelWants (keys : list Key)
| CallHasBlock (block : Block)
| CallStart
| CallStop.

Definition run (m : Method) (st : State) : Outcome W :=
  match m with
  | CallReceiveMessage peerId incoming => _receiveMessage peerId incoming None st
  | CallReceiveError err => Returned (_receiveError err st)
  | CallPeerConnected peerId => Returned (_onPeerConnected peerId st)
  | CallPeerDisconnected peerId => Returned (_onPeerDisconnected peerId st)
  | CallGetStream keys upstream_end =>
      let '(sid, st) := getStream st in
      Returned (sink sid keys upstream_end st)
  | CallUnwantBlocks keys => Returned (unwantBlocks keys st)
  | CallCancelWants keys => Returned (cancelWants keys st)
  | CallHasBlock block => hasBlock block None st
  | CallStart => Returned (start st)
  | CallStop => Returned (stop st)
  end.

Fixpoint run_all (ms : list Method) (st : State) : Outcome W :=
  match ms with
  | [] => Returned st
  | m :: rest =>
      match run m st with
      | Returned st' => run_all rest st'
      | Threw exn st' => Threw exn st'
      end
  end.

(** A sequence of inbound messages, each handled once the one before it
    has called back; the caller passes no callback. *)
Fixpoint receive_messages (calls : list (PeerId * Message)) (st : State)
    : Outcome W :=
  match calls with
  | [] => Returned st
  | (peerId, incoming) :: rest =>
      match _receiveMessage peerId incoming None st with
      | Returned st' => receive_messages rest st'
      | Threw exn st' => Threw exn st'
      end
  end.

End Orchestrator.

Arguments Callback : clear implicits.
Arguments JsCallback : clear implicits.

(** ** Concrete collaborators, for examples *)

(** [bs58.encode], which [mh.toB58String] applies to the bytes of a key. *)
Module Base58.

Definition alphabet : list Ascii.ascii :=
  list_ascii_of_string "123456789ABCDEFGHJKLMNPQRSTUVWXYZabcdefghijkmnopqrstuvwxyz".

Definition digit (d : N) : Ascii.ascii :=
  nth (N.to_nat d) alphabet "1"%char.

Definition to_number (bytes : Buffer) : N :=
  foldl (λ acc b, acc * 256 + Byte.to_N b) 0 bytes.

Fixpoint digits (fuel : nat) (n : N) (acc : string) : string :=
  match fuel with
  | O => acc
  | S fuel =>
      if n =? 0 then acc
      else digits fuel (n / 58) (String (digit (n mod 58)) acc)
  end.

Fixpoint leading_zeros (bytes : Buffer) : string :=
  match bytes with
  | x00 :: rest => String "1" (leading_zeros rest)
  | _ => EmptyString
  end.

Definition encode (bytes : Buffer) : string :=
  leading_zeros bytes +:+ digits (2 * length bytes) (to_number bytes) EmptyString.

End Base58.

(** A blockstore in memory and a decision engine, each with a script of
    faults: a call takes the head of its script and fails with it when it
    is an error; with no script left, calls succeed. *)
Module MemStore.

Record t := mk {
  blocks : list Block;
  has_faults : list (option Error);
  get_faults : list (option Error);
  put_faults : list (option Error);
  engine_faults : list (option Error)
}.

Definition lookup (k : Key) (bs : list Block) : option Block :=
  find (λ b, bool_decide (key b = k)) bs.

Definition has (k : Key) (w : t) : (Error + bool) * t :=
  let w' := mk (blocks w) (tail (has_faults w)) (get_faults w) (put_faults w)
              (engine_faults w) in
  match has_faults w with
  | Some e :: _ => (inl e, w')
  | _ => (inr (bool_decide (is_Some (lookup k (blocks w)))), w')
  end.

Definition get (k : Key) (w : t) : (Error + Block) * t :=
  let w' := mk (blocks w) (has_faults w) (tail (get_faults w)) (put_faults w)
              (engine_faults w) in
  match get_faults w, lookup k (blocks w) with
  | Some e :: _, _ => (inl e, w')
  | _, Some b => (inr b, w')
  | _, None => (inl (mkError "not found"), w')
  end.

Definition put (b : Block) (w : t) : option Error * t :=
  match put_faults w with
  | Some e :: rest =>
      (Some e, mk (blocks w) (has_faults w) (get_faults w) rest (engine_faults w))
  | _ =>
      (None, mk (b :: filter (λ b', key b' ≠ key b) (blocks w)) (has_faults w)
               (get_faults w) (tail (put_faults w)) (engine_faults w))
  end.

Definition messageReceived (p : PeerId) (m : Message) (w : t) : option Error * t :=
  (mjoin (head (engine_faults w)),
   mk (blocks w) (has_faults w) (get_faults w) (put_faults w)
      (tail (engine_faults w))).

Definition empty : t := mk [] [] [] [] [].

End MemStore.

Global Instance MemStore_collaborators : Collaborators MemStore.t := {
  blockstore_has := MemStore.has;
  blockstore_getStream := MemStore.get;
  blockstore_putStream := MemStore.put;
  engine_messageReceived := MemStore.messageReceived
}.

(** A callback of the caller that only reports how it was called. *)
Definition reporter {W : Type} (name : string) : Callback W :=
  λ err st, Returned (record (EvCallback name err) st).

(** Nodes, blocks and messages for the examples. *)
Module Sample.

Definition peer : PeerId := mkPeerId "QmPeer".

Definition block1 : Block :=
  mkBlock (list_byte_of_string "key-one") (list_byte_of_string "one").

Definition block2 : Block :=
  mkBlock (list_byte_of_string "key-two") (list_byte_of_string "two!").

(** A node whose blockstore is empty and never fails. *)
Definition fresh_node : Bitswap MemStore.t := constructor MemStore.empty.

(** A node whose blockstore holds [block1]. *)
Definition node_with_block1 : Bitswap MemStore.t :=
  constructor (MemStore.mk [block1] [] [] [] []).

(** A node whose blockstore fails the first [has]. *)
Definition node_with_failing_has : Bitswap MemStore.t :=
  constructor (MemStore.mk [] [Some (mkError "disk")] [] [] []).

Definition message12 : Message := mkMessage false [] [block1; block2].

End Sample.

(** More nodes for the examples. *)
Module Faulty.

(** A node whose decision engine fails the first message. *)
Definition node_with_busy_engine : Bitswap MemStore.t :=
  constructor (MemStore.mk [] [] [] [] [Some (mkError "busy")]).

(** A node whose blockstore fails the first four puts. *)
Definition node_with_failing_put : Bitswap MemStore.t :=
  constructor (MemStore.mk [] [] []
                 [Some (mkError "1"); Some (mkError "2");
                  Some (mkError "3"); Some (mkError "4")] []).

(** A node whose blockstore holds [block1] and fails the first read. *)
Definition node_with_failing_get : Bitswap MemStore.t :=
  constructor (MemStore.mk [Sample.block1] [] [Some (mkError "read")] [] []).

(** A node whose blockstore holds the two blocks. *)
Definition node_with_two_blocks : Bitswap MemStore.t :=
  constructor (MemStore.mk [Sample.block1; Sample.block2] [] [] [] []).

(** A node whose blockstore answers the first [has] and fails the
    second. *)
Definition node_with_second_has_failing : Bitswap MemStore.t :=
  constructor (MemStore.mk [] [None; Some (mkError "disk")] [] [] []).


(** A node whose blockstore fails the first two puts. *)
Definition node_with_two_failing_puts : Bitswap MemStore.t :=
  constructor (MemStore.mk [] [] [] [Some (mkError "1"); Some (mkError "2")] []).

Definition empty_message : Message := mkMessage false [] [].

Definition message1 : Message := mkMessage false [] [Sample.block1].

End Faulty.

(** Nodes with a peer. *)
Module Connected.

(** A node to which [peer] is connected. *)
Definition node_with_peer : Bitswap MemStore.t :=
  _onPeerConnected Sample.peer Sample.fresh_node.

(** The same, once a get has asked for the key of [block1], which the
    blockstore lacks: the get waits, and the key is in the want-list. *)
Definition node_wanting_block1 : Bitswap MemStore.t :=
  (get_one Base58.encode (key Sample.block1) node_with_peer).2.

(** The same, once [block1] has been handed to [hasBlock]: the
    blockstore holds it and the get has read it. *)
Definition node_served_block1 : Bitswap MemStore.t :=
  (hasBlock_result Base58.encode Sample.block1 node_wanting_block1).2.

End Connected.

(** ** Vocabulary of the properties *)

Section Vocabulary.

Context {W : Type}.
Variable toB58String : Key → string.

Local Abbreviation State := (Bitswap W).

(** The fields that the emitter and the streams never write. *)
Definition outside (st : State) : W * WantManager * (N * N * N) * list Event :=
  (collaborators st, wm st,
   (blocksRecvd st, dupBlocksRecvd st, dupDataRecvd st), trace st).

(** The same, but for the trace. *)
Definition core (st : State) : W * WantManager * (N * N * N) :=
  (collaborators st, wm st, (blocksRecvd st, dupBlocksRecvd st, dupDataRecvd st)).

(** A line of the debug log. *)
Definition is_log (ev : Event) : Prop :=
  match ev with EvLog _ _ _ => True | _ => False end.

(** [st'] differs from [st] outside the emitter and the streams by log
    lines only. *)
Definition only_logged (st st' : State) : Prop :=
  core st' = core st ∧ ∃ logs, trace st' = trace st ++ logs ∧ Forall is_log logs.

(** The fields that no call to the blockstore or the engine writes. *)
Definition inside (st : State)
    : WantManager * (N * N * N) * gmap string (list Listener) * list GetStream * nat :=
  (wm st, (blocksRecvd st, dupBlocksRecvd st, dupDataRecvd st), notifications st,
   streams st, next_listener st).

(** The [blockstore.has] calls among some events, with their answers. *)
Definition has_queries (evs : list Event) : list (Key * (Error + bool)) :=
  omap (λ ev, match ev with EvBlockstoreHas k r => Some (k, r) | _ => None end) evs.

(** The answer of [blockstore.has] that says the block is there. *)
Definition present (r : Error + bool) : bool :=
  match r with inr true => true | _ => false end.


(** Of [blocks], those for which the blockstore answered that it had
    them. *)
Definition duplicates (blocks : list Block) (answers : list (Error + bool))
    : list Block :=
  (filter (λ p, present p.2 = true) (zip blocks answers)).*1.

(** Sum of [block.data.length]. *)
Definition data_length (blocks : list Block) : N :=
  foldr (λ b n, buffer_length (data b) + n) 0 blocks.

(** The calls of [n] attempts to put [block] that fail with [errs], each
    followed by the wait before the next attempt. *)
Definition failed_puts (block : Block) (interval : N) (errs : list Error)
    : list Event :=
  errs ≫= (λ e, [EvBlockstorePut block (Some e); EvTimeout interval]).

(** A stream once [cleanupListener] has run for the key whose base58
    form is [keyS]: both listeners of the key are forgotten, and the
    pusher is ended when the sink is finished and no block listener is
    left. *)
Definition cleaned (keyS : string) (s : GetStream) : GetStream :=
  mkGetStream (delete keyS (unwantListeners s)) (delete keyS (blockListeners s))
    (finished s)
    (if finished s && bool_decide (size (delete keyS (blockListeners s)) = 0%nat)
     then Some (default None (pusher_ended s))
     else pusher_ended s)
    (emitted s).

(** The variables of a [getStream] call that was fed one key, which the
    blockstore lacked, and whose sink has ended: it waits with the two
    listeners [u] and [b]. *)
Definition waiting_stream (keyS : string) (u b : Listener) : GetStream :=
  mkGetStream (<[keyS := u]> ∅) (<[keyS := b]> ∅) true None [].

(** The calls of the caller's callbacks among some events. *)
Definition callbacks_of (evs : list Event) : list (string * option Error) :=
  omap (λ ev, match ev with EvCallback n e => Some (n, e) | _ => None end) evs.

(** The lines logged among some events. *)
Definition lines_of (evs : list Event) : list string :=
  omap (λ ev, match ev with EvLog _ fmt _ => Some fmt | _ => None end) evs.

(** The [getStream] call a listener was made by. *)
Definition listener_stream (l : Listener) : nat :=
  match listener_body l with
  | UnwantListener sid _ => sid
  | BlockListener sid => sid
  end.

(** The listeners of [event] were all made by [getStream] calls that the
    instance knows. *)
Definition listeners_known (event : string) (st : State) : Prop :=
  Forall (λ l, (listener_stream l < length (streams st))%nat) (listeners_of event st).

(** Every registered listener was made by a [getStream] call that the
    instance knows. *)
Definition all_listeners_known (st : State) : Prop :=
  ∀ event, listeners_known event st.

(** From [st] to [st'] no listener was registered and no stream was
    lost. *)
Definition no_new_listeners (st st' : State) : Prop :=
  (∀ event, listeners_of event st' ⊆ listeners_of event st) ∧
  (length (streams st) ≤ length (streams st'))%nat.

(** An [emit]. *)
Definition is_emit (ev : Event) : Prop :=
  match ev with EvEmit _ _ => True | _ => False end.

(** The order in which the specification has [start()] bring the parts
    up: want manager, decision engine, network. *)
Definition specified_start_order : list Event :=
  [EvWmRun; EvEngineStart; EvNetworkStart].

(** The order in which the specification has [stop()] take them down:
    the reverse. *)
Definition specified_stop_order : list Event :=
  [EvNetworkStop; EvEngineStop; EvWmStop].

(** A call of [blockstore.has]. *)
Definition is_has (ev : Event) : Prop :=
  match ev with EvBlockstoreHas _ _ => True | _ => False end.

(** A call of the blockstore's put. *)
Definition is_put (ev : Event) : Prop :=
  match ev with EvBlockstorePut _ _ => True | _ => False end.

(** A delta that the want manager hands to the queue of a peer. *)
Definition is_enqueue (ev : Event) : Prop :=
  match ev with EvWmEnqueue _ _ => True | _ => False end.

(** A delta that carries cancels only. *)
Definition is_cancel_delta (ev : Event) : Prop :=
  match ev with
  | EvWmEnqueue _ entries => Forall (λ e, entry_cancel e = true) entries
  | _ => False
  end.

(** Modelled from the spec: what [wm.cancelWants([k])] of the missing
    want manager hands to the peers.  When the want-list has the key with
    one reference left, the entry is dropped and every connected peer gets
    its cancel; otherwise nothing is handed on. *)
Definition cancel_deltas (k : Key) (m : WantManager) : list Event :=
  match wl m !! toB58String k with
  | Some e =>
      if entry_refcount e <=? 1
      then (λ p, EvWmEnqueue p [as_cancel e]) <$> wm_peers m
      else []
  | None => []
  end.

(** Everything but the trace. *)
Definition but_trace (st : State)
    : W * (WantManager * (N * N * N) * gmap string (list Listener) *
           list GetStream * nat) :=
  (collaborators st, inside st).

(** The block's key is in the local want-list. *)
Definition wanted (l : gmap string WantEntry) (block : Block) : bool :=
  WantList.contains (toB58String (key block)) l.

(** The line [_receiveMessage] logs for a block nobody asked for. *)
Definition unasked_log (peerId : PeerId) (block : Block) : Event :=
  EvLog DebugLog "received un-askes-for %s from %s"
    [ArgString (toB58String (key block)); ArgString (peer_toB58String peerId)].

End Vocabulary.

(** ** Vocabulary of the histories *)

Section History.

Context {W : Type}.
Variable toB58String : Key → string.

Local Abbreviation State := (Bitswap W).

(** The three receive counters. *)
Definition counters (st : State) : N * N * N :=
  (blocksRecvd st, dupBlocksRecvd st, dupDataRecvd st).

(** The blocks that the inbound messages among some calls carry. *)
Definition received (ms : list Method) : list Block :=
  ms ≫= (λ m, match m with
              | CallReceiveMessage _ incoming => msg_blocks incoming
              | _ => []
              end).

(** Everything but the streams. *)
Definition but_streams_of (st : State)
    : W * WantManager * N * N * N * gmap string (list Listener) * nat * list Event :=
  (collaborators st, wm st, blocksRecvd st, dupBlocksRecvd st, dupDataRecvd st,
   notifications st, next_listener st, trace st).

(** A call of the want manager, or a delta it hands to a peer. *)
Definition is_wm_call (ev : Event) : Prop :=
  match ev with
  | EvWmRun | EvWmStop | EvWmConnected _ | EvWmDisconnected _
  | EvWmWantBlocks _ | EvWmCancelWants _ | EvWmUnwantBlocks _
  | EvWmEnqueue _ _ => True
  | _ => False
  end.

(** A stream once [addListener] has run for the key whose base58 form is
    [keyS], with the two closures [u] and [b]. *)
Definition listening (keyS : string) (u b : Listener) (s : GetStream) : GetStream :=
  mkGetStream (<[keyS := u]> (unwantListeners s)) (<[keyS := b]> (blockListeners s))
    (finished s) (pusher_ended s) (emitted s).

(** An open stream once [block] has been pushed and read from its
    source. *)
Definition pushed (block : Block) (s : GetStream) : GetStream :=
  mkGetStream
    (unwantListeners (cleaned (toB58String (key block)) s))
    (blockListeners (cleaned (toB58String (key block)) s))
    (finished s)
    (pusher_ended (cleaned (toB58String (key block)) s))
    (emitted s ++ [block]).

(** A stream once its sink has ended, with [err] if it failed. *)
Definition sunk (err : option Error) (s : GetStream) : GetStream :=
  mkGetStream (unwantListeners s) (blockListeners s) true
    (match pusher_ended s, err with
     | Some e, _ => Some e
     | None, Some e => Some (Some e)
     | None, None =>
         if bool_decide (size (blockListeners s) = 0%nat) then Some None else None
     end)
    (emitted s).

(** What can happen to the variables of one [getStream] call: its sink
    adds listeners for a key while it runs, a listener or a block read
    from the source cleans up, a block is pushed while the source is
    open, the sink ends. *)
Inductive stream_step : GetStream → GetStream → Prop :=
| step_listen keyS u b s :
    finished s = false → stream_step s (listening keyS u b s)
| step_clean keyS s : stream_step s (cleaned keyS s)
| step_push block s : pusher_ended s = None → stream_step s (pushed block s)
| step_sunk err s : stream_step s (sunk err s).

(** From [st] to [st'], the streams are the same in number and each went
    through steps of the above. *)
Definition follows (st st' : State) : Prop :=
  length (streams st') = length (streams st) ∧
  ∀ sid, rtc stream_step (the_stream sid st) (the_stream sid st').

(** The steps left to a stream once its sink has ended: those that a
    listener, or a block read from the source, takes. *)
Inductive served_step : GetStream → GetStream → Prop :=
| served_clean keyS s : served_step s (cleaned keyS s)
| served_push block s : pusher_ended s = None → served_step s (pushed block s).

(** From [st] to [st'], the streams are the same in number and each went
    through such steps only. *)
Definition serves (st st' : State) : Prop :=
  length (streams st') = length (streams st) ∧
  ∀ sid, rtc served_step (the_stream sid st) (the_stream sid st').

(** What holds of a stream throughout: its two listener objects have the
    same keys; once the sink has ended and no block listener is left, the
    source has ended; and a source that ended without an error belongs to
    a sink that has ended and waits for no block. *)
Definition settled (s : GetStream) : Prop :=
  dom (unwantListeners s) = dom (blockListeners s) ∧
  (finished s = true → blockListeners s = ∅ → is_Some (pusher_ended s)) ∧
  (pusher_ended s = Some None → finished s = true ∧ blockListeners s = ∅).

(** Every stream of the instance is settled, and its sink has ended. *)
Definition all_settled (st : State) : Prop :=
  Forall (λ s, settled s ∧ finished s = true) (streams st).

End History.

(** The blockstore is asked for each of [keys] in turn, says that it has
    it, and reads its block: the blocks read and the state of the
    collaborators afterwards; [None] when it lacks a key or fails. *)
Fixpoint read_all {W : Type} `{Collaborators W} (keys : list Key) (w : W)
    : option (list Block * W) :=
  match keys with
  | [] => Some ([], w)
  | k :: rest =>
      match blockstore_has k w with
      | (inr true, w1) =>
          match blockstore_getStream k w1 with
          | (inr block, w2) =>
              match read_all rest w2 with
              | Some (blocks, w') => Some (block :: blocks, w')
              | None => None
              end
          | _ => None
          end
      | _ => None
      end
  end.

(** ** Vocabulary of the blockstore's answers *)

Section Answers.

Context {W : Type} `{Collaborators W}.

(** [n] attempts to put [block], made one after the other from [w], that
    all fail: their errors and the collaborators after the last; [None]
    when one of them succeeds. *)
Fixpoint failed_attempts (n : nat) (block : Block) (w : W) : option (list Error * W) :=
  match n with
  | O => Some ([], w)
  | S n =>
      match blockstore_putStream block w with
      | (Some e, w1) =>
          match failed_attempts n block w1 with
          | Some (errs, w') => Some (e :: errs, w')
          | None => None
          end
      | (None, _) => None
      end
  end.

(** The collaborators once [retry] is through with the put of [block]:
    an attempt is made and, while it fails and [more] are left, the
    next. *)
Fixpoint store_after_puts (more : nat) (block : Block) (w : W) : W :=
  match blockstore_putStream block w, more with
  | (Some _, w'), S m => store_after_puts m block w'
  | (_, w'), _ => w'
  end.

(** What [blockstore.has] answers for each of [blocks] when they are
    handled in turn from [w], each being asked for and then put with the
    4 attempts of [hasBlock]; and the collaborators afterwards. *)
Fixpoint answers_to_blocks (blocks : list Block) (w : W) : list (Error + bool) * W :=
  match blocks with
  | [] => ([], w)
  | block :: rest =>
      let '(r, w1) := blockstore_has (key block) w in
      let '(rs, w') := answers_to_blocks rest (store_after_puts (4 - 1) block w1) in
      (r :: rs, w')
  end.

(** The same for the blocks of a sequence of inbound messages: the
    decision engine sees each message before its blocks are handled. *)
Fixpoint answers_to_messages (calls : list (PeerId * Message)) (w : W)
    : list (Error + bool) * W :=
  match calls with
  | [] => ([], w)
  | (peerId, incoming) :: rest =>
      let '(_, w1) := engine_messageReceived peerId incoming w in
      let '(rs, w2) := answers_to_blocks (msg_blocks incoming) w1 in
      let '(rs', w') := answers_to_messages rest w2 in
      (rs ++ rs', w')
  end.

End Answers.

(** ** Vocabulary of the emitter *)

Section Emitter.

Context {W : Type}.
Variable toB58String : Key → string.

Local Abbreviation State := (Bitswap W).

(** The event a listener is made for: an unwant listener for the unwant
    event of its key, a block listener for a block event. *)
Definition registered_as (event : string) (l : Listener) : Prop :=
  match listener_body l with
  | UnwantListener _ k => event = unwantEvent (toB58String k)
  | BlockListener _ => ∃ keyS, event = blockEvent keyS
  end.

(** Every listener is registered under an event it was made for. *)
Definition emitter_sorted (st : State) : Prop :=
  ∀ event, Forall (registered_as event) (listeners_of event st).

(** The variables of a [getStream] call that was fed two keys, which the
    blockstore lacked, and whose sink has ended: it waits with two
    listeners for each. *)
Definition waiting_for_two (keyS1 keyS2 : string) (u1 b1 u2 b2 : Listener)
    : GetStream :=
  mkGetStream (<[keyS2 := u2]> (<[keyS1 := u1]> ∅))
    (<[keyS2 := b2]> (<[keyS1 := b1]> ∅)) true None [].

End Emitter.

(** * Properties *)

(** ** The callbacks receive the results *)

Section Agreement.

Context {W : Type} `{Collaborators W}.
Variable toB58String : Key → string.

Local Abbreviation State := (Bitswap W).

Lemma has_calls_back (k : Key) (cb : Error + bool → State → Outcome W) (st : State) :
  has k cb st = cb (has_result k st).1 (has_result k st).2.
Proof.
  unfold has, has_result.
  by destruct (blockstore_has k (collaborators st)).
Qed.

Lemma updateReceiveCounters_calls_back (block : Block) (cb : Callback W) (st : State) :
  _updateReceiveCounters block cb st =
  cb (updateReceiveCounters_result block st).1
     (updateReceiveCounters_result block st).2.
Proof.
  unfold _updateReceiveCounters, updateReceiveCounters_result.
  rewrite has_calls_back.
  destruct (has_result _ _) as [[err | [|]] st']; reflexivity.
Qed.

Lemma put_task_calls_back (block : Block) (cb : Callback W) (st : State) :
  put_task block cb st = cb (put_result block st).1 (put_result block st).2.
Proof.
  unfold put_task, put_result.
  by destruct (blockstore_putStream block (collaborators st)).
Qed.

Lemma retry_from_calls_back (more : nat) (interval : N) (block : Block)
    (cb : Callback W) (st : State) :
  retry_from more interval (put_task block) cb st =
  cb (retry_result more interval block st).1 (retry_result more interval block st).2.
Proof.
  revert st; induction more as [|m IH]; intros st; simpl;
    rewrite put_task_calls_back;
    destruct (put_result block st) as [[e|] st']; simpl; auto.
Qed.

Lemma tryPutBlock_calls_back (block : Block) (times : nat) (cb : Callback W)
    (st : State) :
  _tryPutBlock block times cb st =
  cb (tryPutBlock_result block times st).1 (tryPutBlock_result block times st).2.
Proof. apply retry_from_calls_back. Qed.

Lemma hasBlock_calls_back (block : Block) (cb : JsCallback W) (st : State) :
  hasBlock toB58String block cb st =
  call (or_noop cb) (hasBlock_result toB58String block st).1
       (hasBlock_result toB58String block st).2.
Proof.
  unfold hasBlock, hasBlock_result.
  rewrite tryPutBlock_calls_back.
  destruct (tryPutBlock_result block 4 st) as [[e|] st']; reflexivity.
Qed.

Lemma receive_block_calls_back (peerId : PeerId) (block : Block)
    (next : Callback W) (st : State) :
  receive_block toB58String peerId block next st =
  next None (receive_block_result toB58String peerId block st).
Proof.
  unfold receive_block, receive_block_result; simpl.
  rewrite updateReceiveCounters_calls_back.
  destruct (updateReceiveCounters_result block st) as [[e|] st1]; simpl;
    rewrite hasBlock_calls_back;
    destruct (hasBlock_result toB58String block _) as [[e'|] st2]; reflexivity.
Qed.

Lemma eachLimit_calls_back {A : Type} (coll : list A) (limit : nat)
    (iteratee : A → Callback W → State → Outcome W) (step : A → State → State)
    (cb : Callback W) (st : State) :
  (∀ x next st, iteratee x next st = next None (step x st)) →
  eachLimit coll limit iteratee cb st = cb None (foldl (λ st x, step x st) st coll).
Proof.
  intros Hstep; revert st; induction coll as [|x rest IH]; intros st; simpl.
  - reflexivity.
  - rewrite Hstep. apply IH.
Qed.

Lemma receiveMessage_calls_back (peerId : PeerId) (incoming : Message)
    (cb : JsCallback W) (st : State) :
  _receiveMessage toB58String peerId incoming cb st =
  call (or_noop cb) None (receiveMessage_result toB58String peerId incoming st).
Proof.
  unfold _receiveMessage, receiveMessage_result.
  destruct (engine_messageReceived peerId incoming _) as [err w].
  case_bool_decide; [reflexivity|].
  destruct (wanted_keys _ _ _ _ _) as [keys st1].
  rewrite (eachLimit_calls_back _ _ _ (receive_block_result toB58String peerId));
    [reflexivity|].
  intros; apply receive_block_calls_back.
Qed.

End Agreement.

(** ** What the listeners and the streams leave alone *)

Section Frame.

Context {W : Type} `{Collaborators W}.
Variable toB58String : Key → string.

Local Abbreviation State := (Bitswap W).

Lemma outside_core (st st' : State) : outside st' = outside st → core st' = core st.
Proof. unfold outside, core. congruence. Qed.

Lemma outside_trace (st st' : State) : outside st' = outside st → trace st' = trace st.
Proof. unfold outside. congruence. Qed.

Lemma outside_update_stream sid f (st : State) :
  outside (update_stream sid f st) = outside st.
Proof. reflexivity. Qed.

Lemma outside_removeListener event l (st : State) :
  outside (removeListener event l st) = outside st.
Proof. unfold removeListener. repeat case_match; reflexivity. Qed.

Lemma outside_once event l (st : State) : outside (once event l st) = outside st.
Proof. reflexivity. Qed.

Lemma outside_pusher_end sid err (st : State) :
  outside (pusher_end sid err st) = outside st.
Proof. reflexivity. Qed.

Lemma outside_finish sid (st : State) : outside (finish sid st) = outside st.
Proof. unfold finish. case_match; reflexivity. Qed.

Lemma outside_cleanupListener sid k (st : State) :
  outside (cleanupListener toB58String sid k st) = outside st.
Proof.
  unfold cleanupListener.
  rewrite outside_finish.
  repeat case_match;
    rewrite ?outside_update_stream, ?outside_removeListener;
    try reflexivity.
  all: rewrite ?outside_update_stream, ?outside_removeListener; reflexivity.
Qed.

Lemma outside_pusher_push sid block (st : State) :
  outside (pusher_push toB58String sid block st) = outside st.
Proof.
  unfold pusher_push. case_match; [reflexivity|].
  by rewrite outside_update_stream, outside_cleanupListener.
Qed.

Lemma outside_addListener sid k (st : State) :
  outside (addListener toB58String sid k st) = outside st.
Proof. reflexivity. Qed.

Lemma core_record ev (st : State) : core (record ev st) = core st.
Proof. reflexivity. Qed.

Lemma core_log chan fmt args (st : State) : core (log chan fmt args st) = core st.
Proof. reflexivity. Qed.

Lemma only_logged_refl (st : State) : only_logged st st.
Proof. split; [reflexivity|]. exists []. by rewrite app_nil_r. Qed.

Lemma only_logged_trans (st1 st2 st3 : State) :
  only_logged st1 st2 → only_logged st2 st3 → only_logged st1 st3.
Proof.
  intros [Hc1 (l1 & Ht1 & Hl1)] [Hc2 (l2 & Ht2 & Hl2)]. split; [congruence|].
  exists (l1 ++ l2). split; [|by apply Forall_app].
  by rewrite Ht2, Ht1, <-app_assoc.
Qed.

Lemma only_logged_outside (st st' : State) :
  outside st' = outside st → only_logged st st'.
Proof.
  intros Ho. split; [by apply outside_core|].
  exists []. by rewrite app_nil_r, (outside_trace _ _ Ho).
Qed.

Lemma only_logged_call_listener event payload l (st : State) :
  only_logged st (call_listener toB58String event payload l st).
Proof.
  unfold call_listener.
  eapply only_logged_trans;
    [apply only_logged_outside, (outside_removeListener event l)|].
  destruct (listener_body l) as [sid k|sid].
  - eapply only_logged_trans; [|apply only_logged_outside, outside_cleanupListener].
    split; [reflexivity|]. eexists [_]. split; [reflexivity|].
    by repeat constructor.
  - destruct payload.
    + apply only_logged_outside, outside_pusher_push.
    + apply only_logged_refl.
Qed.

Lemma only_logged_listeners event payload ls (st : State) :
  only_logged st (foldl (λ st l, call_listener toB58String event payload l st) st ls).
Proof.
  revert st; induction ls as [|l ls IH]; intros st; simpl.
  - apply only_logged_refl.
  - eapply only_logged_trans; [apply only_logged_call_listener|apply IH].
Qed.

(** An [emit] adds itself and log lines to the trace, and leaves the
    collaborators, the want manager and the counters as they are. *)
Lemma emit_outside event payload (st : State) :
  core (emit toB58String event payload st) = core st ∧
  ∃ logs, trace (emit toB58String event payload st) =
          trace st ++ EvEmit event payload :: logs ∧ Forall is_log logs.
Proof.
  unfold emit.
  destruct (only_logged_listeners event payload
              (listeners_of event (record (EvEmit event payload) st))
              (record (EvEmit event payload) st)) as [Hc (logs & Ht & Hl)].
  split; [by rewrite Hc|].
  exists logs. split; [|done].
  rewrite Ht. simpl. by rewrite <-app_assoc.
Qed.

End Frame.

(** ** Storing a block: [_tryPutBlock] and [hasBlock] *)

Section Storing.

Context {W : Type} `{Collaborators W}.
Variable toB58String : Key → string.

Local Abbreviation State := (Bitswap W).

Lemma put_result_inside (block : Block) (st : State) :
  inside (put_result block st).2 = inside st.
Proof.
  unfold put_result. by destruct (blockstore_putStream block (collaborators st)).
Qed.

Lemma put_result_trace (block : Block) (st : State) :
  trace (put_result block st).2 =
  trace st ++ [EvBlockstorePut block (put_result block st).1].
Proof.
  unfold put_result. by destruct (blockstore_putStream block (collaborators st)).
Qed.

Lemma retry_result_inside (more : nat) (interval : N) (block : Block) (st : State) :
  inside (retry_result more interval block st).2 = inside st.
Proof.
  revert st; induction more as [|m IH]; intros st; simpl;
    pose proof (put_result_inside block st) as Hp;
    destruct (put_result block st) as [[e|] st1]; simpl in *; try done.
  by rewrite IH.
Qed.

(** The attempts of a retried put, in the order they are made: either
    one of them succeeds, after at most [more] failures, or all the
    [more + 1] fail and the error of the last is the result. *)
Lemma retry_result_trace (more : nat) (interval : N) (block : Block) (st : State) :
  (∃ errs,
      (length errs ≤ more)%nat ∧
      (retry_result more interval block st).1 = None ∧
      trace (retry_result more interval block st).2 =
      trace st ++ failed_puts block interval errs ++ [EvBlockstorePut block None]) ∨
  (∃ errs e,
      length errs = more ∧
      (retry_result more interval block st).1 = Some e ∧
      trace (retry_result more interval block st).2 =
      trace st ++ failed_puts block interval errs ++ [EvBlockstorePut block (Some e)]).
Proof.
  revert st; induction more as [|m IH]; intros st; simpl;
    pose proof (put_result_trace block st) as Hp;
    destruct (put_result block st) as [[e|] st1]; simpl in *.
  - right. by exists [], e.
  - left. exists []. split; [simpl; lia|done].
  - destruct (IH (record (EvTimeout interval) st1)) as
      [(errs & Hlen & Hr & Ht)|(errs & e' & Hlen & Hr & Ht)].
    + left. exists (e :: errs). split; [simpl; lia|]. split; [done|].
      rewrite Ht. simpl. rewrite Hp. by rewrite <-!app_assoc.
    + right. exists (e :: errs), e'. split; [simpl; lia|]. split; [done|].
      rewrite Ht. simpl. rewrite Hp. by rewrite <-!app_assoc.
  - left. exists []. split; [simpl; lia|done].
Qed.

(** [hasBlock] leaves the want manager and the receive counters alone. *)
Lemma hasBlock_result_keeps (block : Block) (st : State) :
  wm (hasBlock_result toB58String block st).2 = wm st ∧
  blocksRecvd (hasBlock_result toB58String block st).2 = blocksRecvd st ∧
  dupBlocksRecvd (hasBlock_result toB58String block st).2 = dupBlocksRecvd st ∧
  dupDataRecvd (hasBlock_result toB58String block st).2 = dupDataRecvd st.
Proof.
  unfold hasBlock_result, tryPutBlock_result.
  pose proof (retry_result_inside (4 - 1) 400 block
                (log DebugLog "trying to put block %s" [ArgBuffer (data block)] st))
    as Hi.
  destruct (retry_result _ _ _ _) as [[e|] st1]; simpl in *.
  - unfold inside in Hi; simpl in Hi. simplify_eq. repeat split; congruence.
  - destruct (emit_outside toB58String (blockEvent (toB58String (key block)))
                (Some block)
                (log DebugLog "put block: %s" [ArgString (toB58String (key block))] st1))
      as [Hc _].
    unfold core in Hc; simpl in Hc. unfold inside in Hi; simpl in Hi.
    simplify_eq. repeat split; congruence.
Qed.

(** The trace of [hasBlock], by the result of the put. *)
Lemma hasBlock_result_trace (block : Block) (st : State) :
  (∃ errs logs,
      (length errs < 4)%nat ∧ Forall is_log logs ∧
      (hasBlock_result toB58String block st).1 = None ∧
      trace (hasBlock_result toB58String block st).2 =
      trace st ++
      EvLog DebugLog "trying to put block %s" [ArgBuffer (data block)] ::
      failed_puts block 400 errs ++
      [EvBlockstorePut block None;
       EvLog DebugLog "put block: %s" [ArgString (toB58String (key block))];
       EvEmit (blockEvent (toB58String (key block))) (Some block)] ++
      logs ++ [EvEngineReceivedBlock block]) ∨
  (∃ errs e,
      length errs = 3%nat ∧
      (hasBlock_result toB58String block st).1 = Some e ∧
      trace (hasBlock_result toB58String block st).2 =
      trace st ++
      EvLog DebugLog "trying to put block %s" [ArgBuffer (data block)] ::
      failed_puts block 400 errs ++
      [EvBlockstorePut block (Some e);
       EvLog ErrorLog "Error writing block to blockstore: %s" [ArgString (message e)]]).
Proof.
  unfold hasBlock_result, tryPutBlock_result.
  destruct (retry_result_trace (4 - 1) 400 block
              (log DebugLog "trying to put block %s" [ArgBuffer (data block)] st))
    as [(errs & Hlen & Hr & Ht)|(errs & e & Hlen & Hr & Ht)];
    destruct (retry_result _ _ _ _) as [err st1]; simpl in *; subst err.
  - left.
    destruct (emit_outside toB58String (blockEvent (toB58String (key block)))
                (Some block)
                (log DebugLog "put block: %s" [ArgString (toB58String (key block))] st1))
      as [_ (logs & Hemit & Hlogs)].
    exists errs, logs. split; [lia|]. split; [done|]. split; [done|].
    simpl. rewrite Hemit. simpl. rewrite Ht.
    by repeat (rewrite <-?app_assoc; simpl).
  - right. exists errs, e. split; [done|]. split; [done|].
    simpl. rewrite Ht. by repeat (rewrite <-?app_assoc; simpl).
Qed.

(** A retried put whose first [n] attempts fail and whose next attempt
    gives [last], a success or, when no attempt is left, the last
    failure. *)
Lemma retry_result_attempts (n more : nat) (interval : N) (block : Block)
    (st : State) (errs : list Error) (w1 : W) (last : option Error) (w2 : W) :
  failed_attempts n block (collaborators st) = Some (errs, w1) →
  blockstore_putStream block w1 = (last, w2) →
  (n ≤ more)%nat →
  last = None ∨ n = more →
  ∃ st',
    retry_result more interval block st = (last, st') ∧
    collaborators st' = w2 ∧
    inside st' = inside st ∧
    trace st' =
    trace st ++ failed_puts block interval errs ++ [EvBlockstorePut block last].
Proof.
  revert more st errs. induction n as [|n IH]; intros more st errs Hfail Hput Hle Hlast.
  - simpl in Hfail. injection Hfail as <- <-.
    destruct more as [|m]; simpl; unfold put_result; rewrite Hput.
    + eexists. split; [by destruct last|]. done.
    + destruct Hlast as [->|?]; [|lia]. eexists. split; [reflexivity|]. done.
  - simpl in Hfail.
    destruct (blockstore_putStream block (collaborators st)) as [[e|] wa] eqn:Hfirst;
      [|done].
    destruct (failed_attempts n block wa) as [[errs' w1']|] eqn:Hrest; [|done].
    injection Hfail as <- <-.
    destruct more as [|m]; [lia|].
    simpl. unfold put_result. rewrite Hfirst.
    destruct (IH m (record (EvTimeout interval)
                      (record (EvBlockstorePut block (Some e)) (set_collaborators wa st)))
                errs' Hrest Hput ltac:(lia) ltac:(destruct Hlast; [by left|right; lia]))
      as (st' & Hr & Hc & Hi & Ht).
    exists st'. split; [done|]. split; [done|]. split; [done|].
    rewrite Ht. simpl. by rewrite <-?app_assoc.
Qed.

(** Whatever the blockstore does, the attempts of [hasBlock] come to one
    of the two ends: fewer than 4 attempts fail and the next succeeds, or
    3 fail and the fourth fails too. *)
Lemma put_attempts_settle (block : Block) (w : W) :
  ∃ n errs w1 last w2,
    failed_attempts n block w = Some (errs, w1) ∧
    blockstore_putStream block w1 = (last, w2) ∧
    (n < 4)%nat ∧
    (last = None ∨ n = 3%nat).
Proof.
  destruct (blockstore_putStream block w) as [[e1|] wa] eqn:H1.
  2: { exists 0%nat, [], w, None, wa. repeat split; [done|lia|by left]. }
  destruct (blockstore_putStream block wa) as [[e2|] wb] eqn:H2.
  2: { exists 1%nat, [e1], wa, None, wb. simpl. rewrite H1.
       repeat split; [done|lia|by left]. }
  destruct (blockstore_putStream block wb) as [[e3|] wc] eqn:H3.
  2: { exists 2%nat, [e1; e2], wb, None, wc. simpl. rewrite H1, H2.
       repeat split; [done|lia|by left]. }
  destruct (blockstore_putStream block wc) as [last wd] eqn:H4.
  exists 3%nat, [e1; e2; e3], wc, last, wd. simpl. rewrite H1, H2, H3.
  repeat split; [done|lia|by right].
Qed.

(** C5. [hasBlock(block, cb)] puts the block with at most 4 attempts,
    each 400 ms after the failure of the one before: when the blockstore
    fails the first [n] attempts with [errs] and answers the next with
    [last], these [n + 1] puts are made and no other.  When that attempt
    succeeds ([n < 4]), [block:<keyB58>] is emitted once, after that put;
    then the decision engine is told of the block; then [cb] is called
    with no error.  When it is the fourth and fails, [cb] is called with
    its error, nothing is emitted, the engine is not told, and the emitter
    and the streams are as they were.  With no [cb], [hasBlock] returns. *)
Theorem hasBlock_puts_then_notifies (block : Block) (cb : JsCallback W) (st : State)
    (n : nat) (errs : list Error) (w1 : W) (last : option Error) (w2 : W) :
  failed_attempts n block (collaborators st) = Some (errs, w1) →
  blockstore_putStream block w1 = (last, w2) →
  (n < 4)%nat →
  last = None ∨ n = 3%nat →
  match last with
  | None =>
      ∃ logs st',
        hasBlock toB58String block cb st =
        match cb with Some f => f None st' | None => Returned st' end ∧
        collaborators st' = w2 ∧
        Forall is_log logs ∧
        trace st' =
        trace st ++
        EvLog DebugLog "trying to put block %s" [ArgBuffer (data block)] ::
        failed_puts block 400 errs ++
        [EvBlockstorePut block None;
         EvLog DebugLog "put block: %s" [ArgString (toB58String (key block))];
         EvEmit (blockEvent (toB58String (key block))) (Some block)] ++
        logs ++ [EvEngineReceivedBlock block]
  | Some e =>
      ∃ st',
        hasBlock toB58String block cb st =
        match cb with Some f => f (Some e) st' | None => Returned st' end ∧
        collaborators st' = w2 ∧
        inside st' = inside st ∧
        trace st' =
        trace st ++
        EvLog DebugLog "trying to put block %s" [ArgBuffer (data block)] ::
        failed_puts block 400 errs ++
        [EvBlockstorePut block (Some e);
         EvLog ErrorLog "Error writing block to blockstore: %s" [ArgString (message e)]]
  end.
Proof.
  intros Hfail Hput Hlt Hlast.
  destruct (retry_result_attempts n (4 - 1) 400 block
              (log DebugLog "trying to put block %s" [ArgBuffer (data block)] st)
              errs w1 last w2 Hfail Hput ltac:(simpl; lia)
              ltac:(destruct Hlast; [by left|by right]))
    as (st1 & Hr & Hc & Hi & Ht).
  assert (hasBlock toB58String block cb st =
          match cb with
          | Some f => f (hasBlock_result toB58String block st).1
                        (hasBlock_result toB58String block st).2
          | None => Returned (hasBlock_result toB58String block st).2
          end) as Hcall by (rewrite hasBlock_calls_back; by destruct cb).
  rewrite Hcall. unfold hasBlock_result, tryPutBlock_result. rewrite Hr.
  destruct last as [e|]; cbn [fst snd].
  - eexists. split; [reflexivity|]. split; [done|]. split; [done|].
    simpl. rewrite Ht. simpl. by rewrite <-?app_assoc.
  - destruct (emit_outside toB58String (blockEvent (toB58String (key block)))
                (Some block)
                (log DebugLog "put block: %s" [ArgString (toB58String (key block))] st1))
      as [Hcore (logs & Hemit & Hlogs)].
    exists logs. eexists. split; [reflexivity|].
    split; [unfold core in Hcore; simpl in *; congruence|]. split; [done|].
    simpl. rewrite Hemit. simpl. rewrite Ht. simpl.
    by repeat (rewrite <-?app_assoc; simpl).
Qed.

End Storing.

(** ** Receiving a message *)

Section Receiving.

Context {W : Type} `{Collaborators W}.
Variable toB58String : Key → string.

Local Abbreviation State := (Bitswap W).

Lemma has_queries_app (a b : list Event) :
  has_queries (a ++ b) = has_queries a ++ has_queries b.
Proof. apply omap_app. Qed.

Lemma has_queries_none (evs : list Event) :
  Forall (λ ev, ¬ is_has ev) evs → has_queries evs = [].
Proof.
  induction 1 as [|ev evs Hev _ IH]; [done|].
  destruct ev; try exact IH. by destruct Hev.
Qed.

Lemma has_queries_logs (logs : list Event) :
  Forall is_log logs → has_queries logs = [].
Proof.
  intros Hl. apply has_queries_none.
  eapply Forall_impl; [exact Hl|]. intros []; simpl; tauto.
Qed.

Lemma has_queries_enqueues (evs : list Event) :
  Forall is_enqueue evs → has_queries evs = [].
Proof.
  intros Hl. apply has_queries_none.
  eapply Forall_impl; [exact Hl|]. intros []; simpl; tauto.
Qed.

Lemma has_queries_failed_puts (block : Block) (interval : N) (errs : list Error) :
  has_queries (failed_puts block interval errs) = [].
Proof. induction errs as [|e errs IH]; [done|]. simpl. apply IH. Qed.

(** Failed attempts followed by one more attempt start with an attempt. *)
Lemma failed_puts_then_put (block : Block) (interval : N) (errs : list Error)
    (r : option Error) (tail : list Event) :
  ∃ p rest,
    failed_puts block interval errs ++ EvBlockstorePut block r :: tail =
    EvBlockstorePut block p :: rest ∧
    has_queries rest = has_queries tail.
Proof.
  destruct errs as [|e errs].
  - by exists r, tail.
  - exists (Some e),
      (EvTimeout interval :: failed_puts block interval errs ++
       EvBlockstorePut block r :: tail).
    split; [reflexivity|].
    change (has_queries (failed_puts block interval errs ++
                         EvBlockstorePut block r :: tail) = has_queries tail).
    by rewrite has_queries_app, has_queries_failed_puts.
Qed.

(** What [hasBlock] adds to the trace starts with an attempt to put the
    block, and asks the blockstore for no key. *)
Lemma hasBlock_result_events (block : Block) (st : State) :
  ∃ p rest,
    trace (hasBlock_result toB58String block st).2 =
    trace st ++
    EvLog DebugLog "trying to put block %s" [ArgBuffer (data block)] ::
    EvBlockstorePut block p :: rest ∧
    has_queries rest = [].
Proof.
  destruct (hasBlock_result_trace toB58String block st)
    as [(errs & logs & _ & Hlogs & _ & Ht)|(errs & e & _ & _ & Ht)];
    rewrite Ht; clear Ht.
  - destruct (failed_puts_then_put block 400 errs None
                ([EvLog DebugLog "put block: %s" [ArgString (toB58String (key block))];
                  EvEmit (blockEvent (toB58String (key block))) (Some block)] ++
                 logs ++ [EvEngineReceivedBlock block]))
      as (p & rest & Heq & Hq).
    exists p, rest. split; [by rewrite <-Heq|].
    rewrite Hq.
    change (has_queries (logs ++ [EvEngineReceivedBlock block]) = []).
    by rewrite has_queries_app, (has_queries_logs _ Hlogs).
  - destruct (failed_puts_then_put block 400 errs (Some e)
                [EvLog ErrorLog "Error writing block to blockstore: %s"
                   [ArgString (message e)]])
      as (p & rest & Heq & Hq).
    exists p, rest. split; [by rewrite <-Heq|]. by rewrite Hq.
Qed.

(** One block of an inbound message: the blockstore is asked once,
    the block is counted, it is counted as a duplicate when the blockstore
    has it, and whatever the answer, the block goes to [hasBlock], which
    tries to put it. *)
Lemma receive_block_result_spec (peerId : PeerId) (block : Block) (st : State) :
  ∃ logs p rest,
    trace (receive_block_result toB58String peerId block st) =
    trace st ++
    EvBlockstoreHas (key block) (blockstore_has (key block) (collaborators st)).1 ::
    logs ++ EvBlockstorePut block p :: rest ∧
    Forall is_log logs ∧
    has_queries rest = [] ∧
    wm (receive_block_result toB58String peerId block st) = wm st ∧
    blocksRecvd (receive_block_result toB58String peerId block st) =
    blocksRecvd st + 1 ∧
    dupBlocksRecvd (receive_block_result toB58String peerId block st) =
    dupBlocksRecvd st +
    (if present (blockstore_has (key block) (collaborators st)).1 then 1 else 0) ∧
    dupDataRecvd (receive_block_result toB58String peerId block st) =
    dupDataRecvd st +
    (if present (blockstore_has (key block) (collaborators st)).1
     then buffer_length (data block) else 0).
Proof.
  unfold receive_block_result, updateReceiveCounters_result, has_result.
  simpl.
  destruct (blockstore_has (key block) (collaborators st)) as [[err|[|]] w]; simpl.
  - match goal with |- context [hasBlock_result _ _ ?s] =>
      destruct (hasBlock_result_events block s) as (p & rest & Ht & Hq);
      destruct (hasBlock_result_keeps toB58String block s) as (Hwm & Hb & Hd & Hdd);
      destruct (hasBlock_result toB58String block s) as [[e|] st2]
    end; simpl in *;
      (eexists [_; _], p, _; rewrite Ht, Hwm, Hb, Hd, Hdd;
       split; [by rewrite <-!app_assoc|];
       split; [by repeat constructor|];
       split; [first [exact Hq | by rewrite has_queries_app, Hq]|];
       repeat split; lia).
  - match goal with |- context [hasBlock_result _ _ ?s] =>
      destruct (hasBlock_result_events block s) as (p & rest & Ht & Hq);
      destruct (hasBlock_result_keeps toB58String block s) as (Hwm & Hb & Hd & Hdd);
      destruct (hasBlock_result toB58String block s) as [[e|] st2]
    end; simpl in *;
      (eexists [_], p, _; rewrite Ht, Hwm, Hb, Hd, Hdd;
       split; [by rewrite <-!app_assoc|];
       split; [by repeat constructor|];
       split; [first [exact Hq | by rewrite has_queries_app, Hq]|];
       repeat split; lia).
  - match goal with |- context [hasBlock_result _ _ ?s] =>
      destruct (hasBlock_result_events block s) as (p & rest & Ht & Hq);
      destruct (hasBlock_result_keeps toB58String block s) as (Hwm & Hb & Hd & Hdd);
      destruct (hasBlock_result toB58String block s) as [[e|] st2]
    end; simpl in *;
      (eexists [_; _], p, _; rewrite Ht, Hwm, Hb, Hd, Hdd;
       split; [by rewrite <-!app_assoc|];
       split; [by repeat constructor|];
       split; [first [exact Hq | by rewrite has_queries_app, Hq]|];
       repeat split; lia).
Qed.

Lemma wanted_keys_spec (peerId : PeerId) (blocks : list Block) (keys : list Key)
    (st : State) :
  (wanted_keys toB58String peerId blocks keys st).1 =
  keys ++ (key <$> filter (λ b, wanted toB58String (wl (wm st)) b = true) blocks) ∧
  but_trace (wanted_keys toB58String peerId blocks keys st).2 = but_trace st ∧
  trace (wanted_keys toB58String peerId blocks keys st).2 =
  trace st ++
  (unasked_log toB58String peerId <$>
   filter (λ b, wanted toB58String (wl (wm st)) b = false) blocks).
Proof.
  revert keys st; induction blocks as [|b blocks IH]; intros keys st.
  - simpl. by rewrite !app_nil_r.
  - cbn [wanted_keys].
    destruct (WantList.contains (toB58String (key b)) (wl (wm st))) eqn:Hc;
      cbn [negb].
    + destruct (IH (keys ++ [key b]) st) as (Hk & Hb & Ht).
      rewrite Hk, Hb, Ht.
      rewrite (filter_cons_True (λ b, wanted _ _ b = true)) by done.
      rewrite (filter_cons_False (λ b, wanted _ _ b = false))
        by (unfold wanted; congruence).
      by rewrite <-app_assoc.
    + match goal with |- context [wanted_keys _ _ _ _ ?s] =>
        destruct (IH keys s) as (Hk & Hb & Ht) end.
      rewrite Hk, Hb, Ht.
      rewrite (filter_cons_False (λ b, wanted _ _ b = true))
        by (unfold wanted; congruence).
      rewrite (filter_cons_True (λ b, wanted _ _ b = false)) by done.
      simpl. by rewrite <-app_assoc.
Qed.

Lemma broadcast_spec (entries : list WantEntry) (st : State) :
  but_trace (broadcast entries st) = but_trace st ∧
  ∃ enq,
    trace (broadcast entries st) = trace st ++ enq ∧
    Forall (λ ev, ∃ p, ev = EvWmEnqueue p entries) enq.
Proof.
  unfold broadcast. destruct entries as [|e entries].
  - split; [done|]. exists []. by rewrite app_nil_r.
  - generalize (e :: entries); intros es.
    generalize (wm_peers (wm st)); intros ps.
    revert st; induction ps as [|p ps IH]; intros st; simpl.
    + split; [done|]. exists []. by rewrite app_nil_r.
    + destruct (IH (record (EvWmEnqueue p es) st)) as (Hb & enq & Ht & Hall).
      split; [by rewrite Hb|].
      exists (EvWmEnqueue p es :: enq). split.
      * rewrite Ht. simpl. by rewrite <-app_assoc.
      * constructor; [by eexists|done].
Qed.

Lemma drop_keys_cancels rm (keys : list Key) (l : WantList.t) :
  Forall (λ e, entry_cancel e = true) (drop_keys toB58String rm keys l).2.
Proof.
  unfold drop_keys.
  assert (∀ acc : WantList.t * list WantEntry,
            Forall (λ e, entry_cancel e = true) acc.2 →
            Forall (λ e, entry_cancel e = true)
              (foldl (λ acc k,
                        let '(l', e) := rm (toB58String k) acc.1 in
                        (l', acc.2 ++ match e with
                                      | Some e => [as_cancel e]
                                      | None => []
                                      end)) acc keys).2) as Hgen.
  { induction keys as [|k keys IH]; intros acc Hacc; [done|].
    simpl. apply IH.
    destruct (rm (toB58String k) acc.1) as [l' [e|]]; simpl.
    - apply Forall_app. split; [done|]. by repeat constructor.
    - by rewrite app_nil_r. }
  by apply Hgen.
Qed.

(** [wm.cancelWants(keys)] is one call of the want manager, followed by
    the cancels it hands to the peers' queues. *)
Lemma wm_cancelWants_spec (keys : list Key) (st : State) :
  collaborators (wm_cancelWants toB58String keys st) = collaborators st ∧
  blocksRecvd (wm_cancelWants toB58String keys st) = blocksRecvd st ∧
  dupBlocksRecvd (wm_cancelWants toB58String keys st) = dupBlocksRecvd st ∧
  dupDataRecvd (wm_cancelWants toB58String keys st) = dupDataRecvd st ∧
  notifications (wm_cancelWants toB58String keys st) = notifications st ∧
  streams (wm_cancelWants toB58String keys st) = streams st ∧
  next_listener (wm_cancelWants toB58String keys st) = next_listener st ∧
  ∃ enq,
    trace (wm_cancelWants toB58String keys st) =
    trace st ++ EvWmCancelWants keys :: enq ∧
    Forall is_cancel_delta enq.
Proof.
  unfold wm_cancelWants.
  pose proof (drop_keys_cancels WantList.remove keys
                (wl (wm (record (EvWmCancelWants keys) st)))) as Hc.
  destruct (drop_keys _ _ _ _) as [l dropped]; simpl in Hc.
  match goal with |- context [broadcast dropped ?s] =>
    destruct (broadcast_spec dropped s) as (Hb & enq & Ht & Hall) end.
  unfold but_trace, inside in Hb; simpl in *.
  simplify_eq. do 7 (split; [congruence|]).
  exists enq. split.
  - rewrite Ht. simpl. by rewrite <-app_assoc.
  - eapply Forall_impl; [exact Hall|]. by intros ev [p ->].
Qed.

Lemma duplicates_cons (b : Block) (bs : list Block) (r : Error + bool)
    (rs : list (Error + bool)) :
  duplicates (b :: bs) (r :: rs) =
  if present r then b :: duplicates bs rs else duplicates bs rs.
Proof.
  unfold duplicates. simpl zip.
  destruct (present r) eqn:Hr.
  - by rewrite filter_cons_True by done.
  - by rewrite filter_cons_False by (simpl; congruence).
Qed.



(** The blocks of a message, one after the other. *)
Lemma receive_blocks_spec (peerId : PeerId) (blocks : list Block) (st : State) :
  ∃ evs answers,
    trace (foldl (λ st block, receive_block_result toB58String peerId block st)
             st blocks) = trace st ++ evs ∧
    has_queries evs = zip (key <$> blocks) answers ∧
    length answers = length blocks ∧
    (∀ b, b ∈ blocks → ∃ p, EvBlockstorePut b p ∈ evs) ∧
    blocksRecvd (foldl (λ st block, receive_block_result toB58String peerId block st)
                   st blocks) =
    blocksRecvd st + N.of_nat (length blocks) ∧
    dupBlocksRecvd (foldl (λ st block, receive_block_result toB58String peerId block st)
                      st blocks) =
    dupBlocksRecvd st + N.of_nat (length (duplicates blocks answers)) ∧
    dupDataRecvd (foldl (λ st block, receive_block_result toB58String peerId block st)
                    st blocks) =
    dupDataRecvd st + data_length (duplicates blocks answers).
Proof.
  revert st; induction blocks as [|b blocks IH]; intros st.
  - exists [], []. simpl. rewrite app_nil_r, !N.add_0_r.
    repeat split; try done. intros b Hb. by apply elem_of_nil in Hb.
  - cbn [foldl].
    destruct (receive_block_result_spec peerId b st)
      as (logs & p & rest & Ht & Hlogs & Hq & _ & Hb & Hd & Hdd).
    destruct (IH (receive_block_result toB58String peerId b st))
      as (evs & answers & Ht' & Hq' & Hlen & Hputs & Hb' & Hd' & Hdd').
    exists (EvBlockstoreHas (key b) (blockstore_has (key b) (collaborators st)).1 ::
            logs ++ EvBlockstorePut b p :: rest ++ evs),
      ((blockstore_has (key b) (collaborators st)).1 :: answers).
    split; [|split; [|split; [|split; [|split; [|split]]]]].
    + rewrite Ht', Ht. rewrite <-?app_assoc. simpl. by rewrite <-?app_assoc.
    + change (has_queries (EvBlockstoreHas ?k ?r :: ?l)) with ((k, r) :: has_queries l).
      rewrite has_queries_app, (has_queries_logs _ Hlogs).
      change (has_queries (EvBlockstorePut ?k ?r :: ?l)) with (has_queries l).
      by rewrite has_queries_app, Hq, Hq'.
    + simpl. by rewrite Hlen.
    + intros b' [->|Hin]%elem_of_cons.
      * exists p. apply elem_of_cons; right.
        apply elem_of_app; right. apply elem_of_cons; by left.
      * destruct (Hputs b' Hin) as [p' Hp']. exists p'.
        apply elem_of_cons; right. apply elem_of_app; right.
        apply elem_of_cons; right. apply elem_of_app; by right.
    + rewrite Hb', Hb. simpl length. lia.
    + rewrite Hd', Hd, duplicates_cons.
      destruct (present _); simpl length; lia.
    + rewrite Hdd', Hdd, duplicates_cons.
      destruct (present _); simpl; lia.
Qed.

(** One message. *)
Lemma receiveMessage_result_spec (peerId : PeerId) (incoming : Message) (st : State) :
  ∃ evs answers,
    trace (receiveMessage_result toB58String peerId incoming st) = trace st ++ evs ∧
    has_queries evs = zip (key <$> msg_blocks incoming) answers ∧
    length answers = length (msg_blocks incoming) ∧
    blocksRecvd (receiveMessage_result toB58String peerId incoming st) =
    blocksRecvd st + N.of_nat (length (msg_blocks incoming)) ∧
    dupBlocksRecvd (receiveMessage_result toB58String peerId incoming st) =
    dupBlocksRecvd st + N.of_nat (length (duplicates (msg_blocks incoming) answers)) ∧
    dupDataRecvd (receiveMessage_result toB58String peerId incoming st) =
    dupDataRecvd st + data_length (duplicates (msg_blocks incoming) answers).
Proof.
  unfold receiveMessage_result.
  destruct (engine_messageReceived peerId incoming _) as [err w].
  set (st1 := match err with
              | Some _ => log DebugLog "failed to receive message" [ArgMessage incoming] _
              | None => _
              end).
  assert (∃ logs, trace st1 = trace st ++ logs ∧ has_queries logs = [] ∧
                  blocksRecvd st1 = blocksRecvd st ∧
                  dupBlocksRecvd st1 = dupBlocksRecvd st ∧
                  dupDataRecvd st1 = dupDataRecvd st) as (logs & Ht1 & Hq1 & Hb1 & Hd1 & Hdd1).
  { subst st1. destruct err; simpl; eexists; (split; [by rewrite <-!app_assoc|done]). }
  clearbody st1.
  case_bool_decide as Hempty.
  - apply length_zero_iff_nil in Hempty. rewrite Hempty.
    exists logs, []. simpl. rewrite !N.add_0_r. done.
  - destruct (wanted_keys_spec peerId (msg_blocks incoming) [] st1) as (_ & Hbt & Htw).
    destruct (wanted_keys _ _ _ _ _) as [keys st2]; simpl in Hbt, Htw.
    destruct (wm_cancelWants_spec keys st2)
      as (_ & Hb3 & Hd3 & Hdd3 & _ & _ & _ & enq & Ht3 & Henq).
    destruct (receive_blocks_spec peerId (msg_blocks incoming)
                (wm_cancelWants toB58String keys st2))
      as (evs & answers & Ht4 & Hq4 & Hlen & _ & Hb4 & Hd4 & Hdd4).
    unfold but_trace, inside in Hbt. simplify_eq.
    exists (logs ++
            (unasked_log toB58String peerId <$>
             filter (λ b, wanted toB58String (wl (wm st1)) b = false)
               (msg_blocks incoming)) ++
            EvWmCancelWants keys :: enq ++ evs), answers.
    split; [|split; [|split; [|split; [|split]]]].
    + rewrite Ht4, Ht3, Htw, Ht1. rewrite <-?app_assoc. simpl.
      by rewrite <-?app_assoc.
    + rewrite !has_queries_app, Hq1.
      rewrite (has_queries_logs (unasked_log _ _ <$> _))
        by (apply Forall_fmap, Forall_true; by intros ?).
      change (has_queries (EvWmCancelWants ?k :: ?l)) with (has_queries l).
      rewrite has_queries_app, Hq4.
      rewrite has_queries_none; [done|].
      eapply Forall_impl; [exact Henq|]. intros []; simpl; tauto.
    + done.
    + rewrite Hb4, Hb3. congruence.
    + rewrite Hd4, Hd3. congruence.
    + rewrite Hdd4, Hdd3. congruence.
Qed.








(** What [hasBlock] leaves of a block handed to it by [_receiveMessage]:
    the attempt to put it, and the counters as they were. *)
Lemma hasBlock_in_receive (block : Block) (st : State) :
  ∃ p rest,
    trace (hasBlock_result toB58String block st).2 =
    trace st ++
    EvLog DebugLog "trying to put block %s" [ArgBuffer (data block)] ::
    EvBlockstorePut block p :: rest ∧
    blocksRecvd (hasBlock_result toB58String block st).2 = blocksRecvd st ∧
    dupBlocksRecvd (hasBlock_result toB58String block st).2 = dupBlocksRecvd st ∧
    dupDataRecvd (hasBlock_result toB58String block st).2 = dupDataRecvd st.
Proof.
  destruct (hasBlock_result_events block st) as (p & rest & Ht & _).
  destruct (hasBlock_result_keeps toB58String block st) as (_ & Hb & Hd & Hdd).
  by exists p, rest.
Qed.

(** C1. A block of an inbound message that the blockstore already has is
    counted as a duplicate: [dupBlocksRecvd] grows by one and
    [dupDataRecvd] by the length of its data.  The put,
    however, is not skipped: the error [_updateReceiveCounters] reports is
    dropped, and the block goes to [hasBlock], which tries to put it. *)
Theorem duplicate_block_is_put_again (peerId : PeerId) (block : Block)
    (st : State) (w : W) :
  blockstore_has (key block) (collaborators st) = (inr true, w) →
  ∃ st' p rest,
    (∀ next, receive_block toB58String peerId block next st = next None st') ∧
    blocksRecvd st' = blocksRecvd st + 1 ∧
    dupBlocksRecvd st' = dupBlocksRecvd st + 1 ∧
    dupDataRecvd st' = dupDataRecvd st + buffer_length (data block) ∧
    trace st' =
    trace st ++
    [EvBlockstoreHas (key block) (inr true);
     EvLog DebugLog "trying to put block %s" [ArgBuffer (data block)];
     EvBlockstorePut block p] ++ rest.
Proof.
  intros Hhas.
  assert (∃ p rest,
            blocksRecvd (receive_block_result toB58String peerId block st) =
            blocksRecvd st + 1 ∧
            dupBlocksRecvd (receive_block_result toB58String peerId block st) =
            dupBlocksRecvd st + 1 ∧
            dupDataRecvd (receive_block_result toB58String peerId block st) =
            dupDataRecvd st + buffer_length (data block) ∧
            trace (receive_block_result toB58String peerId block st) =
            trace st ++
            [EvBlockstoreHas (key block) (inr true);
             EvLog DebugLog "trying to put block %s" [ArgBuffer (data block)];
             EvBlockstorePut block p] ++ rest) as (p & rest & Hres).
  { unfold receive_block_result, updateReceiveCounters_result, has_result.
    simpl. rewrite Hhas. simpl.
    match goal with |- context [hasBlock_result _ _ ?s] =>
      destruct (hasBlock_in_receive block s) as (p & rest & Ht & Hb & Hd & Hdd);
      destruct (hasBlock_result toB58String block s) as [[e|] st2]
    end; simpl in *.
    - exists p, (rest ++ [EvLog ErrorLog "receiveMessage hasBlock error: %s"
                            [ArgString (message e)]]).
      rewrite Ht, Hb, Hd, Hdd. repeat split.
      rewrite <-?app_assoc. simpl. by rewrite <-?app_assoc.
    - exists p, rest.
      rewrite Ht, Hb, Hd, Hdd. repeat split.
      rewrite <-?app_assoc. simpl. by rewrite <-?app_assoc. }
  exists (receive_block_result toB58String peerId block st), p, rest.
  split; [|exact Hres].
  intros next. apply receive_block_calls_back.
Qed.

(** C9. When [blockstore.has] fails for a block of an inbound message,
    the block has been counted in [blocksRecvd], the duplicate counters
    are as they were, the block still goes to [hasBlock], which tries to
    put it, and [eachLimit] goes on with the blocks that remain. *)
Theorem has_error_does_not_abort (peerId : PeerId) (block : Block)
    (remaining : list Block) (cb : Callback W) (st : State) (err : Error) (w : W) :
  blockstore_has (key block) (collaborators st) = (inl err, w) →
  ∃ st' p rest,
    eachLimit (block :: remaining) 10 (receive_block toB58String peerId) cb st =
    eachLimit remaining 10 (receive_block toB58String peerId) cb st' ∧
    blocksRecvd st' = blocksRecvd st + 1 ∧
    dupBlocksRecvd st' = dupBlocksRecvd st ∧
    dupDataRecvd st' = dupDataRecvd st ∧
    trace st' =
    trace st ++
    [EvBlockstoreHas (key block) (inl err);
     EvLog DebugLog "blockstore.has error: %s" [ArgString (message err)];
     EvLog DebugLog "trying to put block %s" [ArgBuffer (data block)];
     EvBlockstorePut block p] ++ rest.
Proof.
  intros Hhas.
  exists (receive_block_result toB58String peerId block st).
  cbn [eachLimit]. rewrite receive_block_calls_back.
  unfold receive_block_result, updateReceiveCounters_result, has_result.
  simpl. rewrite Hhas. simpl.
  match goal with |- context [hasBlock_result _ _ ?s] =>
    destruct (hasBlock_in_receive block s) as (p & rest & Ht & Hb & Hd & Hdd);
    destruct (hasBlock_result toB58String block s) as [[e|] st2]
  end; simpl in *.
  - exists p, (rest ++ [EvLog ErrorLog "receiveMessage hasBlock error: %s"
                          [ArgString (message e)]]).
    rewrite Ht, Hb, Hd, Hdd. repeat split.
    rewrite <-?app_assoc. simpl. by rewrite <-?app_assoc.
  - exists p, rest.
    rewrite Ht, Hb, Hd, Hdd. repeat split.
    rewrite <-?app_assoc. simpl. by rewrite <-?app_assoc.
Qed.

(** C7. In [_receiveMessage], the keys handed to [wm.cancelWants] are
    the keys of the blocks of the message that the local want-list
    contains, in the order of the blocks; for each other block one
    "received un-askes-for" line is logged and nothing else is done.  The
    call of [wm.cancelWants], with the cancels it hands to the peers, comes
    before every put of a block of the message. *)
Theorem cancels_before_blocks_are_stored (peerId : PeerId) (incoming : Message)
    (cb : JsCallback W) (st : State) :
  msg_blocks incoming ≠ [] →
  ∃ st' err enq post,
    _receiveMessage toB58String peerId incoming cb st = call (or_noop cb) None st' ∧
    trace st' =
    trace st ++
    (EvLog DebugLog "receiving message from %s" [ArgString (peer_toB58String peerId)] ::
     EvEngineMessageReceived peerId incoming err ::
     match err with
     | Some _ => [EvLog DebugLog "failed to receive message" [ArgMessage incoming]]
     | None => []
     end) ++
    (unasked_log toB58String peerId <$>
     filter (λ b, wanted toB58String (wl (wm st)) b = false) (msg_blocks incoming)) ++
    EvWmCancelWants
      (key <$> filter (λ b, wanted toB58String (wl (wm st)) b = true)
                 (msg_blocks incoming)) ::
    enq ++ post ∧
    Forall is_cancel_delta enq ∧
    (∀ b, b ∈ msg_blocks incoming → ∃ p, EvBlockstorePut b p ∈ post).
Proof.
  intros Hne. rewrite receiveMessage_calls_back.
  exists (receiveMessage_result toB58String peerId incoming st).
  unfold receiveMessage_result.
  destruct (engine_messageReceived peerId incoming _) as [err w].
  exists err.
  set (st1 := match err with
              | Some _ => log DebugLog "failed to receive message" [ArgMessage incoming] _
              | None => _
              end).
  assert (trace st1 =
          trace st ++
          EvLog DebugLog "receiving message from %s"
            [ArgString (peer_toB58String peerId)] ::
          EvEngineMessageReceived peerId incoming err ::
          match err with
          | Some _ => [EvLog DebugLog "failed to receive message" [ArgMessage incoming]]
          | None => []
          end ∧ wm st1 = wm st) as [Ht1 Hwm1].
  { subst st1. destruct err; simpl; by rewrite <-?app_assoc. }
  clearbody st1.
  case_bool_decide as Hempty.
  { by apply length_zero_iff_nil in Hempty. }
  destruct (wanted_keys_spec peerId (msg_blocks incoming) [] st1) as (Hk & Hbt & Htw).
  destruct (wanted_keys _ _ _ _ _) as [keys st2]; simpl in Hk, Hbt, Htw.
  destruct (wm_cancelWants_spec keys st2) as (_ & _ & _ & _ & _ & _ & _ & enq & Ht3 & Henq).
  destruct (receive_blocks_spec peerId (msg_blocks incoming)
              (wm_cancelWants toB58String keys st2))
    as (evs & answers & Ht4 & _ & _ & Hputs & _).
  exists enq, evs. split; [done|]. split; [|done].
  rewrite Ht4, Ht3, Htw, Ht1, Hk, Hwm1.
  rewrite <-?app_assoc. simpl. by rewrite <-?app_assoc.
Qed.

(** C10. With no callback, [_receiveMessage] and [hasBlock] call the
    no-op they put in its place: both return, and do what they do with a
    callback that does nothing. *)
Theorem missing_callback_is_noop (peerId : PeerId) (incoming : Message)
    (block : Block) (st : State) :
  _receiveMessage toB58String peerId incoming None st =
  Returned (receiveMessage_result toB58String peerId incoming st) ∧
  _receiveMessage toB58String peerId incoming None st =
  _receiveMessage toB58String peerId incoming (Some (λ _ st', Returned st')) st ∧
  hasBlock toB58String block None st =
  Returned (hasBlock_result toB58String block st).2 ∧
  hasBlock toB58String block None st =
  hasBlock toB58String block (Some (λ _ st', Returned st')) st.
Proof.
  rewrite !receiveMessage_calls_back, !hasBlock_calls_back. done.
Qed.

End Receiving.

(** ** The get streams and their listeners *)

Section Streams.

Context {W : Type} `{Collaborators W}.
Variable toB58String : Key → string.

Local Abbreviation State := (Bitswap W).

Lemma streams_removeListener event l (st : State) :
  streams (removeListener event l st) = streams st.
Proof. unfold removeListener. by repeat case_match. Qed.

Lemma next_listener_removeListener event l (st : State) :
  next_listener (removeListener event l st) = next_listener st.
Proof. unfold removeListener. by repeat case_match. Qed.

Lemma the_stream_update_eq sid f (st : State) :
  (sid < length (streams st))%nat →
  the_stream sid (update_stream sid f st) = f (the_stream sid st).
Proof.
  intros Hlt. unfold the_stream, update_stream. simpl.
  rewrite list_lookup_alter_eq.
  destruct (lookup_lt_is_Some_2 _ _ Hlt) as [s ->]. done.
Qed.

Lemma the_stream_update_ne sid sid' f (st : State) :
  sid ≠ sid' →
  the_stream sid' (update_stream sid f st) = the_stream sid' st.
Proof.
  intros Hne. unfold the_stream, update_stream. simpl.
  by rewrite list_lookup_alter_ne.
Qed.

Lemma length_update_stream sid f (st : State) :
  length (streams (update_stream sid f st)) = length (streams st).
Proof. unfold update_stream. simpl. apply length_alter. Qed.

Lemma the_stream_removeListener sid event l (st : State) :
  the_stream sid (removeListener event l st) = the_stream sid st.
Proof. unfold the_stream. by rewrite streams_removeListener. Qed.

Lemma the_stream_finish sid (st : State) :
  (sid < length (streams st))%nat →
  the_stream sid (finish sid st) =
  mkGetStream (unwantListeners (the_stream sid st)) (blockListeners (the_stream sid st))
    (finished (the_stream sid st))
    (if finished (the_stream sid st) &&
        bool_decide (size (blockListeners (the_stream sid st)) = 0%nat)
     then Some (default None (pusher_ended (the_stream sid st)))
     else pusher_ended (the_stream sid st))
    (emitted (the_stream sid st)).
Proof.
  intros Hlt. unfold finish.
  destruct (finished (the_stream sid st) && _) eqn:Hf.
  - unfold pusher_end. rewrite the_stream_update_eq by done.
    by destruct (the_stream sid st) as [? ? ? [e|] ?].
  - by destruct (the_stream sid st).
Qed.

Lemma the_stream_finish_ne sid sid' (st : State) :
  sid ≠ sid' → the_stream sid' (finish sid st) = the_stream sid' st.
Proof.
  intros Hne. unfold finish. case_match; [|done].
  unfold pusher_end. by rewrite the_stream_update_ne.
Qed.

Lemma length_streams_finish sid (st : State) :
  length (streams (finish sid st)) = length (streams st).
Proof.
  unfold finish. case_match; [|done]. apply length_update_stream.
Qed.

(** What [cleanupListener] does to the stream it belongs to. *)
Lemma the_stream_cleanupListener sid k (st : State) :
  (sid < length (streams st))%nat →
  the_stream sid (cleanupListener toB58String sid k st) =
  cleaned (toB58String k) (the_stream sid st).
Proof.
  intros Hlt. unfold cleanupListener.
  set (keyS := toB58String k).
  set (st1 := match unwantListeners (the_stream sid st) !! keyS with
              | Some l => update_stream sid _ (removeListener _ l st)
              | None => st
              end).
  assert ((sid < length (streams st1))%nat ∧
          the_stream sid st1 =
          mkGetStream (delete keyS (unwantListeners (the_stream sid st)))
            (blockListeners (the_stream sid st)) (finished (the_stream sid st))
            (pusher_ended (the_stream sid st)) (emitted (the_stream sid st)))
    as [Hlt1 Hs1].
  { subst st1. destruct (unwantListeners (the_stream sid st) !! keyS) eqn:Hl.
    - rewrite length_update_stream, streams_removeListener. split; [done|].
      rewrite the_stream_update_eq by (by rewrite streams_removeListener).
      by rewrite the_stream_removeListener.
    - split; [done|]. rewrite delete_id by done. by destruct (the_stream sid st). }
  clearbody st1.
  set (st2 := match blockListeners (the_stream sid st1) !! keyS with
              | Some l => update_stream sid _ (removeListener _ l st1)
              | None => st1
              end).
  assert ((sid < length (streams st2))%nat ∧
          the_stream sid st2 =
          mkGetStream (delete keyS (unwantListeners (the_stream sid st)))
            (delete keyS (blockListeners (the_stream sid st)))
            (finished (the_stream sid st))
            (pusher_ended (the_stream sid st)) (emitted (the_stream sid st)))
    as [Hlt2 Hs2].
  { subst st2. destruct (blockListeners (the_stream sid st1) !! keyS) eqn:Hl.
    - rewrite length_update_stream, streams_removeListener. split; [done|].
      rewrite the_stream_update_eq by (by rewrite streams_removeListener).
      by rewrite the_stream_removeListener, Hs1.
    - split; [done|]. rewrite Hs1 in Hl |- *. simpl in Hl.
      by rewrite (delete_id (blockListeners _)) by done. }
  clearbody st2.
  rewrite the_stream_finish by done. by rewrite Hs2.
Qed.

Lemma the_stream_cleanupListener_ne sid sid' k (st : State) :
  sid ≠ sid' →
  the_stream sid' (cleanupListener toB58String sid k st) = the_stream sid' st.
Proof.
  intros Hne. unfold cleanupListener.
  rewrite the_stream_finish_ne by done.
  repeat case_match;
    rewrite ?the_stream_update_ne, ?the_stream_removeListener by done;
    try done.
  all: by rewrite ?the_stream_update_ne, ?the_stream_removeListener by done.
Qed.

Lemma length_streams_cleanupListener sid k (st : State) :
  length (streams (cleanupListener toB58String sid k st)) = length (streams st).
Proof.
  unfold cleanupListener. rewrite length_streams_finish.
  repeat case_match;
    rewrite ?length_update_stream, ?streams_removeListener; try done.
  all: by rewrite ?length_update_stream, ?streams_removeListener.
Qed.

(** A block pushed into an open stream is read from its source, once,
    after [cleanupListener] has run for its key. *)
Lemma the_stream_pusher_push sid block (st : State) :
  (sid < length (streams st))%nat →
  pusher_ended (the_stream sid st) = None →
  the_stream sid (pusher_push toB58String sid block st) =
  mkGetStream
    (unwantListeners (cleaned (toB58String (key block)) (the_stream sid st)))
    (blockListeners (cleaned (toB58String (key block)) (the_stream sid st)))
    (finished (the_stream sid st))
    (pusher_ended (cleaned (toB58String (key block)) (the_stream sid st)))
    (emitted (the_stream sid st) ++ [block]).
Proof.
  intros Hlt Hopen. unfold pusher_push. rewrite Hopen.
  rewrite the_stream_update_eq by (by rewrite length_streams_cleanupListener).
  by rewrite the_stream_cleanupListener.
Qed.

Lemma the_stream_pusher_push_ne sid sid' block (st : State) :
  sid ≠ sid' →
  the_stream sid' (pusher_push toB58String sid block st) = the_stream sid' st.
Proof.
  intros Hne. unfold pusher_push. case_match; [done|].
  by rewrite the_stream_update_ne, the_stream_cleanupListener_ne.
Qed.

Lemma length_streams_pusher_push sid block (st : State) :
  length (streams (pusher_push toB58String sid block st)) = length (streams st).
Proof.
  unfold pusher_push. case_match; [done|].
  by rewrite length_update_stream, length_streams_cleanupListener.
Qed.

Lemma remove_first_subseteq id (ls : list Listener) : remove_first id ls ⊆ ls.
Proof.
  induction ls as [|l ls IH]; simpl; [done|].
  case_bool_decide.
  - intros x Hx. by apply elem_of_cons; right.
  - intros x [->|Hx]%elem_of_cons; apply elem_of_cons; [by left|right; by apply IH].
Qed.

Lemma remove_last_subseteq id (ls : list Listener) : remove_last id ls ⊆ ls.
Proof.
  unfold remove_last. intros x Hx. rewrite elem_of_reverse in Hx.
  apply remove_first_subseteq in Hx. by rewrite elem_of_reverse in Hx.
Qed.

(** [removeListener] registers nothing. *)
Lemma listeners_removeListener event' event l (st : State) :
  listeners_of event' (removeListener event l st) ⊆ listeners_of event' st.
Proof.
  unfold removeListener, listeners_of.
  destruct (notifications st !! event) as [ls|] eqn:Hls; [|done].
  pose proof (remove_last_subseteq (listener_id l) ls) as Hsub.
  destruct (remove_last (listener_id l) ls) as [|l' ls'] eqn:Hrm; simpl.
  - destruct (decide (event = event')) as [->|Hne].
    + rewrite lookup_delete_eq. simpl. intros x Hx. by apply elem_of_nil in Hx.
    + by rewrite lookup_delete_ne.
  - destruct (decide (event = event')) as [->|Hne].
    + rewrite lookup_insert_eq, Hls. done.
    + by rewrite lookup_insert_ne.
Qed.

Lemma listeners_update_stream event sid f (st : State) :
  listeners_of event (update_stream sid f st) = listeners_of event st.
Proof. reflexivity. Qed.

Lemma listeners_finish event sid (st : State) :
  listeners_of event (finish sid st) = listeners_of event st.
Proof. unfold finish. by case_match. Qed.

Lemma next_listener_finish sid (st : State) :
  next_listener (finish sid st) = next_listener st.
Proof. unfold finish. by case_match. Qed.

(** [cleanupListener] registers nothing. *)
Lemma listeners_cleanupListener event sid k (st : State) :
  listeners_of event (cleanupListener toB58String sid k st) ⊆ listeners_of event st ∧
  next_listener (cleanupListener toB58String sid k st) = next_listener st.
Proof.
  unfold cleanupListener. rewrite listeners_finish, next_listener_finish.
  set (st1 := match unwantListeners (the_stream sid st) !! _ with
              | Some l => update_stream sid _ (removeListener _ l st)
              | None => st
              end).
  assert (listeners_of event st1 ⊆ listeners_of event st ∧
          next_listener st1 = next_listener st) as [Hs1 Hn1].
  { subst st1. case_match; [|done].
    rewrite listeners_update_stream. split; [apply listeners_removeListener|].
    simpl. apply next_listener_removeListener. }
  clearbody st1. case_match; [|done].
  rewrite listeners_update_stream. split.
  - etrans; [apply listeners_removeListener|done].
  - simpl. by rewrite next_listener_removeListener.
Qed.

(** [pusher.push] registers nothing. *)
Lemma listeners_pusher_push event sid block (st : State) :
  listeners_of event (pusher_push toB58String sid block st) ⊆ listeners_of event st ∧
  next_listener (pusher_push toB58String sid block st) = next_listener st.
Proof.
  unfold pusher_push. case_match; [done|].
  rewrite listeners_update_stream. simpl.
  apply listeners_cleanupListener.
Qed.

Lemma trace_enqueues (entries : list WantEntry) (ps : list PeerId) (st : State) :
  trace (foldl (λ st p, record (EvWmEnqueue p entries) st) st ps) =
  trace st ++ ((λ p, EvWmEnqueue p entries) <$> ps).
Proof.
  revert st. induction ps as [|p ps IH]; intros st; simpl.
  - by rewrite app_nil_r.
  - rewrite IH. simpl. by rewrite <-app_assoc.
Qed.

(** What cancelling one key adds to the trace. *)
Lemma wm_cancelWants_one (k : Key) (st : State) :
  trace (wm_cancelWants toB58String [k] st) =
  trace st ++ EvWmCancelWants [k] :: cancel_deltas toB58String k (wm st).
Proof.
  unfold wm_cancelWants, drop_keys, WantList.remove, cancel_deltas. simpl.
  destruct (wl (wm st) !! toB58String k) as [e|] eqn:Hl; [|done].
  destruct (entry_refcount e <=? 1); simpl.
  - rewrite trace_enqueues. simpl. by rewrite <-app_assoc.
  - done.
Qed.

Lemma cancel_deltas_cancel (k : Key) (m : WantManager) :
  Forall is_cancel_delta (cancel_deltas toB58String k m).
Proof.
  unfold cancel_deltas. destruct (wl m !! toB58String k) as [e|]; [|done].
  destruct (entry_refcount e <=? 1); [|done].
  apply Forall_fmap, Forall_true. intros p. simpl. by repeat constructor.
Qed.

(** C8. A key fed to the sink of [getStream] that the blockstore has is
    read from the blockstore and pushed to the source at once.  No
    listener is registered and [wm.wantBlocks] is not called, so that no
    want goes to the peers.  The want manager hears [cancelWants] for the
    key of the block, and that can reach the peers: when the want-list has
    the key with one reference left, every connected peer is handed its
    cancel; nothing is handed on when the key was not wanted, when it is
    wanted more than once, or when no peer is connected. *)
Theorem local_hit_is_emitted_without_want (sid : nat) (k : Key) (block : Block)
    (st : State) (w1 w2 : W) :
  (sid < length (streams st))%nat →
  pusher_ended (the_stream sid st) = None →
  blockstore_has k (collaborators st) = (inr true, w1) →
  blockstore_getStream k w1 = (inr block, w2) →
  ∃ st',
    sink_key toB58String sid k st = (None, st') ∧
    emitted (the_stream sid st') = emitted (the_stream sid st) ++ [block] ∧
    collaborators st' = w2 ∧
    trace st' =
    trace st ++
    [EvBlockstoreHas k (inr true); EvBlockstoreGet k (inr block);
     EvWmCancelWants [key block]] ++ cancel_deltas toB58String (key block) (wm st) ∧
    Forall is_cancel_delta (cancel_deltas toB58String (key block) (wm st)) ∧
    (WantList.contains (toB58String (key block)) (wl (wm st)) = false →
     cancel_deltas toB58String (key block) (wm st) = []) ∧
    next_listener st' = next_listener st ∧
    (∀ event, listeners_of event st' ⊆ listeners_of event st).
Proof.
  intros Hlt Hopen Hhas Hget.
  unfold sink_key. rewrite Hhas. simpl. rewrite Hget.
  set (st1 := record (EvBlockstoreGet k (inr block)) _).
  destruct (wm_cancelWants_spec toB58String [key block] st1)
    as (Hc & _ & _ & _ & Hn & Hs & Hnl & _).
  pose proof (wm_cancelWants_one (key block) st1) as Ht.
  set (st2 := wm_cancelWants toB58String [key block] st1) in *.
  assert (the_stream sid st2 = the_stream sid st) as Hsame.
  { unfold the_stream. by rewrite Hs. }
  exists (pusher_push toB58String sid block st2).
  split; [done|]. split; [|split; [|split; [|split; [|split; [|split]]]]].
  - rewrite the_stream_pusher_push; [by rewrite Hsame| |by rewrite Hsame].
    by rewrite Hs.
  - pose proof (outside_pusher_push toB58String sid block st2) as Ho.
    apply (f_equal (λ x, x.1.1.1)) in Ho. simpl in Ho. by rewrite Ho, Hc.
  - rewrite (outside_trace _ _ (outside_pusher_push toB58String sid block st2)).
    rewrite Ht. subst st1. simpl. by rewrite <-?app_assoc.
  - apply cancel_deltas_cancel.
  - unfold WantList.contains, cancel_deltas. intros Hc'%bool_decide_eq_false.
    destruct (wl (wm st) !! toB58String (key block)) as [e|]; [|done].
    exfalso. apply Hc'. by eexists.
  - destruct (listeners_pusher_push "" sid block st2) as [_ ->]. done.
  - intros event.
    destruct (listeners_pusher_push event sid block st2) as [Hsub _].
    etrans; [exact Hsub|]. unfold listeners_of. by rewrite Hn.
Qed.

Lemma alter_snoc {A} (f : A → A) (l : list A) (x : A) :
  alter f (length l) (l ++ [x]) = l ++ [f x].
Proof.
  rewrite <-(Nat.add_0_r (length l)). by rewrite alter_app_r.
Qed.

Lemma event_names_differ (a b : string) : unwantEvent a ≠ blockEvent b.
Proof. unfold unwantEvent, blockEvent. simpl. discriminate. Qed.

(** A get of a key that the blockstore lacks: the stream waits with two
    fresh listeners, registered after those already there, and the key
    is wanted once more. *)
Lemma get_one_miss (k : Key) (st : State) (w : W) :
  blockstore_has k (collaborators st) = (inr false, w) →
  (get_one toB58String k st).1 = length (streams st) ∧
  streams (get_one toB58String k st).2 =
  streams st ++
  [waiting_stream (toB58String k)
     (mkListener (next_listener st) (UnwantListener (length (streams st)) k))
     (mkListener (S (next_listener st)) (BlockListener (length (streams st))))] ∧
  notifications (get_one toB58String k st).2 =
  <[blockEvent (toB58String k) :=
      listeners_of (blockEvent (toB58String k)) st ++
      [mkListener (S (next_listener st)) (BlockListener (length (streams st)))]]>
    (<[unwantEvent (toB58String k) :=
         listeners_of (unwantEvent (toB58String k)) st ++
         [mkListener (next_listener st) (UnwantListener (length (streams st)) k)]]>
       (notifications st)) ∧
  next_listener (get_one toB58String k st).2 = S (S (next_listener st)) ∧
  collaborators (get_one toB58String k st).2 = w ∧
  wl (wm (get_one toB58String k st).2) =
  WantList.add (toB58String k) k defaultPriority (wl (wm st)) ∧
  wm_peers (wm (get_one toB58String k st).2) = wm_peers (wm st).
Proof.
  intros Hhas.
  unfold get_one, getStream, sink, sink_keys, sink_key. simpl.
  rewrite Hhas. simpl.
  set (sid := length (streams st)).
  set (keyS := toB58String k).
  set (u := mkListener (next_listener st) (UnwantListener sid k)).
  set (b := mkListener (S (next_listener st)) (BlockListener sid)).
  set (st_a := addListener toB58String sid k _).
  assert (streams st_a =
          streams st ++ [mkGetStream (<[keyS := u]> ∅) (<[keyS := b]> ∅) false None []] ∧
          notifications st_a =
          <[blockEvent keyS := listeners_of (blockEvent keyS) st ++ [b]]>
            (<[unwantEvent keyS := listeners_of (unwantEvent keyS) st ++ [u]]>
               (notifications st)) ∧
          next_listener st_a = S (S (next_listener st)) ∧
          collaborators st_a = w ∧ wm st_a = wm st) as (Hs_a & Hn_a & Hnl_a & Hc_a & Hwm_a).
  { subst st_a. unfold addListener, once, update_stream, listeners_of. simpl.
    split; [exact (alter_snoc _ _ _)|]. split; [|done].
    by rewrite lookup_insert_ne by apply event_names_differ. }
  clearbody st_a.
  set (st_w := wm_wantBlocks toB58String [k] st_a).
  assert (but_trace st_w =
          but_trace (set_wm (mkWantManager
                               (WantList.add keyS k defaultPriority (wl (wm st_a)))
                               (wm_peers (wm st_a))) st_a)) as Hbt.
  { subst st_w. unfold wm_wantBlocks.
    match goal with |- context [broadcast ?es ?s] =>
      destruct (broadcast_spec es s) as [Hb _] end.
    rewrite Hb. reflexivity. }
  clearbody st_w. unfold but_trace, inside in Hbt. simpl in Hbt.
  injection Hbt as Hc_w Hwm_w Hb_w Hd_w Hdd_w Hn_w Hs_w Hnl_w.
  set (st_e := update_stream sid _ st_w).
  assert (streams st_e = streams st ++ [waiting_stream keyS u b]) as Hs_e.
  { subst st_e. unfold update_stream. simpl. rewrite Hs_w, Hs_a.
    exact (alter_snoc _ _ _). }
  assert (finish sid st_e = st_e) as ->.
  { unfold finish, the_stream. rewrite Hs_e.
    rewrite list_lookup_middle by done. simpl.
    rewrite insert_empty, map_size_singleton. done. }
  split; [done|]. split; [done|].
  subst st_e. simpl.
  rewrite Hn_w, Hnl_w, Hc_w, Hwm_w, Hn_a, Hnl_a, Hc_a, Hwm_a. done.
Qed.

Lemma refcount_add (keyS : string) (k : Key) (priority : Z) (l : gmap string WantEntry) :
  WantList.refcount keyS (WantList.add keyS k priority l) =
  WantList.refcount keyS l + 1.
Proof.
  unfold WantList.refcount, WantList.add.
  destruct (l !! keyS) as [e|] eqn:Hl; by rewrite lookup_insert_eq.
Qed.

(** A listener leaves the streams of the other [getStream] calls alone. *)
Lemma call_listener_other (event : string) (payload : option Block) (l : Listener)
    (sid : nat) (st : State) :
  listener_stream l ≠ sid →
  the_stream sid (call_listener toB58String event payload l st) = the_stream sid st ∧
  length (streams (call_listener toB58String event payload l st)) =
  length (streams st).
Proof.
  unfold listener_stream, call_listener.
  destruct (listener_body l) as [sid' k|sid']; intros Hne.
  - rewrite the_stream_cleanupListener_ne by done.
    rewrite length_streams_cleanupListener.
    split; [apply the_stream_removeListener|].
    simpl. by rewrite streams_removeListener.
  - destruct payload as [block|].
    + rewrite the_stream_pusher_push_ne by done.
      rewrite length_streams_pusher_push.
      split; [apply the_stream_removeListener|by rewrite streams_removeListener].
    + split; [apply the_stream_removeListener|by rewrite streams_removeListener].
Qed.

Lemma call_listeners_other (event : string) (payload : option Block)
    (ls : list Listener) (sid : nat) (st : State) :
  Forall (λ l, listener_stream l ≠ sid) ls →
  the_stream sid (foldl (λ st l, call_listener toB58String event payload l st) st ls) =
  the_stream sid st ∧
  length (streams (foldl (λ st l, call_listener toB58String event payload l st) st ls)) =
  length (streams st).
Proof.
  revert st; induction ls as [|l ls IH]; intros st Hall; [done|].
  apply Forall_cons in Hall as [Hl Hall]. cbn [foldl].
  destruct (IH (call_listener toB58String event payload l st) Hall) as [-> ->].
  by apply call_listener_other.
Qed.

(** A block event whose last two listeners are the block listeners of two
    open streams, the listeners before them being of other streams: each
    of the two streams reads the block once. *)
Lemma emit_two_block_listeners (event : string) (block : Block)
    (others : list Listener) (b1 b2 : Listener) (s1 s2 : nat) (st : State) :
  listeners_of event st = others ++ [b1; b2] →
  Forall (λ l, listener_stream l ≠ s1) others →
  Forall (λ l, listener_stream l ≠ s2) others →
  listener_body b1 = BlockListener s1 →
  listener_body b2 = BlockListener s2 →
  s1 ≠ s2 →
  (s1 < length (streams st))%nat →
  (s2 < length (streams st))%nat →
  pusher_ended (the_stream s1 st) = None →
  pusher_ended (the_stream s2 st) = None →
  the_stream s1 (emit toB58String event (Some block) st) =
  mkGetStream
    (unwantListeners (cleaned (toB58String (key block)) (the_stream s1 st)))
    (blockListeners (cleaned (toB58String (key block)) (the_stream s1 st)))
    (finished (the_stream s1 st))
    (pusher_ended (cleaned (toB58String (key block)) (the_stream s1 st)))
    (emitted (the_stream s1 st) ++ [block]) ∧
  the_stream s2 (emit toB58String event (Some block) st) =
  mkGetStream
    (unwantListeners (cleaned (toB58String (key block)) (the_stream s2 st)))
    (blockListeners (cleaned (toB58String (key block)) (the_stream s2 st)))
    (finished (the_stream s2 st))
    (pusher_ended (cleaned (toB58String (key block)) (the_stream s2 st)))
    (emitted (the_stream s2 st) ++ [block]).
Proof.
  intros Hls Hoth1 Hoth2 Hb1 Hb2 Hne Hlt1 Hlt2 Ho1 Ho2.
  unfold emit.
  change (listeners_of event (record (EvEmit event (Some block)) st))
    with (listeners_of event st).
  rewrite Hls, foldl_app.
  destruct (call_listeners_other event (Some block) others s1
              (record (EvEmit event (Some block)) st) Hoth1) as [H01 Hl0].
  destruct (call_listeners_other event (Some block) others s2
              (record (EvEmit event (Some block)) st) Hoth2) as [H02 _].
  set (st0 := foldl _ (record (EvEmit event (Some block)) st) others) in *.
  change (the_stream ?s (record ?ev st)) with (the_stream s st) in H01, H02.
  change (length (streams (record ?ev st))) with (length (streams st)) in Hl0.
  clearbody st0.
  cbn [foldl]. unfold call_listener. rewrite Hb1, Hb2.
  set (st1 := removeListener event b1 st0).
  assert (the_stream s1 st1 = the_stream s1 st ∧ the_stream s2 st1 = the_stream s2 st ∧
          length (streams st1) = length (streams st)) as (H11 & H12 & Hl1).
  { subst st1. rewrite !the_stream_removeListener, streams_removeListener. done. }
  clearbody st1.
  set (st2 := pusher_push toB58String s1 block st1).
  assert (the_stream s1 st2 =
          mkGetStream
            (unwantListeners (cleaned (toB58String (key block)) (the_stream s1 st)))
            (blockListeners (cleaned (toB58String (key block)) (the_stream s1 st)))
            (finished (the_stream s1 st))
            (pusher_ended (cleaned (toB58String (key block)) (the_stream s1 st)))
            (emitted (the_stream s1 st) ++ [block]) ∧
          the_stream s2 st2 = the_stream s2 st ∧
          length (streams st2) = length (streams st)) as (H21 & H22 & Hl2).
  { subst st2. rewrite the_stream_pusher_push by congruence.
    rewrite the_stream_pusher_push_ne by done.
    rewrite length_streams_pusher_push. by rewrite H11. }
  clearbody st2.
  set (st3 := removeListener event b2 st2).
  assert (the_stream s1 st3 = the_stream s1 st2 ∧ the_stream s2 st3 = the_stream s2 st2 ∧
          length (streams st3) = length (streams st2)) as (H31 & H32 & Hl3).
  { subst st3. rewrite !the_stream_removeListener, streams_removeListener. done. }
  clearbody st3.
  rewrite the_stream_pusher_push_ne by done.
  rewrite the_stream_pusher_push by congruence.
  rewrite H31, H21, H32, H22. done.
Qed.

Lemma failed_puts_no_emit (block : Block) (interval : N) (errs : list Error) :
  Forall (λ ev, ¬ is_emit ev) (failed_puts block interval errs).
Proof.
  induction errs as [|e errs IH]; [constructor|].
  change (Forall (λ ev, ¬ is_emit ev)
            (EvBlockstorePut block (Some e) :: EvTimeout interval ::
             failed_puts block interval errs)).
  repeat constructor; simpl; tauto.
Qed.

Lemma logs_no_emit (logs : list Event) :
  Forall is_log logs → Forall (λ ev, ¬ is_emit ev) logs.
Proof. intros Hl. eapply Forall_impl; [exact Hl|]. intros []; simpl; tauto. Qed.

(** C6. Two gets of a key that the blockstore lacks, whatever other gets
    wait for it, then one [hasBlock] of the block whose put succeeds.
    While both gets are pending, the want-list holds the key with a
    refcount two higher than before, in one entry of refcount 2 when the
    key was not wanted before.  The block is emitted once, and each of the
    two streams reads it exactly once and then ends. *)
Theorem two_gets_share_one_delivery (block : Block) (st : State) (w1 w2 : W) :
  listeners_known (blockEvent (toB58String (key block))) st →
  blockstore_has (key block) (collaborators st) = (inr false, w1) →
  blockstore_has (key block) w1 = (inr false, w2) →
  (hasBlock_result toB58String block
     (get_one toB58String (key block)
        (get_one toB58String (key block) st).2).2).1 = None →
  ∃ st2 st3 pre post,
    (get_one toB58String (key block) st).1 = length (streams st) ∧
    get_one toB58String (key block) (get_one toB58String (key block) st).2 =
    (S (length (streams st)), st2) ∧
    (∀ cb, hasBlock toB58String block cb st2 = call (or_noop cb) None st3) ∧
    WantList.refcount (toB58String (key block)) (wl (wm st2)) =
    WantList.refcount (toB58String (key block)) (wl (wm st)) + 2 ∧
    (wl (wm st) !! toB58String (key block) = None →
     wl (wm st2) =
     <[toB58String (key block) := mkWantEntry (key block) defaultPriority false 2]>
       (wl (wm st))) ∧
    emitted (the_stream (length (streams st)) st2) = [] ∧
    pusher_ended (the_stream (length (streams st)) st2) = None ∧
    emitted (the_stream (S (length (streams st))) st2) = [] ∧
    pusher_ended (the_stream (S (length (streams st))) st2) = None ∧
    emitted (the_stream (length (streams st)) st3) = [block] ∧
    pusher_ended (the_stream (length (streams st)) st3) = Some None ∧
    emitted (the_stream (S (length (streams st))) st3) = [block] ∧
    pusher_ended (the_stream (S (length (streams st))) st3) = Some None ∧
    trace st3 =
    trace st2 ++
    pre ++ EvEmit (blockEvent (toB58String (key block))) (Some block) :: post ∧
    Forall (λ ev, ¬ is_emit ev) pre ∧
    Forall (λ ev, ¬ is_emit ev) post.
Proof.
  intros Hknown Hhas1 Hhas2 Hput.
  set (keyS := toB58String (key block)) in *.
  unfold listeners_known in Hknown.
  set (others := listeners_of (blockEvent keyS) st) in *.
  destruct (get_one_miss (key block) st w1 Hhas1)
    as (Hsid1 & Hs1 & Hn1 & Hnl1 & Hc1 & Hwl1 & Hp1).
  set (st1 := (get_one toB58String (key block) st).2) in *.
  rewrite <-Hc1 in Hhas2.
  destruct (get_one_miss (key block) st1 w2 Hhas2)
    as (Hsid2 & Hs2 & Hn2 & Hnl2 & Hc2 & Hwl2 & Hp2).
  set (st2 := (get_one toB58String (key block) st1).2) in *.
  fold keyS in Hs1, Hn1, Hwl1, Hs2, Hn2, Hwl2.
  assert (length (streams st1) = S (length (streams st))) as Hlen1.
  { rewrite Hs1, length_app. simpl. lia. }
  rewrite Hlen1 in Hsid2, Hs2, Hn2.
  set (u1 := mkListener (next_listener st) (UnwantListener (length (streams st)) (key block))) in *.
  set (b1 := mkListener (S (next_listener st)) (BlockListener (length (streams st)))) in *.
  set (u2 := mkListener (next_listener st1)
               (UnwantListener (S (length (streams st))) (key block))) in *.
  set (b2 := mkListener (S (next_listener st1))
               (BlockListener (S (length (streams st))))) in *.
  assert (listeners_of (blockEvent keyS) st1 = others ++ [b1]) as Hls1.
  { unfold listeners_of at 1. by rewrite Hn1, lookup_insert_eq. }
  assert (listeners_of (blockEvent keyS) st2 = others ++ [b1; b2]) as Hls2.
  { unfold listeners_of at 1. rewrite Hn2, lookup_insert_eq. simpl.
    by rewrite Hls1, <-app_assoc. }
  assert (the_stream (length (streams st)) st2 = waiting_stream keyS u1 b1) as Hw1.
  { unfold the_stream. rewrite Hs2, Hs1.
    rewrite lookup_app_l by (rewrite length_app; simpl; lia).
    by rewrite list_lookup_middle. }
  assert (the_stream (S (length (streams st))) st2 = waiting_stream keyS u2 b2) as Hw2.
  { unfold the_stream. rewrite Hs2.
    by rewrite list_lookup_middle by done. }
  assert (length (streams st2) = S (S (length (streams st)))) as Hlen2.
  { rewrite Hs2, length_app, Hlen1. simpl. lia. }
  (* the put *)
  unfold hasBlock_result in Hput.
  pose proof (hasBlock_result_trace toB58String block st2) as Htrace.
  pose proof (λ cb, hasBlock_calls_back toB58String block cb st2) as Hcb.
  unfold hasBlock_result in Htrace, Hcb.
  unfold tryPutBlock_result in Hput, Htrace, Hcb.
  pose proof (retry_result_inside (4 - 1) 400 block
                (log DebugLog "trying to put block %s" [ArgBuffer (data block)] st2))
    as Hin.
  destruct (retry_result _ _ _ _) as [[e|] st_put]; [done|].
  simpl in Hin, Htrace, Hcb. fold keyS in Htrace, Hcb.
  unfold inside in Hin. simpl in Hin.
  injection Hin as _ _ _ _ Hn_put Hs_put _.
  set (st_l := log DebugLog "put block: %s" [ArgString keyS] st_put) in *.
  destruct (emit_two_block_listeners (blockEvent keyS) block others b1 b2
              (length (streams st)) (S (length (streams st))) st_l)
    as [Hd1 Hd2].
  { unfold listeners_of. simpl. rewrite Hn_put. exact Hls2. }
  { eapply Forall_impl; [exact Hknown|]. simpl. lia. }
  { eapply Forall_impl; [exact Hknown|]. simpl. lia. }
  { done. }
  { done. }
  { lia. }
  { simpl. rewrite Hs_put. lia. }
  { simpl. rewrite Hs_put. lia. }
  { unfold the_stream. simpl. rewrite Hs_put. fold (the_stream (length (streams st)) st2).
    by rewrite Hw1. }
  { unfold the_stream. simpl. rewrite Hs_put.
    fold (the_stream (S (length (streams st))) st2). by rewrite Hw2. }
  assert (the_stream (length (streams st)) st_l = waiting_stream keyS u1 b1) as Hw1'.
  { unfold the_stream. simpl. rewrite Hs_put. exact Hw1. }
  assert (the_stream (S (length (streams st))) st_l = waiting_stream keyS u2 b2) as Hw2'.
  { unfold the_stream. simpl. rewrite Hs_put. exact Hw2. }
  rewrite Hw1' in Hd1. rewrite Hw2' in Hd2. fold keyS in Hd1, Hd2.
  unfold cleaned, waiting_stream in Hd1, Hd2. simpl in Hd1, Hd2.
  rewrite !delete_insert_eq, !delete_empty in Hd1, Hd2.
  rewrite map_size_empty in Hd1, Hd2.
  simpl in Hd1, Hd2.
  destruct Htrace as [(errs & logs & _ & Hlogs & _ & Ht)|(errs & e & _ & He & _)];
    [|done].
  exists st2, (record (EvEngineReceivedBlock block)
                 (emit toB58String (blockEvent keyS) (Some block) st_l)),
    (EvLog DebugLog "trying to put block %s" [ArgBuffer (data block)] ::
     failed_puts block 400 errs ++
     [EvBlockstorePut block None; EvLog DebugLog "put block: %s" [ArgString keyS]]),
    (logs ++ [EvEngineReceivedBlock block]).
  split; [done|]. split; [by rewrite <-Hsid2; destruct (get_one _ _ st1)|].
  split; [intros cb; apply Hcb|].
  split. { rewrite Hwl2, Hwl1, !refcount_add. lia. }
  split.
  { intros Hl. rewrite Hwl2, Hwl1. unfold WantList.add at 2. rewrite Hl.
    unfold WantList.add. rewrite lookup_insert_eq. simpl.
    by rewrite insert_insert_eq. }
  rewrite Hw1, Hw2.
  do 4 (split; [done|]).
  change (the_stream ?s (record ?ev ?x)) with (the_stream s x).
  rewrite Hd1, Hd2. simpl.
  do 4 (split; [done|]).
  split.
  { rewrite Ht. rewrite <-?app_assoc. simpl. by rewrite <-?app_assoc. }
  split.
  - constructor; [simpl; tauto|]. apply Forall_app. split.
    + apply failed_puts_no_emit.
    + repeat constructor; simpl; tauto.
  - apply Forall_app. split; [by apply logs_no_emit|].
    repeat constructor; simpl; tauto.
Qed.

(** [wm.unwantBlocks(keys)] is one call of the want manager, followed by
    the cancels it hands to the peers' queues. *)
Lemma wm_unwantBlocks_spec (keys : list Key) (st : State) :
  notifications (wm_unwantBlocks toB58String keys st) = notifications st ∧
  streams (wm_unwantBlocks toB58String keys st) = streams st ∧
  ∃ enq,
    trace (wm_unwantBlocks toB58String keys st) =
    trace st ++ EvWmUnwantBlocks keys :: enq ∧
    Forall is_cancel_delta enq.
Proof.
  unfold wm_unwantBlocks.
  pose proof (drop_keys_cancels toB58String WantList.removeForce keys
                (wl (wm (record (EvWmUnwantBlocks keys) st)))) as Hc.
  destruct (drop_keys _ _ _ _) as [l dropped]; simpl in Hc.
  match goal with |- context [broadcast dropped ?s] =>
    destruct (broadcast_spec dropped s) as (Hb & enq & Ht & Hall) end.
  unfold but_trace, inside in Hb; simpl in *.
  simplify_eq. do 2 (split; [congruence|]).
  exists enq. split.
  - rewrite Ht. simpl. by rewrite <-app_assoc.
  - eapply Forall_impl; [exact Hall|]. by intros ev [p ->].
Qed.

(** C2. A get that waits for a key, then [unwantBlocks] of that key: the
    unwant listener logs "manual unwant: <keyB58>" and cleans up, and the
    stream ends; it ends with no error, and no block.  The message is
    logged, and is not raised on the get. *)
Theorem unwant_ends_the_get_without_error (k : Key) (st : State) (w : W) :
  listeners_known (unwantEvent (toB58String k)) st →
  blockstore_has k (collaborators st) = (inr false, w) →
  ∃ st1 enq logs,
    get_one toB58String k st = (length (streams st), st1) ∧
    pusher_ended (the_stream (length (streams st)) st1) = None ∧
    emitted (the_stream (length (streams st)) (unwantBlocks toB58String [k] st1)) = [] ∧
    pusher_ended (the_stream (length (streams st)) (unwantBlocks toB58String [k] st1)) =
    Some None ∧
    trace (unwantBlocks toB58String [k] st1) =
    trace st1 ++
    EvWmUnwantBlocks [k] :: enq ++
    EvEmit (unwantEvent (toB58String k)) None :: logs ++
    [EvLog DebugLog ("manual unwant: " +:+ toB58String k) []] ∧
    Forall is_cancel_delta enq ∧
    Forall is_log logs.
Proof.
  intros Hknown Hhas.
  set (keyS := toB58String k) in *.
  unfold listeners_known in Hknown.
  set (others := listeners_of (unwantEvent keyS) st) in *.
  destruct (get_one_miss k st w Hhas) as (Hsid & Hs1 & Hn1 & _).
  set (st1 := (get_one toB58String k st).2) in *.
  fold keyS in Hs1, Hn1. fold others in Hn1.
  set (u := mkListener (next_listener st) (UnwantListener (length (streams st)) k)) in *.
  set (b := mkListener (S (next_listener st)) (BlockListener (length (streams st)))) in *.
  assert (the_stream (length (streams st)) st1 = waiting_stream keyS u b) as Hw.
  { unfold the_stream. rewrite Hs1. by rewrite list_lookup_middle. }
  destruct (wm_unwantBlocks_spec [k] st1) as (Hn2 & Hs2 & enq & Ht2 & Henq).
  set (st2 := wm_unwantBlocks toB58String [k] st1) in *.
  assert (listeners_of (unwantEvent keyS) st2 = others ++ [u]) as Hls.
  { unfold listeners_of at 1. rewrite Hn2, Hn1.
    rewrite lookup_insert_ne by (apply not_eq_sym, event_names_differ).
    by rewrite lookup_insert_eq. }
  destruct (call_listeners_other (unwantEvent keyS) None others (length (streams st))
              (record (EvEmit (unwantEvent keyS) None) st2)) as [Hw0 Hl0].
  { eapply Forall_impl; [exact Hknown|]. simpl. lia. }
  destruct (only_logged_listeners toB58String (unwantEvent keyS) None others
              (record (EvEmit (unwantEvent keyS) None) st2))
    as [_ (logs & Ht0 & Hlogs)].
  exists st1, enq, logs.
  split; [by rewrite <-Hsid; destruct (get_one _ _ st)|].
  split; [by rewrite Hw|].
  unfold unwantBlocks. cbn [foldl]. fold keyS. fold st2.
  unfold emit.
  change (listeners_of (unwantEvent keyS) (record (EvEmit (unwantEvent keyS) None) st2))
    with (listeners_of (unwantEvent keyS) st2).
  rewrite Hls, foldl_app.
  set (st0 := foldl _ (record (EvEmit (unwantEvent keyS) None) st2) others) in *.
  change (the_stream ?s (record ?ev st2)) with (the_stream s st2) in Hw0.
  change (length (streams (record ?ev st2))) with (length (streams st2)) in Hl0.
  clearbody st0.
  cbn [foldl]. unfold call_listener. cbn [listener_body u].
  set (st3 := log DebugLog _ [] (removeListener _ u _)).
  assert (the_stream (length (streams st)) st3 = waiting_stream keyS u b ∧
          (length (streams st) < length (streams st3))%nat ∧
          trace st3 =
          trace st1 ++ EvWmUnwantBlocks [k] :: enq ++
          EvEmit (unwantEvent keyS) None :: logs ++
          [EvLog DebugLog ("manual unwant: " +:+ keyS) []]) as (Hw3 & Hlt3 & Ht3).
  { subst st3. unfold the_stream. simpl.
    rewrite streams_removeListener.
    fold (the_stream (length (streams st)) st0). rewrite Hw0.
    unfold the_stream. rewrite Hs2. fold (the_stream (length (streams st)) st1).
    split; [exact Hw|]. rewrite Hl0, Hs2.
    split; [rewrite Hs1, length_app; simpl; lia|].
    rewrite (outside_trace _ _ (outside_removeListener _ _ _)).
    rewrite Ht0. simpl. rewrite Ht2. rewrite <-?app_assoc. simpl.
    by rewrite <-?app_assoc. }
  clearbody st3.
  rewrite the_stream_cleanupListener by done.
  rewrite (outside_trace _ _ (outside_cleanupListener toB58String _ _ st3)).
  rewrite Hw3. fold keyS. unfold cleaned, waiting_stream. simpl.
  rewrite delete_insert_eq, delete_empty, map_size_empty. done.
Qed.

End Streams.

(** ** The listeners belong to known streams

    The hypothesis of C2 and C6 on the listeners that wait already holds
    of a new instance and is kept by every method. *)

Section Known.

Context {W : Type} `{Collaborators W}.
Variable toB58String : Key → string.

Local Abbreviation State := (Bitswap W).

Lemma no_new_refl (st : State) : no_new_listeners st st.
Proof. split; [done|lia]. Qed.

Lemma no_new_trans (st1 st2 st3 : State) :
  no_new_listeners st1 st2 → no_new_listeners st2 st3 → no_new_listeners st1 st3.
Proof.
  intros [Hl1 Hs1] [Hl2 Hs2]. split; [|lia].
  intros event. etrans; [apply Hl2|apply Hl1].
Qed.

Lemma no_new_same (st st' : State) :
  notifications st' = notifications st → streams st' = streams st →
  no_new_listeners st st'.
Proof.
  intros Hn Hs. split; [|by rewrite Hs].
  intros event. unfold listeners_of. by rewrite Hn.
Qed.

Lemma known_step (st st' : State) :
  no_new_listeners st st' → all_listeners_known st → all_listeners_known st'.
Proof.
  intros [Hl Hs] Hk event. unfold listeners_known.
  apply Forall_forall. intros l Hin%Hl.
  specialize (Hk event). unfold listeners_known in Hk.
  rewrite Forall_forall in Hk. specialize (Hk l Hin). lia.
Qed.

Lemma known_constructor (w : W) : all_listeners_known (constructor w).
Proof. intros event. unfold listeners_known, listeners_of. simpl.
  rewrite lookup_empty. constructor. Qed.

Lemma no_new_removeListener event l (st : State) :
  no_new_listeners st (removeListener event l st).
Proof.
  split; [intros ev; apply listeners_removeListener|].
  by rewrite streams_removeListener.
Qed.

Lemma no_new_cleanupListener sid k (st : State) :
  no_new_listeners st (cleanupListener toB58String sid k st).
Proof.
  split; [intros ev; apply listeners_cleanupListener|].
  by rewrite length_streams_cleanupListener.
Qed.

Lemma no_new_pusher_push sid block (st : State) :
  no_new_listeners st (pusher_push toB58String sid block st).
Proof.
  split; [intros ev; apply listeners_pusher_push|].
  by rewrite length_streams_pusher_push.
Qed.

Lemma no_new_finish sid (st : State) : no_new_listeners st (finish sid st).
Proof.
  split; [intros ev; by rewrite listeners_finish|].
  by rewrite length_streams_finish.
Qed.

Lemma no_new_update_stream sid f (st : State) :
  no_new_listeners st (update_stream sid f st).
Proof. split; [done|]. by rewrite length_update_stream. Qed.

Lemma no_new_call_listener event payload l (st : State) :
  no_new_listeners st (call_listener toB58String event payload l st).
Proof.
  unfold call_listener.
  eapply no_new_trans; [apply (no_new_removeListener event l)|].
  destruct (listener_body l) as [sid k|sid].
  - eapply no_new_trans; [|apply no_new_cleanupListener]. by apply no_new_same.
  - destruct payload; [apply no_new_pusher_push|apply no_new_refl].
Qed.

Lemma no_new_emit event payload (st : State) :
  no_new_listeners st (emit toB58String event payload st).
Proof.
  unfold emit.
  generalize (listeners_of event (record (EvEmit event payload) st)).
  intros ls.
  eapply no_new_trans with (record (EvEmit event payload) st);
    [by apply no_new_same|].
  generalize (record (EvEmit event payload) st). clear st.
  induction ls as [|l ls IH]; intros st; [apply no_new_refl|].
  cbn [foldl]. eapply no_new_trans; [apply no_new_call_listener|apply IH].
Qed.

Lemma no_new_hasBlock (block : Block) (st : State) :
  no_new_listeners st (hasBlock_result toB58String block st).2.
Proof.
  unfold hasBlock_result, tryPutBlock_result.
  pose proof (retry_result_inside (4 - 1) 400 block
                (log DebugLog "trying to put block %s" [ArgBuffer (data block)] st))
    as Hin.
  destruct (retry_result _ _ _ _) as [[e|] st1]; simpl in *;
    unfold inside in Hin; simpl in Hin; injection Hin as _ _ _ _ Hn Hs _.
  - by apply no_new_same.
  - eapply no_new_trans with (log DebugLog "put block: %s" _ st1);
      [by apply no_new_same|].
    eapply no_new_trans; [apply no_new_emit|]. by apply no_new_same.
Qed.

Lemma no_new_receive_block peerId (block : Block) (st : State) :
  no_new_listeners st (receive_block_result toB58String peerId block st).
Proof.
  unfold receive_block_result, updateReceiveCounters_result, has_result. simpl.
  destruct (blockstore_has (key block) (collaborators st)) as [[err|[|]] w]; simpl.
  all: match goal with |- context [hasBlock_result _ _ ?s] =>
         pose proof (no_new_hasBlock block s) as Hh;
         destruct (hasBlock_result toB58String block s) as [[e|] st2]
       end; simpl in *.
  all: eapply no_new_trans; [|first [exact Hh
         | eapply no_new_trans; [exact Hh|by apply no_new_same]]].
  all: by apply no_new_same.
Qed.

Lemma no_new_receiveMessage peerId incoming (st : State) :
  no_new_listeners st (receiveMessage_result toB58String peerId incoming st).
Proof.
  unfold receiveMessage_result.
  destruct (engine_messageReceived peerId incoming _) as [err w].
  set (st1 := match err with
              | Some _ => log DebugLog "failed to receive message" [ArgMessage incoming] _
              | None => _
              end).
  assert (no_new_listeners st st1) as H1.
  { subst st1. destruct err; by apply no_new_same. }
  clearbody st1. case_bool_decide; [done|].
  destruct (wanted_keys_spec toB58String peerId (msg_blocks incoming) [] st1)
    as (_ & Hbt & _).
  destruct (wanted_keys _ _ _ _ _) as [keys st2]; simpl in Hbt.
  unfold but_trace, inside in Hbt. injection Hbt as _ _ _ _ _ Hn2 Hs2 _.
  destruct (wm_cancelWants_spec toB58String keys st2)
    as (_ & _ & _ & _ & Hn3 & Hs3 & _).
  eapply no_new_trans; [exact H1|].
  eapply no_new_trans with st2; [by apply no_new_same|].
  eapply no_new_trans with (wm_cancelWants toB58String keys st2);
    [by apply no_new_same|].
  generalize (wm_cancelWants toB58String keys st2).
  generalize (msg_blocks incoming). clear.
  intros blocks. induction blocks as [|b blocks IH]; intros st; [apply no_new_refl|].
  cbn [foldl]. eapply no_new_trans; [apply no_new_receive_block|apply IH].
Qed.

Lemma no_new_unwantBlocks (keys : list Key) (st : State) :
  no_new_listeners st (unwantBlocks toB58String keys st).
Proof.
  unfold unwantBlocks.
  destruct (wm_unwantBlocks_spec toB58String keys st) as (Hn & Hs & _).
  eapply no_new_trans with (wm_unwantBlocks toB58String keys st);
    [by apply no_new_same|].
  generalize (wm_unwantBlocks toB58String keys st). clear.
  induction keys as [|k keys IH]; intros st; [apply no_new_refl|].
  cbn [foldl]. eapply no_new_trans; [apply no_new_emit|apply IH].
Qed.

(** [addListener], alone among the functions of the class, registers
    listeners: two, of the stream it is called for. *)
Lemma known_addListener sid k (st : State) :
  (sid < length (streams st))%nat →
  all_listeners_known st →
  all_listeners_known (addListener toB58String sid k st).
Proof.
  intros Hlt Hk event. unfold listeners_known, addListener, once, listeners_of.
  simpl. rewrite length_alter.
  pose proof (Hk event) as Hev.
  pose proof (Hk (unwantEvent (toB58String k))) as Hu.
  pose proof (Hk (blockEvent (toB58String k))) as Hb.
  unfold listeners_known, listeners_of in Hev, Hu, Hb.
  rewrite (lookup_insert_ne _ (unwantEvent _) (blockEvent _))
    by apply event_names_differ.
  destruct (decide (blockEvent (toB58String k) = event)) as [<-|Hne1].
  - rewrite lookup_insert_eq. simpl. apply Forall_app. split; [done|].
    by repeat constructor.
  - rewrite lookup_insert_ne by done.
    destruct (decide (unwantEvent (toB58String k) = event)) as [<-|Hne2].
    + rewrite lookup_insert_eq. simpl. apply Forall_app. split; [done|].
      by repeat constructor.
    + by rewrite lookup_insert_ne.
Qed.

Lemma no_new_wm_wantBlocks (keys : list Key) (st : State) :
  no_new_listeners st (wm_wantBlocks toB58String keys st).
Proof.
  unfold wm_wantBlocks.
  match goal with |- context [broadcast ?es ?s] =>
    destruct (broadcast_spec es s) as [Hb _] end.
  unfold but_trace, inside in Hb. simpl in Hb.
  injection Hb as _ _ _ _ _ Hn Hs _. by apply no_new_same.
Qed.

Lemma known_sink_key sid k (st : State) :
  (sid < length (streams st))%nat →
  all_listeners_known st →
  all_listeners_known (sink_key toB58String sid k st).2 ∧
  (sid < length (streams (sink_key toB58String sid k st).2))%nat.
Proof.
  intros Hlt Hk. unfold sink_key.
  destruct (blockstore_has k (collaborators st)) as [[err|[|]] w]; simpl.
  - split; [|done]. eapply known_step; [|exact Hk]. by apply no_new_same.
  - destruct (blockstore_getStream k _) as [[err|block] w']; simpl.
    + split; [|done]. eapply known_step; [|exact Hk]. by apply no_new_same.
    + match goal with |- context [wm_cancelWants _ ?ks ?s] =>
        destruct (wm_cancelWants_spec toB58String ks s)
          as (_ & _ & _ & _ & Hn & Hs & _) end.
      simpl in Hn, Hs.
      rewrite length_streams_pusher_push, Hs. split; [|done].
      eapply known_step; [|exact Hk].
      eapply no_new_trans; [|apply no_new_pusher_push]. by apply no_new_same.
  - match goal with |- context [wm_wantBlocks _ ?ks ?s] =>
      pose proof (no_new_wm_wantBlocks ks s) as Hnn end.
    split.
    + eapply known_step; [exact Hnn|].
      apply known_addListener; [done|].
      eapply known_step; [|exact Hk]. by apply no_new_same.
    + destruct Hnn as [_ Hlen]. eapply Nat.lt_le_trans; [|exact Hlen].
      unfold addListener, once, update_stream. simpl. by rewrite length_alter.
Qed.

Lemma known_sink sid (keys : list Key) (upstream_end : option Error) (st : State) :
  (sid < length (streams st))%nat →
  all_listeners_known st →
  all_listeners_known (sink toB58String sid keys upstream_end st).
Proof.
  intros Hlt Hk. unfold sink.
  assert (all_listeners_known (sink_keys toB58String sid keys st).2) as Hk'.
  { revert st Hlt Hk. induction keys as [|k keys IH]; intros st Hlt Hk; [done|].
    cbn [sink_keys].
    destruct (known_sink_key sid k st Hlt Hk) as [Hk1 Hlt1].
    destruct (sink_key toB58String sid k st) as [[e|] st1]; [done|].
    by apply IH. }
  destruct (sink_keys toB58String sid keys st) as [err st1]. simpl in Hk'.
  eapply known_step; [|exact Hk'].
  unfold sink_onEnd.
  eapply no_new_trans; [apply no_new_update_stream|].
  destruct (match err with Some e => Some e | None => upstream_end end).
  - apply no_new_update_stream.
  - apply no_new_finish.
Qed.

Lemma known_getStream_sink (keys : list Key) (upstream_end : option Error)
    (st : State) :
  all_listeners_known st →
  all_listeners_known
    (sink toB58String (getStream st).1 keys upstream_end (getStream st).2).
Proof.
  intros Hk. unfold getStream.
  apply known_sink.
  - simpl. rewrite length_app. simpl. lia.
  - eapply known_step; [|exact Hk]. split; [done|].
    simpl. rewrite length_app. lia.
Qed.

(** No method throws, and each keeps the listeners known. *)
Lemma known_run (m : Method) (st : State) :
  all_listeners_known st →
  ∃ st', run toB58String m st = Returned st' ∧ all_listeners_known st'.
Proof.
  intros Hk. destruct m; simpl.
  - rewrite receiveMessage_calls_back. eexists. split; [reflexivity|].
    eapply known_step; [apply no_new_receiveMessage|done].
  - eexists. split; [reflexivity|].
    eapply known_step; [|exact Hk]. by apply no_new_same.
  - eexists. split; [reflexivity|].
    eapply known_step; [|exact Hk]. by apply no_new_same.
  - eexists. split; [reflexivity|].
    eapply known_step; [|exact Hk]. by apply no_new_same.
  - eexists. split; [reflexivity|]. by apply known_getStream_sink.
  - eexists. split; [reflexivity|].
    eapply known_step; [apply no_new_unwantBlocks|done].
  - eexists. split; [reflexivity|].
    destruct (wm_cancelWants_spec toB58String keys st)
      as (_ & _ & _ & _ & Hn & Hs & _).
    eapply known_step; [|exact Hk]. by apply no_new_same.
  - rewrite hasBlock_calls_back. eexists. split; [reflexivity|].
    eapply known_step; [apply no_new_hasBlock|done].
  - eexists. split; [reflexivity|].
    eapply known_step; [|exact Hk]. by apply no_new_same.
  - eexists. split; [reflexivity|].
    eapply known_step; [|exact Hk]. by apply no_new_same.
Qed.

(** Whatever the calls made on a new instance, none throws, and in the
    state they lead to every listener belongs to a known stream: the
    hypothesis of C2 and C6 holds there. *)
Lemma known_run_all (ms : list Method) (st : State) :
  all_listeners_known st →
  ∃ st', run_all toB58String ms st = Returned st' ∧ all_listeners_known st'.
Proof.
  revert st; induction ms as [|m ms IH]; intros st Hk; simpl.
  - by exists st.
  - destruct (known_run m st Hk) as (st1 & -> & Hk1). by apply IH.
Qed.

End Known.

(** ** Starting and stopping *)

Section Lifecycle.

Context {W : Type} `{Collaborators W}.

Local Abbreviation State := (Bitswap W).

(** C3, as the code has it.  [start()] runs the want manager, then starts
    the network, then the decision engine; [stop()] stops the three in
    that same order. *)
Theorem start_and_stop_order (st : State) :
  trace (start st) = trace st ++ [EvWmRun; EvNetworkStart; EvEngineStart] ∧
  trace (stop st) = trace st ++ [EvWmStop; EvNetworkStop; EvEngineStop].
Proof.
  unfold start, stop. simpl. by rewrite <-!app_assoc.
Qed.

End Lifecycle.

(** ** The life of a get stream *)

Section Histories.

Context {W : Type} `{Collaborators W}.
Variable toB58String : Key → string.

Local Abbreviation State := (Bitswap W).

Lemma the_stream_beyond sid (st : State) :
  (length (streams st) ≤ sid)%nat → the_stream sid st = new_stream.
Proof. intros Hle. unfold the_stream. by rewrite lookup_ge_None_2. Qed.

Lemma follows_refl (st : State) : follows toB58String st st.
Proof. split; [done|]. intros sid. reflexivity. Qed.

Lemma follows_trans (st1 st2 st3 : State) :
  follows toB58String st1 st2 → follows toB58String st2 st3 →
  follows toB58String st1 st3.
Proof.
  intros [Hl1 H1] [Hl2 H2]. split; [congruence|].
  intros sid. etrans; [apply H1|apply H2].
Qed.

Lemma follows_same (st st' : State) :
  streams st' = streams st → follows toB58String st st'.
Proof.
  intros Hs. split; [by rewrite Hs|].
  intros sid. unfold the_stream. by rewrite Hs.
Qed.

Lemma serves_refl (st : State) : serves toB58String st st.
Proof. split; [done|]. intros sid. reflexivity. Qed.

Lemma serves_trans (st1 st2 st3 : State) :
  serves toB58String st1 st2 → serves toB58String st2 st3 →
  serves toB58String st1 st3.
Proof.
  intros [Hl1 H1] [Hl2 H2]. split; [congruence|].
  intros sid. etrans; [apply H1|apply H2].
Qed.

Lemma serves_same (st st' : State) :
  streams st' = streams st → serves toB58String st st'.
Proof.
  intros Hs. split; [by rewrite Hs|].
  intros sid. unfold the_stream. by rewrite Hs.
Qed.

Lemma served_stream_step (s s' : GetStream) :
  served_step toB58String s s' → stream_step toB58String s s'.
Proof. intros [keyS s0|block s0 Hopen]; [apply step_clean|by apply step_push]. Qed.

Lemma serves_follows (st st' : State) :
  serves toB58String st st' → follows toB58String st st'.
Proof.
  intros [Hl Hs]. split; [done|]. intros sid.
  eapply rtc_subrel; [|apply Hs]. apply served_stream_step.
Qed.

Lemma serves_cleanupListener sid k (st : State) :
  serves toB58String st (cleanupListener toB58String sid k st).
Proof.
  split; [apply length_streams_cleanupListener|].
  intros sid'. destruct (decide (sid = sid')) as [<-|Hne].
  - destruct (decide (sid < length (streams st))%nat) as [Hlt|Hge].
    + rewrite the_stream_cleanupListener by done. apply rtc_once, served_clean.
    + rewrite !the_stream_beyond
        by (rewrite ?length_streams_cleanupListener; lia).
      reflexivity.
  - by rewrite the_stream_cleanupListener_ne.
Qed.

Lemma serves_pusher_push sid block (st : State) :
  serves toB58String st (pusher_push toB58String sid block st).
Proof.
  split; [apply length_streams_pusher_push|].
  intros sid'. destruct (decide (sid = sid')) as [<-|Hne].
  - destruct (decide (sid < length (streams st))%nat) as [Hlt|Hge].
    + destruct (pusher_ended (the_stream sid st)) as [e|] eqn:He.
      * unfold pusher_push. rewrite He. reflexivity.
      * rewrite the_stream_pusher_push by done. by apply rtc_once, served_push.
    + rewrite !the_stream_beyond
        by (rewrite ?length_streams_pusher_push; lia).
      reflexivity.
  - by rewrite the_stream_pusher_push_ne.
Qed.

(** What the end of the sink does to the stream it belongs to. *)
Lemma the_stream_sink_onEnd sid err (st : State) :
  (sid < length (streams st))%nat →
  the_stream sid (sink_onEnd sid err st) = sunk err (the_stream sid st).
Proof.
  intros Hlt. unfold sink_onEnd, sunk.
  set (st1 := update_stream sid _ st).
  assert ((sid < length (streams st1))%nat) as Hlt1
    by (subst st1; by rewrite length_update_stream).
  assert (the_stream sid st1 =
          mkGetStream (unwantListeners (the_stream sid st))
            (blockListeners (the_stream sid st)) true
            (pusher_ended (the_stream sid st)) (emitted (the_stream sid st)))
    as Hs1 by (subst st1; by rewrite the_stream_update_eq).
  clearbody st1. destruct err as [e|].
  - unfold pusher_end. rewrite the_stream_update_eq by done. rewrite Hs1. simpl.
    by destruct (pusher_ended (the_stream sid st)).
  - rewrite the_stream_finish by done. rewrite Hs1. simpl.
    destruct (pusher_ended (the_stream sid st)); simpl; by case_bool_decide.
Qed.

Lemma the_stream_sink_onEnd_ne sid sid' err (st : State) :
  sid ≠ sid' → the_stream sid' (sink_onEnd sid err st) = the_stream sid' st.
Proof.
  intros Hne. unfold sink_onEnd. destruct err.
  - unfold pusher_end. by rewrite !the_stream_update_ne.
  - rewrite the_stream_finish_ne by done. by rewrite the_stream_update_ne.
Qed.

Lemma length_streams_sink_onEnd sid err (st : State) :
  length (streams (sink_onEnd sid err st)) = length (streams st).
Proof.
  unfold sink_onEnd. destruct err.
  - unfold pusher_end. by rewrite !length_update_stream.
  - by rewrite length_streams_finish, length_update_stream.
Qed.

Lemma follows_sink_onEnd sid err (st : State) :
  follows toB58String st (sink_onEnd sid err st).
Proof.
  split; [apply length_streams_sink_onEnd|].
  intros sid'. destruct (decide (sid = sid')) as [<-|Hne].
  - destruct (decide (sid < length (streams st))%nat) as [Hlt|Hge].
    + rewrite the_stream_sink_onEnd by done. apply rtc_once, step_sunk.
    + rewrite !the_stream_beyond by (rewrite ?length_streams_sink_onEnd; lia).
      reflexivity.
  - by rewrite the_stream_sink_onEnd_ne.
Qed.

(** What [addListener] does to the stream it belongs to. *)
Lemma the_stream_addListener sid k (st : State) :
  (sid < length (streams st))%nat →
  the_stream sid (addListener toB58String sid k st) =
  listening (toB58String k)
    (mkListener (next_listener st) (UnwantListener sid k))
    (mkListener (S (next_listener st)) (BlockListener sid))
    (the_stream sid st).
Proof.
  intros Hlt. unfold addListener, the_stream, once, update_stream. simpl.
  rewrite list_lookup_alter_eq.
  destruct (lookup_lt_is_Some_2 _ _ Hlt) as [s ->]. done.
Qed.

Lemma the_stream_addListener_ne sid sid' k (st : State) :
  sid ≠ sid' →
  the_stream sid' (addListener toB58String sid k st) = the_stream sid' st.
Proof.
  intros Hne. unfold addListener, the_stream, once, update_stream. simpl.
  by rewrite list_lookup_alter_ne.
Qed.

Lemma length_streams_addListener sid k (st : State) :
  length (streams (addListener toB58String sid k st)) = length (streams st).
Proof. unfold addListener, once, update_stream. simpl. apply length_alter. Qed.

Lemma follows_addListener sid k (st : State) :
  finished (the_stream sid st) = false →
  follows toB58String st (addListener toB58String sid k st).
Proof.
  intros Hf. split; [apply length_streams_addListener|].
  intros sid'. destruct (decide (sid = sid')) as [<-|Hne].
  - destruct (decide (sid < length (streams st))%nat) as [Hlt|Hge].
    + rewrite the_stream_addListener by done. by apply rtc_once, step_listen.
    + rewrite !the_stream_beyond by (rewrite ?length_streams_addListener; lia).
      reflexivity.
  - by rewrite the_stream_addListener_ne.
Qed.

Lemma serves_call_listener event payload l (st : State) :
  serves toB58String st (call_listener toB58String event payload l st).
Proof.
  unfold call_listener.
  eapply serves_trans with (removeListener event l st);
    [apply serves_same, streams_removeListener|].
  destruct (listener_body l) as [sid k|sid].
  - eapply serves_trans; [|apply serves_cleanupListener]. by apply serves_same.
  - destruct payload; [apply serves_pusher_push|apply serves_refl].
Qed.

Lemma serves_emit event payload (st : State) :
  serves toB58String st (emit toB58String event payload st).
Proof.
  unfold emit.
  generalize (listeners_of event (record (EvEmit event payload) st)).
  intros ls.
  eapply serves_trans with (record (EvEmit event payload) st);
    [by apply serves_same|].
  generalize (record (EvEmit event payload) st). clear st.
  induction ls as [|l ls IH]; intros st; [apply serves_refl|].
  cbn [foldl]. eapply serves_trans; [apply serves_call_listener|apply IH].
Qed.

Lemma serves_hasBlock (block : Block) (st : State) :
  serves toB58String st (hasBlock_result toB58String block st).2.
Proof.
  unfold hasBlock_result, tryPutBlock_result.
  pose proof (retry_result_inside (4 - 1) 400 block
                (log DebugLog "trying to put block %s" [ArgBuffer (data block)] st))
    as Hin.
  destruct (retry_result _ _ _ _) as [[e|] st1]; simpl in *;
    unfold inside in Hin; simpl in Hin; injection Hin as _ _ _ _ Hn Hs _.
  - by apply serves_same.
  - eapply serves_trans with (log DebugLog "put block: %s" _ st1);
      [by apply serves_same|].
    eapply serves_trans; [apply serves_emit|]. by apply serves_same.
Qed.

Lemma serves_receive_block peerId (block : Block) (st : State) :
  serves toB58String st (receive_block_result toB58String peerId block st).
Proof.
  unfold receive_block_result, updateReceiveCounters_result, has_result. simpl.
  destruct (blockstore_has (key block) (collaborators st)) as [[err|[|]] w]; simpl.
  all: match goal with |- context [hasBlock_result _ _ ?s] =>
         pose proof (serves_hasBlock block s) as Hh;
         destruct (hasBlock_result toB58String block s) as [[e|] st2]
       end; simpl in *.
  all: eapply serves_trans; [|first [exact Hh
         | eapply serves_trans; [exact Hh|by apply serves_same]]].
  all: by apply serves_same.
Qed.

Lemma serves_receiveMessage peerId incoming (st : State) :
  serves toB58String st (receiveMessage_result toB58String peerId incoming st).
Proof.
  unfold receiveMessage_result.
  destruct (engine_messageReceived peerId incoming _) as [err w].
  set (st1 := match err with
              | Some _ => log DebugLog "failed to receive message" [ArgMessage incoming] _
              | None => _
              end).
  assert (serves toB58String st st1) as H1.
  { subst st1. destruct err; by apply serves_same. }
  clearbody st1. case_bool_decide; [done|].
  destruct (wanted_keys_spec toB58String peerId (msg_blocks incoming) [] st1)
    as (_ & Hbt & _).
  destruct (wanted_keys _ _ _ _ _) as [keys st2]; simpl in Hbt.
  unfold but_trace, inside in Hbt. injection Hbt as _ _ _ _ _ Hn2 Hs2 _.
  destruct (wm_cancelWants_spec toB58String keys st2)
    as (_ & _ & _ & _ & Hn3 & Hs3 & _).
  eapply serves_trans; [exact H1|].
  eapply serves_trans with st2; [by apply serves_same|].
  eapply serves_trans with (wm_cancelWants toB58String keys st2);
    [by apply serves_same|].
  generalize (wm_cancelWants toB58String keys st2).
  generalize (msg_blocks incoming). clear.
  intros blocks. induction blocks as [|b blocks IH]; intros st; [apply serves_refl|].
  cbn [foldl]. eapply serves_trans; [apply serves_receive_block|apply IH].
Qed.

Lemma serves_unwantBlocks (keys : list Key) (st : State) :
  serves toB58String st (unwantBlocks toB58String keys st).
Proof.
  unfold unwantBlocks.
  destruct (wm_unwantBlocks_spec toB58String keys st) as (Hn & Hs & _).
  eapply serves_trans with (wm_unwantBlocks toB58String keys st);
    [by apply serves_same|].
  generalize (wm_unwantBlocks toB58String keys st). clear.
  induction keys as [|k keys IH]; intros st; [apply serves_refl|].
  cbn [foldl]. eapply serves_trans; [apply serves_emit|apply IH].
Qed.

Lemma streams_wm_wantBlocks (keys : list Key) (st : State) :
  streams (wm_wantBlocks toB58String keys st) = streams st.
Proof.
  unfold wm_wantBlocks.
  match goal with |- context [broadcast ?es ?s] =>
    destruct (broadcast_spec es s) as [Hb _] end.
  unfold but_trace, inside in Hb. simpl in Hb.
  by injection Hb as _ _ _ _ _ _ Hs _.
Qed.

(** One key through the sink of a stream whose sink has not ended. *)
Lemma follows_sink_key sid k (st : State) :
  (sid < length (streams st))%nat →
  finished (the_stream sid st) = false →
  follows toB58String st (sink_key toB58String sid k st).2 ∧
  finished (the_stream sid (sink_key toB58String sid k st).2) = false.
Proof.
  intros Hlt Hf. unfold sink_key.
  destruct (blockstore_has k (collaborators st)) as [[err|[|]] w]; simpl.
  - split; [by apply follows_same|done].
  - destruct (blockstore_getStream k _) as [[err|block] w']; simpl.
    + split; [by apply follows_same|done].
    + match goal with |- context [wm_cancelWants _ ?ks ?s] =>
        destruct (wm_cancelWants_spec toB58String ks s)
          as (_ & _ & _ & _ & _ & Hs & _);
        set (st1 := wm_cancelWants toB58String ks s) in *
      end.
      simpl in Hs.
      assert (the_stream sid st1 = the_stream sid st) as Hsame
        by (unfold the_stream; by rewrite Hs).
      split.
      * eapply follows_trans; [|apply serves_follows, serves_pusher_push].
        by apply follows_same.
      * destruct (pusher_ended (the_stream sid st1)) as [e|] eqn:He.
        -- unfold pusher_push. rewrite He. by rewrite Hsame.
        -- rewrite the_stream_pusher_push by (done || by rewrite Hs).
           simpl. by rewrite Hsame.
  - set (st0 := record (EvBlockstoreHas k (inr false)) (set_collaborators w st)).
    assert (the_stream sid st0 = the_stream sid st) as Hsame by done.
    assert (length (streams st0) = length (streams st)) as Hl0 by done.
    split.
    + eapply follows_trans with st0; [by apply follows_same|].
      eapply follows_trans; [apply follows_addListener; by rewrite Hsame|].
      apply follows_same, streams_wm_wantBlocks.
    + unfold the_stream. rewrite streams_wm_wantBlocks.
      fold (the_stream sid (addListener toB58String sid k st0)).
      rewrite the_stream_addListener by (by rewrite Hl0). simpl. by rewrite Hsame.
Qed.

Lemma follows_sink_keys sid (keys : list Key) (st : State) :
  (sid < length (streams st))%nat →
  finished (the_stream sid st) = false →
  follows toB58String st (sink_keys toB58String sid keys st).2.
Proof.
  revert st. induction keys as [|k keys IH]; intros st Hlt Hf; [apply follows_refl|].
  cbn [sink_keys].
  destruct (follows_sink_key sid k st Hlt Hf) as [Hfo Hf1].
  destruct (sink_key toB58String sid k st) as [[e|] st1]; [done|].
  simpl in *. eapply follows_trans; [exact Hfo|].
  apply IH; [|done]. destruct Hfo as [-> _]. done.
Qed.

Lemma follows_sink sid (keys : list Key) (upstream_end : option Error) (st : State) :
  (sid < length (streams st))%nat →
  finished (the_stream sid st) = false →
  follows toB58String st (sink toB58String sid keys upstream_end st) ∧
  finished (the_stream sid (sink toB58String sid keys upstream_end st)) = true.
Proof.
  intros Hlt Hf. unfold sink.
  pose proof (follows_sink_keys sid keys st Hlt Hf) as Hfo.
  destruct (sink_keys toB58String sid keys st) as [err st1]. simpl in Hfo.
  split.
  - eapply follows_trans; [exact Hfo|apply follows_sink_onEnd].
  - rewrite the_stream_sink_onEnd; [done|]. destruct Hfo as [-> _]. done.
Qed.

Lemma the_stream_getStream sid (st : State) :
  the_stream sid (getStream st).2 = the_stream sid st.
Proof.
  unfold the_stream, getStream. simpl.
  destruct (streams st !! sid) as [s|] eqn:Hs.
  - by rewrite (lookup_app_l_Some _ _ _ _ Hs).
  - apply lookup_ge_None in Hs. rewrite lookup_app_r by done.
    by destruct (sid - length (streams st))%nat.
Qed.

(** A [getStream()] whose sink is fed at once. *)
Lemma getStream_sink (keys : list Key) (upstream_end : option Error) (st : State) :
  let st' := sink toB58String (getStream st).1 keys upstream_end (getStream st).2 in
  length (streams st') = S (length (streams st)) ∧
  (∀ sid, rtc (stream_step toB58String) (the_stream sid st) (the_stream sid st')) ∧
  finished (the_stream (length (streams st)) st') = true.
Proof.
  intros st'.
  destruct (follows_sink (getStream st).1 keys upstream_end (getStream st).2)
    as [[Hl Hfo] Hf].
  - simpl. rewrite length_app. simpl. lia.
  - rewrite the_stream_getStream. by rewrite the_stream_beyond.
  - subst st'. split; [|split; [|exact Hf]].
    + rewrite Hl. simpl. rewrite length_app. simpl. lia.
    + intros sid. specialize (Hfo sid). by rewrite the_stream_getStream in Hfo.
Qed.

(** Every method but [getStream] keeps the streams there are and moves
    each through the steps that are left to a stream once its sink has
    ended. *)
Lemma serves_run (m : Method) (st : State) :
  match m with CallGetStream _ _ => False | _ => True end →
  ∃ st', run toB58String m st = Returned st' ∧ serves toB58String st st'.
Proof.
  intros Hm. destruct m; simpl; try done.
  - rewrite receiveMessage_calls_back. eexists. split; [reflexivity|].
    apply serves_receiveMessage.
  - eexists. split; [reflexivity|]. by apply serves_same.
  - eexists. split; [reflexivity|]. by apply serves_same.
  - eexists. split; [reflexivity|]. by apply serves_same.
  - eexists. split; [reflexivity|]. apply serves_unwantBlocks.
  - eexists. split; [reflexivity|].
    destruct (wm_cancelWants_spec toB58String keys st)
      as (_ & _ & _ & _ & Hn & Hs & _).
    by apply serves_same.
  - rewrite hasBlock_calls_back. eexists. split; [reflexivity|].
    apply serves_hasBlock.
  - eexists. split; [reflexivity|]. by apply serves_same.
  - eexists. split; [reflexivity|]. by apply serves_same.
Qed.

Lemma follows_run (m : Method) (st : State) :
  match m with CallGetStream _ _ => False | _ => True end →
  ∃ st', run toB58String m st = Returned st' ∧ follows toB58String st st'.
Proof.
  intros Hm. destruct (serves_run m st Hm) as (st' & Hr & Hs).
  exists st'. split; [done|]. by apply serves_follows.
Qed.

(** Every method moves each stream through steps of its life. *)
Lemma history_run (m : Method) (st : State) :
  ∃ st', run toB58String m st = Returned st' ∧
         ∀ sid, rtc (stream_step toB58String) (the_stream sid st) (the_stream sid st').
Proof.
  destruct m.
  5: { simpl. eexists. split; [reflexivity|].
       apply (getStream_sink keys upstream_end st). }
  all: match goal with |- context [run _ ?m _] =>
         destruct (follows_run m st I) as (st' & Hr & _ & Hfo) end;
    by exists st'.
Qed.

End Histories.

(** ** Edges of receiving, storing and unwanting *)

Section Edges.

Context {W : Type} `{Collaborators W}.
Variable toB58String : Key → string.

Local Abbreviation State := (Bitswap W).

(** X1. An inbound message that carries no block: once the decision
    engine has seen it, the callback is called, with no error.  The want
    manager is not called, the blockstore is not asked, and nothing
    changes but what the engine changes. *)
Theorem empty_message_calls_back_at_once (peerId : PeerId) (incoming : Message)
    (cb : JsCallback W) (st : State) (err : option Error) (w : W) :
  msg_blocks incoming = [] →
  engine_messageReceived peerId incoming (collaborators st) = (err, w) →
  ∃ st',
    _receiveMessage toB58String peerId incoming cb st = call (or_noop cb) None st' ∧
    collaborators st' = w ∧
    inside st' = inside st ∧
    trace st' =
    trace st ++
    EvLog DebugLog "receiving message from %s" [ArgString (peer_toB58String peerId)] ::
    EvEngineMessageReceived peerId incoming err ::
    match err with
    | Some _ => [EvLog DebugLog "failed to receive message" [ArgMessage incoming]]
    | None => []
    end.
Proof.
  intros Hblocks Hengine. unfold _receiveMessage. simpl.
  rewrite Hengine, Hblocks. simpl.
  eexists. split; [reflexivity|].
  destruct err; simpl; rewrite <-?app_assoc; done.
Qed.

(** X2. A block of an inbound message whose put fails four times: the
    error of the last attempt is logged by [hasBlock] and by
    [_receiveMessage], both with [log.error], and is not handed on:
    [eachLimit] is told that the block is done, with no error.  The block
    has been counted; nothing is emitted and the engine is not told of
    it. *)
Theorem failed_put_is_logged_not_reported (peerId : PeerId) (block : Block)
    (st : State) (r : Error + bool) (e1 e2 e3 e4 : Error) (w0 w1 w2 w3 w4 : W) :
  blockstore_has (key block) (collaborators st) = (r, w0) →
  blockstore_putStream block w0 = (Some e1, w1) →
  blockstore_putStream block w1 = (Some e2, w2) →
  blockstore_putStream block w2 = (Some e3, w3) →
  blockstore_putStream block w3 = (Some e4, w4) →
  ∃ st' logs,
    (∀ next, receive_block toB58String peerId block next st = next None st') ∧
    collaborators st' = w4 ∧
    wm st' = wm st ∧
    notifications st' = notifications st ∧
    streams st' = streams st ∧
    blocksRecvd st' = blocksRecvd st + 1 ∧
    Forall is_log logs ∧
    trace st' =
    trace st ++
    EvBlockstoreHas (key block) r :: logs ++
    [EvLog DebugLog "trying to put block %s" [ArgBuffer (data block)];
     EvBlockstorePut block (Some e1); EvTimeout 400;
     EvBlockstorePut block (Some e2); EvTimeout 400;
     EvBlockstorePut block (Some e3); EvTimeout 400;
     EvBlockstorePut block (Some e4);
     EvLog ErrorLog "Error writing block to blockstore: %s" [ArgString (message e4)];
     EvLog ErrorLog "receiveMessage hasBlock error: %s" [ArgString (message e4)]].
Proof.
  intros Hhas H1 H2 H3 H4.
  exists (receive_block_result toB58String peerId block st),
    (match r with
     | inl err => [EvLog DebugLog "blockstore.has error: %s" [ArgString (message err)]]
     | inr true => []
     | inr false =>
         [EvLog DebugLog "got block from %s"
            [ArgString (peer_toB58String peerId); ArgBuffer (data block)]]
     end).
  split; [intros next; apply receive_block_calls_back|].
  unfold receive_block_result, updateReceiveCounters_result, has_result. simpl.
  rewrite Hhas.
  destruct r as [err|[|]]; simpl;
    unfold hasBlock_result, tryPutBlock_result; simpl;
    unfold put_result; simpl; rewrite H1; simpl; rewrite H2; simpl;
    rewrite H3; simpl; rewrite H4; simpl.
  all: repeat split; try done; try (by repeat constructor).
  all: rewrite <-?app_assoc; done.
Qed.

Lemma counters_wm_wantBlocks (keys : list Key) (st : State) :
  counters (wm_wantBlocks toB58String keys st) = counters st ∧
  collaborators (wm_wantBlocks toB58String keys st) = collaborators st ∧
  notifications (wm_wantBlocks toB58String keys st) = notifications st ∧
  next_listener (wm_wantBlocks toB58String keys st) = next_listener st.
Proof.
  unfold wm_wantBlocks, counters.
  match goal with |- context [broadcast ?es ?s] =>
    destruct (broadcast_spec es s) as [Hb _] end.
  unfold but_trace, inside in Hb. simpl in *.
  injection Hb as Hc _ Hb1 Hb2 Hb3 Hn _ Hnl.
  repeat split; congruence.
Qed.

Lemma counters_wm_unwantBlocks (keys : list Key) (st : State) :
  counters (wm_unwantBlocks toB58String keys st) = counters st ∧
  collaborators (wm_unwantBlocks toB58String keys st) = collaborators st ∧
  next_listener (wm_unwantBlocks toB58String keys st) = next_listener st.
Proof.
  unfold wm_unwantBlocks, counters. simpl.
  destruct (drop_keys _ _ _ _) as [l dropped].
  match goal with |- context [broadcast ?es ?s] =>
    destruct (broadcast_spec es s) as [Hb _] end.
  unfold but_trace, inside in Hb. simpl in *.
  injection Hb as Hc _ Hb1 Hb2 Hb3 _ _ Hnl.
  repeat split; congruence.
Qed.

Lemma counters_outside (st st' : State) :
  outside st' = outside st → counters st' = counters st.
Proof. unfold outside, counters. congruence. Qed.

Lemma counters_core (st st' : State) : core st' = core st → counters st' = counters st.
Proof. unfold core, counters. congruence. Qed.

Lemma counters_sink_key sid k (st : State) :
  counters (sink_key toB58String sid k st).2 = counters st.
Proof.
  unfold sink_key.
  destruct (blockstore_has k (collaborators st)) as [[err|[|]] w]; simpl; [done| |].
  - destruct (blockstore_getStream k _) as [[err|block] w']; simpl; [done|].
    rewrite (counters_outside _ _ (outside_pusher_push toB58String sid block _)).
    match goal with |- context [wm_cancelWants _ ?ks ?s] =>
      destruct (wm_cancelWants_spec toB58String ks s) as (_ & Hb & Hd & Hdd & _) end.
    unfold counters. by rewrite Hb, Hd, Hdd.
  - by destruct (counters_wm_wantBlocks [k]
                   (addListener toB58String sid k
                      (record (EvBlockstoreHas k (inr false))
                         (set_collaborators w st)))) as [-> _].
Qed.

Lemma counters_sink sid (keys : list Key) (upstream_end : option Error) (st : State) :
  counters (sink toB58String sid keys upstream_end st) = counters st.
Proof.
  unfold sink.
  assert (counters (sink_keys toB58String sid keys st).2 = counters st) as Hc.
  { revert st. induction keys as [|k keys IH]; intros st; [done|].
    cbn [sink_keys]. pose proof (counters_sink_key sid k st) as Hk.
    destruct (sink_key toB58String sid k st) as [[e|] st1]; [done|].
    simpl in Hk. by rewrite IH. }
  destruct (sink_keys toB58String sid keys st) as [err st1]. simpl in Hc.
  rewrite <-Hc. apply counters_outside. unfold sink_onEnd.
  destruct (match err with Some e => Some e | None => upstream_end end).
  - reflexivity.
  - by rewrite outside_finish.
Qed.

Lemma counters_unwantBlocks (keys : list Key) (st : State) :
  counters (unwantBlocks toB58String keys st) = counters st.
Proof.
  unfold unwantBlocks.
  destruct (counters_wm_unwantBlocks keys st) as [<- _].
  generalize (wm_unwantBlocks toB58String keys st).
  induction keys as [|k keys IH]; intros st'; [done|].
  cbn [foldl]. rewrite IH. apply counters_core.
  apply (emit_outside toB58String).
Qed.

Lemma length_duplicates (blocks : list Block) (answers : list (Error + bool)) :
  (length (duplicates blocks answers) ≤ length blocks)%nat.
Proof.
  unfold duplicates. rewrite length_fmap.
  etrans; [apply length_filter|]. rewrite length_zip. lia.
Qed.

(** What each method does to the receive counters. *)
Lemma counters_run (m : Method) (st : State) :
  ∃ st',
    run toB58String m st = Returned st' ∧
    match m with
    | CallReceiveMessage _ incoming =>
        blocksRecvd st' = blocksRecvd st + N.of_nat (length (msg_blocks incoming)) ∧
        dupBlocksRecvd st ≤ dupBlocksRecvd st' ∧
        dupBlocksRecvd st' ≤ dupBlocksRecvd st + N.of_nat (length (msg_blocks incoming)) ∧
        dupDataRecvd st ≤ dupDataRecvd st'
    | _ => counters st' = counters st
    end.
Proof.
  destruct m; simpl.
  - rewrite receiveMessage_calls_back. eexists. split; [reflexivity|].
    destruct (receiveMessage_result_spec toB58String peerId incoming st)
      as (evs & answers & _ & _ & _ & -> & -> & ->).
    pose proof (length_duplicates (msg_blocks incoming) answers). lia.
  - by eexists.
  - by eexists.
  - by eexists.
  - eexists. split; [reflexivity|]. by rewrite counters_sink.
  - eexists. split; [reflexivity|]. apply counters_unwantBlocks.
  - eexists. split; [reflexivity|].
    destruct (wm_cancelWants_spec toB58String keys st) as (_ & Hb & Hd & Hdd & _).
    unfold counters, cancelWants. by rewrite Hb, Hd, Hdd.
  - rewrite hasBlock_calls_back. eexists. split; [reflexivity|].
    destruct (hasBlock_result_keeps toB58String block st) as (_ & Hb & Hd & Hdd).
    unfold counters. by rewrite Hb, Hd, Hdd.
  - by eexists.
  - by eexists.
Qed.

(** X3. The receive counters move in [_receiveMessage] and nowhere else:
    every other method returns with the three counters as they were, also
    [hasBlock], whose blocks are not counted as received.  A message adds
    the number of its blocks to [blocksRecvd] and at most as many to
    [dupBlocksRecvd]. *)
Theorem only_inbound_blocks_are_counted (m : Method) (st : State) :
  ∃ st',
    run toB58String m st = Returned st' ∧
    match m with
    | CallReceiveMessage _ incoming =>
        blocksRecvd st' = blocksRecvd st + N.of_nat (length (msg_blocks incoming)) ∧
        dupBlocksRecvd st ≤ dupBlocksRecvd st' ∧
        dupBlocksRecvd st' ≤ dupBlocksRecvd st + N.of_nat (length (msg_blocks incoming)) ∧
        dupDataRecvd st ≤ dupDataRecvd st'
    | _ => counters st' = counters st
    end.
Proof. apply counters_run. Qed.

Lemma counters_run_all (ms : list Method) (st : State) :
  ∃ st',
    run_all toB58String ms st = Returned st' ∧
    blocksRecvd st' = blocksRecvd st + N.of_nat (length (received ms)) ∧
    dupBlocksRecvd st' ≤ dupBlocksRecvd st + N.of_nat (length (received ms)).
Proof.
  revert st. induction ms as [|m ms IH]; intros st.
  - exists st. simpl. split; [done|]. lia.
  - cbn [run_all]. destruct (counters_run m st) as (st1 & -> & Hm).
    destruct (IH st1) as (st2 & -> & Hb & Hd). exists st2. split; [done|].
    unfold received in *. rewrite bind_cons, length_app.
    destruct m; simpl in *; unfold counters in Hm.
    1: lia.
    all: injection Hm as Hb1 Hd1 _; lia.
Qed.

(** X4. On an instance made by the constructor, whatever the calls that
    follow, [stat()] gives as [blocksReceived] the number of blocks that the
    inbound messages carried, and [dupBlksReceived] never exceeds it. *)
Theorem stat_counts_the_inbound_blocks (ms : list Method) (w : W) :
  ∃ st',
    run_all toB58String ms (constructor w) = Returned st' ∧
    blocksReceived (stat st') = N.of_nat (length (received ms)) ∧
    dupBlksReceived (stat st') ≤ blocksReceived (stat st').
Proof.
  destruct (counters_run_all ms (constructor w)) as (st' & Hr & Hb & Hd).
  exists st'. split; [done|]. simpl in *. lia.
Qed.

Lemma not_wm_failed_puts (block : Block) (interval : N) (errs : list Error) :
  Forall (λ ev, ¬ is_wm_call ev) (failed_puts block interval errs).
Proof.
  induction errs as [|e errs IH]; [constructor|].
  change (Forall (λ ev, ¬ is_wm_call ev)
            (EvBlockstorePut block (Some e) :: EvTimeout interval ::
             failed_puts block interval errs)).
  repeat constructor; simpl; tauto.
Qed.

Lemma not_wm_logs (logs : list Event) :
  Forall is_log logs → Forall (λ ev, ¬ is_wm_call ev) logs.
Proof. intros Hl. eapply Forall_impl; [exact Hl|]. intros []; simpl; tauto. Qed.

(** X5. [hasBlock] never turns to the want manager: whatever the outcome
    of the put, and whoever waits for the block, the want-list and the
    peers of the want manager are as they were and no call of the want
    manager is made.  A want that a pending get registered for the key is
    still in the want-list after the block was delivered to it. *)
Theorem hasBlock_leaves_the_wants (block : Block) (cb : JsCallback W) (st : State) :
  ∃ err st' evs,
    hasBlock toB58String block cb st = call (or_noop cb) err st' ∧
    wm st' = wm st ∧
    trace st' = trace st ++ evs ∧
    Forall (λ ev, ¬ is_wm_call ev) evs.
Proof.
  rewrite hasBlock_calls_back.
  destruct (hasBlock_result_keeps toB58String block st) as (Hwm & _).
  exists (hasBlock_result toB58String block st).1,
    (hasBlock_result toB58String block st).2.
  destruct (hasBlock_result_trace toB58String block st)
    as [(errs & logs & _ & Hlogs & _ & Ht)|(errs & e & _ & _ & Ht)];
    eexists; (split; [reflexivity|]); (split; [done|]); (split; [exact Ht|]).
  - constructor; [simpl; tauto|].
    apply Forall_app. split; [apply not_wm_failed_puts|].
    apply Forall_app. split; [repeat constructor; simpl; tauto|].
    apply Forall_app. split; [by apply not_wm_logs|].
    repeat constructor; simpl; tauto.
  - constructor; [simpl; tauto|].
    apply Forall_app. split; [apply not_wm_failed_puts|].
    repeat constructor; simpl; tauto.
Qed.

Lemma emit_no_listener event payload (st : State) :
  listeners_of event st = [] →
  emit toB58String event payload st = record (EvEmit event payload) st.
Proof.
  intros Hnone. unfold emit.
  change (listeners_of event (record (EvEmit event payload) st))
    with (listeners_of event st).
  by rewrite Hnone.
Qed.

(** X6. [hasBlock] of a block that no get waits for, with a put that
    succeeds at once: the block is put, the [block:] event is emitted to
    nobody, the engine is told, and the callback is called with no error;
    the emitter, the streams, the want manager and the counters are as
    they were. *)
Theorem hasBlock_with_no_waiter (block : Block) (cb : JsCallback W) (st : State)
    (w : W) :
  listeners_of (blockEvent (toB58String (key block))) st = [] →
  blockstore_putStream block (collaborators st) = (None, w) →
  ∃ st',
    hasBlock toB58String block cb st = call (or_noop cb) None st' ∧
    collaborators st' = w ∧
    inside st' = inside st ∧
    trace st' =
    trace st ++
    [EvLog DebugLog "trying to put block %s" [ArgBuffer (data block)];
     EvBlockstorePut block None;
     EvLog DebugLog "put block: %s" [ArgString (toB58String (key block))];
     EvEmit (blockEvent (toB58String (key block))) (Some block);
     EvEngineReceivedBlock block].
Proof.
  intros Hnone Hput. rewrite hasBlock_calls_back.
  unfold hasBlock_result, tryPutBlock_result. simpl.
  unfold put_result. simpl. rewrite Hput. simpl.
  rewrite emit_no_listener by done. simpl.
  eexists. split; [reflexivity|]. repeat split.
  simpl. by rewrite <-?app_assoc.
Qed.

Lemma emits_no_listener (keys : list Key) (st : State) :
  Forall (λ k, listeners_of (unwantEvent (toB58String k)) st = []) keys →
  foldl (λ st k, emit toB58String (unwantEvent (toB58String k)) None st) st keys =
  mkBitswap W (collaborators st) (wm st) (blocksRecvd st) (dupBlocksRecvd st)
    (dupDataRecvd st) (notifications st) (streams st) (next_listener st)
    (trace st ++ ((λ k, EvEmit (unwantEvent (toB58String k)) None) <$> keys)).
Proof.
  revert st. induction keys as [|k keys IH]; intros st Hall.
  - simpl. rewrite app_nil_r. by destruct st.
  - apply Forall_cons in Hall as [Hk Hall]. cbn [foldl].
    rewrite emit_no_listener by done. rewrite IH by done.
    simpl. by rewrite <-app_assoc.
Qed.

(** X7. [unwantBlocks] of keys that no get waits for: the want manager
    is told, one [unwant:] event is emitted for each key, in order, to
    nobody; the emitter, the streams, the blockstore and the counters are
    as they were. *)
Theorem unwant_with_no_waiter (keys : list Key) (st : State) :
  Forall (λ k, listeners_of (unwantEvent (toB58String k)) st = []) keys →
  ∃ enq,
    trace (unwantBlocks toB58String keys st) =
    trace st ++
    EvWmUnwantBlocks keys :: enq ++
    ((λ k, EvEmit (unwantEvent (toB58String k)) None) <$> keys) ∧
    Forall is_cancel_delta enq ∧
    notifications (unwantBlocks toB58String keys st) = notifications st ∧
    streams (unwantBlocks toB58String keys st) = streams st ∧
    next_listener (unwantBlocks toB58String keys st) = next_listener st ∧
    collaborators (unwantBlocks toB58String keys st) = collaborators st ∧
    counters (unwantBlocks toB58String keys st) = counters st.
Proof.
  intros Hall. unfold unwantBlocks.
  destruct (wm_unwantBlocks_spec toB58String keys st) as (Hn & Hs & enq & Ht & Henq).
  destruct (counters_wm_unwantBlocks keys st) as (Hc & Hw & Hnl).
  rewrite emits_no_listener.
  - exists enq. simpl. rewrite Ht, Hn, Hs, Hnl, Hw.
    split; [by rewrite <-app_assoc|]. repeat split; done.
  - eapply Forall_impl; [exact Hall|]. intros k Hk. simpl in Hk.
    unfold listeners_of in *. by rewrite Hn.
Qed.

End Edges.

(** ** The sink of a get stream *)

Section Sinks.

Context {W : Type} `{Collaborators W}.
Variable toB58String : Key → string.

Local Abbreviation State := (Bitswap W).

Lemma outside_fields (st st' : State) :
  outside st' = outside st →
  collaborators st' = collaborators st ∧ wm st' = wm st ∧
  counters st' = counters st ∧ trace st' = trace st.
Proof. unfold outside, counters. intros Heq. repeat split; congruence. Qed.

Lemma but_streams_sink_onEnd sid err (st : State) :
  outside (sink_onEnd sid err st) = outside st ∧
  notifications (sink_onEnd sid err st) = notifications st ∧
  next_listener (sink_onEnd sid err st) = next_listener st.
Proof.
  unfold sink_onEnd. destruct err; [done|].
  rewrite outside_finish, next_listener_finish.
  unfold finish. by case_match.
Qed.

(** X8. When [blockstore.has] fails for a key fed to the sink of a get
    stream, the sink ends there: the source is ended with that error, the
    keys that follow are not looked at, nothing is emitted, and the
    listeners that the stream registered for earlier keys stay where they
    are. *)
Theorem sink_ends_on_has_error (sid : nat) (k : Key) (rest : list Key)
    (upstream : option Error) (st : State) (err : Error) (w : W) :
  (sid < length (streams st))%nat →
  pusher_ended (the_stream sid st) = None →
  blockstore_has k (collaborators st) = (inl err, w) →
  ∃ st',
    sink toB58String sid (k :: rest) upstream st = st' ∧
    the_stream sid st' =
    mkGetStream (unwantListeners (the_stream sid st))
      (blockListeners (the_stream sid st)) true (Some (Some err))
      (emitted (the_stream sid st)) ∧
    trace st' = trace st ++ [EvBlockstoreHas k (inl err)] ∧
    collaborators st' = w ∧
    wm st' = wm st ∧
    notifications st' = notifications st.
Proof.
  intros Hlt Hopen Hhas.
  set (st1 := record (EvBlockstoreHas k (inl err)) (set_collaborators w st)).
  exists (sink_onEnd sid (Some err) st1). split.
  { unfold sink. cbn [sink_keys]. unfold sink_key. by rewrite Hhas. }
  destruct (but_streams_sink_onEnd sid (Some err) st1) as (Hout & Hn & _).
  rewrite the_stream_sink_onEnd by done.
  change (the_stream sid st1) with (the_stream sid st).
  unfold sunk. rewrite Hopen.
  apply outside_fields in Hout as (Hc & Hwm & _ & Ht).
  rewrite Ht, Hc, Hwm, Hn. done.
Qed.

(** X9. When the blockstore says it has a key fed to the sink of a get
    stream and then fails to read it, the sink ends there: the source is
    ended with that error, the keys that follow are not looked at, nothing
    is emitted and the want manager is not called. *)
Theorem sink_ends_on_read_error (sid : nat) (k : Key) (rest : list Key)
    (upstream : option Error) (st : State) (err : Error) (w1 w2 : W) :
  (sid < length (streams st))%nat →
  pusher_ended (the_stream sid st) = None →
  blockstore_has k (collaborators st) = (inr true, w1) →
  blockstore_getStream k w1 = (inl err, w2) →
  ∃ st',
    sink toB58String sid (k :: rest) upstream st = st' ∧
    the_stream sid st' =
    mkGetStream (unwantListeners (the_stream sid st))
      (blockListeners (the_stream sid st)) true (Some (Some err))
      (emitted (the_stream sid st)) ∧
    trace st' =
    trace st ++ [EvBlockstoreHas k (inr true); EvBlockstoreGet k (inl err)] ∧
    collaborators st' = w2 ∧
    wm st' = wm st ∧
    notifications st' = notifications st.
Proof.
  intros Hlt Hopen Hhas Hget.
  set (st1 := record (EvBlockstoreGet k (inl err))
                (set_collaborators w2
                   (record (EvBlockstoreHas k (inr true)) (set_collaborators w1 st)))).
  exists (sink_onEnd sid (Some err) st1). split.
  { unfold sink. cbn [sink_keys]. unfold sink_key. rewrite Hhas. simpl.
    by rewrite Hget. }
  destruct (but_streams_sink_onEnd sid (Some err) st1) as (Hout & Hn & _).
  rewrite the_stream_sink_onEnd by done.
  change (the_stream sid st1) with (the_stream sid st).
  unfold sunk. rewrite Hopen.
  apply outside_fields in Hout as (Hc & Hwm & _ & Ht).
  rewrite Ht, Hc, Hwm, Hn. subst st1. simpl. by rewrite <-app_assoc.
Qed.

(** A block pushed into a stream that holds no listener touches the
    emitter not. *)
Lemma pusher_push_bare sid block acc (st : State) :
  (sid < length (streams st))%nat →
  the_stream sid st = mkGetStream ∅ ∅ false None acc →
  the_stream sid (pusher_push toB58String sid block st) =
  mkGetStream ∅ ∅ false None (acc ++ [block]) ∧
  but_streams_of (pusher_push toB58String sid block st) = but_streams_of st ∧
  length (streams (pusher_push toB58String sid block st)) = length (streams st).
Proof.
  intros Hlt Hthe. split; [|split; [|apply length_streams_pusher_push]].
  - rewrite the_stream_pusher_push by (done || by rewrite Hthe).
    rewrite Hthe. unfold cleaned. simpl. by rewrite !delete_empty.
  - unfold pusher_push, cleanupListener, finish.
    repeat (rewrite ?Hthe, ?lookup_empty; simpl). done.
Qed.

Lemma sink_keys_hits sid (keys : list Key) (blocks acc : list Block) (w' : W)
    (st : State) :
  (sid < length (streams st))%nat →
  the_stream sid st = mkGetStream ∅ ∅ false None acc →
  read_all keys (collaborators st) = Some (blocks, w') →
  (sink_keys toB58String sid keys st).1 = None ∧
  the_stream sid (sink_keys toB58String sid keys st).2 =
  mkGetStream ∅ ∅ false None (acc ++ blocks) ∧
  (sid < length (streams (sink_keys toB58String sid keys st).2))%nat ∧
  collaborators (sink_keys toB58String sid keys st).2 = w' ∧
  notifications (sink_keys toB58String sid keys st).2 = notifications st ∧
  next_listener (sink_keys toB58String sid keys st).2 = next_listener st ∧
  counters (sink_keys toB58String sid keys st).2 = counters st.
Proof.
  revert blocks acc st. induction keys as [|k keys IH]; intros blocks acc st Hlt Hthe Hread.
  - simpl in *. simplify_eq. by rewrite app_nil_r.
  - cbn [sink_keys read_all] in *. unfold sink_key.
    destruct (blockstore_has k (collaborators st)) as [[err|[|]] w1]; try done.
    simpl. destruct (blockstore_getStream k w1) as [[err|block] w2]; try done.
    destruct (read_all keys w2) as [[blocks' w'']|] eqn:Hrest; try done.
    simplify_eq.
    match goal with |- context [wm_cancelWants _ ?ks ?s] =>
      destruct (wm_cancelWants_spec toB58String ks s)
        as (Hc & Hb & Hd & Hdd & Hn & Hs & Hnl & _);
      set (st2 := wm_cancelWants toB58String ks s) in *
    end.
    simpl in Hc, Hb, Hd, Hdd, Hn, Hs, Hnl.
    assert (the_stream sid st2 = mkGetStream ∅ ∅ false None acc) as Hthe2.
    { unfold the_stream. rewrite Hs. exact Hthe. }
    assert ((sid < length (streams st2))%nat) as Hlt2 by (by rewrite Hs).
    destruct (pusher_push_bare sid block acc st2 Hlt2 Hthe2) as (Hthe3 & Hbut & Hl3).
    set (st3 := pusher_push toB58String sid block st2) in *.
    unfold but_streams_of in Hbut. injection Hbut as Hc3 Hwm3 Hb3 Hd3 Hdd3 Hn3 Hnl3 Ht3.
    destruct (IH blocks' (acc ++ [block]) st3) as (He & Hthe4 & Hlt4 & Hc4 & Hn4 & Hnl4 & Hco4).
    + by rewrite Hl3.
    + done.
    + by rewrite Hc3, Hc.
    + simpl. rewrite He, Hthe4, Hc4, Hn4, Hnl4, Hco4, <-app_assoc.
      repeat split; try done; try congruence.
      unfold counters. congruence.
Qed.

Lemma the_stream_sink_key_ne sid sid' k (st : State) :
  sid ≠ sid' →
  the_stream sid' (sink_key toB58String sid k st).2 = the_stream sid' st.
Proof.
  intros Hne. unfold sink_key.
  destruct (blockstore_has k (collaborators st)) as [[err|[|]] w]; simpl; [done| |].
  - destruct (blockstore_getStream k _) as [[err|block] w']; simpl; [done|].
    rewrite the_stream_pusher_push_ne by done.
    match goal with |- context [wm_cancelWants _ ?ks ?s] =>
      destruct (wm_cancelWants_spec toB58String ks s)
        as (_ & _ & _ & _ & _ & Hs & _) end.
    unfold the_stream. by rewrite Hs.
  - unfold the_stream at 1. rewrite streams_wm_wantBlocks.
    exact (the_stream_addListener_ne toB58String sid sid' k
             (record (EvBlockstoreHas k (inr false)) (set_collaborators w st)) Hne).
Qed.

Lemma the_stream_sink_ne (sid sid' : nat) (keys : list Key)
    (upstream : option Error) (st : State) :
  sid ≠ sid' →
  the_stream sid' (sink toB58String sid keys upstream st) = the_stream sid' st.
Proof.
  intros Hne. unfold sink.
  assert (the_stream sid' (sink_keys toB58String sid keys st).2 = the_stream sid' st)
    as Hkeys.
  { revert st. induction keys as [|k keys IH]; intros st; [done|].
    cbn [sink_keys]. pose proof (the_stream_sink_key_ne sid sid' k st Hne) as Hk.
    destruct (sink_key toB58String sid k st) as [[e|] st1]; [done|].
    simpl in Hk. by rewrite IH. }
  destruct (sink_keys toB58String sid keys st) as [err st1]. simpl in Hkeys.
  by rewrite the_stream_sink_onEnd_ne.
Qed.

(** X10. The sink of one get stream leaves every other get stream
    alone, whatever its keys and whatever the blockstore answers: what the
    others have emitted, whether they have ended, and the listeners they
    hold are as they were. *)
Theorem sink_leaves_other_streams (sid sid' : nat) (keys : list Key)
    (upstream : option Error) (st : State) :
  sid ≠ sid' →
  the_stream sid' (sink toB58String sid keys upstream st) = the_stream sid' st.
Proof. apply the_stream_sink_ne. Qed.

(** X11. A get stream fed keys that the blockstore all has: the source
    emits their blocks, in the order of the keys, and then ends as the
    upstream of the sink ended, at once when there was no key.  No
    listener is made or registered, and the counters stay. *)
Theorem local_get_emits_in_order (keys : list Key) (upstream : option Error)
    (st : State) (blocks : list Block) (w' : W) :
  read_all keys (collaborators st) = Some (blocks, w') →
  ∃ st',
    sink toB58String (getStream st).1 keys upstream (getStream st).2 = st' ∧
    the_stream (length (streams st)) st' =
    mkGetStream ∅ ∅ true (Some upstream) blocks ∧
    collaborators st' = w' ∧
    notifications st' = notifications st ∧
    next_listener st' = next_listener st ∧
    counters st' = counters st.
Proof.
  intros Hread. eexists. split; [reflexivity|].
  destruct (sink_keys_hits (length (streams st)) keys blocks [] w' (getStream st).2)
    as (He & Hthe & Hlt & Hc & Hn & Hnl & Hco).
  - simpl. rewrite length_app. simpl. lia.
  - rewrite the_stream_getStream. by rewrite the_stream_beyond.
  - done.
  - unfold sink. change ((getStream st).1) with (length (streams st)).
    destruct (sink_keys toB58String (length (streams st)) keys (getStream st).2)
      as [e st1].
    simpl in He, Hthe, Hlt, Hc, Hn, Hnl, Hco. subst e.
    destruct (but_streams_sink_onEnd (length (streams st)) upstream st1)
      as (Hout & Hn' & Hnl').
    apply outside_fields in Hout as (Hc' & _ & Hco' & _).
    rewrite the_stream_sink_onEnd by done. rewrite Hthe.
    unfold counters in *. simpl in *.
    split; [|repeat split; congruence].
    unfold sunk. simpl. by destruct upstream.
Qed.

End Sinks.

(** ** Listeners are called once *)

Section OneShot.

Context {W : Type} `{Collaborators W}.
Variable toB58String : Key → string.

Local Abbreviation State := (Bitswap W).

Lemma remove_first_ids (i : nat) (ls : list Listener) :
  (i ∈ (listener_id <$> ls) ∧
   listener_id <$> ls ≡ₚ i :: (listener_id <$> remove_first i ls)) ∨
  ((i ∉ (listener_id <$> ls)) ∧ remove_first i ls = ls).
Proof.
  induction ls as [|l ls IH]; simpl.
  - right. split; [|done]. by intros ?%elem_of_nil.
  - case_bool_decide as Hid.
    + left. subst i. split; [by left|done].
    + destruct IH as [[Hin Hp]|[Hnin Heq]].
      * left. split; [by right|]. simpl. rewrite Hp. apply Permutation_swap.
      * right. split; [|by rewrite Heq].
        intros [?|?]%elem_of_cons; done.
Qed.

Lemma remove_last_ids (i : nat) (ls : list Listener) :
  (i ∈ (listener_id <$> ls) ∧
   listener_id <$> ls ≡ₚ i :: (listener_id <$> remove_last i ls)) ∨
  ((i ∉ (listener_id <$> ls)) ∧ remove_last i ls = ls).
Proof.
  unfold remove_last.
  destruct (remove_first_ids i (reverse ls)) as [[Hin Hp]|[Hnin Heq]].
  - left. rewrite fmap_reverse, elem_of_reverse in Hin. split; [done|].
    rewrite fmap_reverse, reverse_Permutation in Hp.
    by rewrite fmap_reverse, reverse_Permutation.
  - right. rewrite fmap_reverse, elem_of_reverse in Hnin. split; [done|].
    by rewrite Heq, reverse_involutive.
Qed.

(** Once a listener is removed, the identities left are among the others
    that were expected. *)
Lemma remove_last_expected (i : nat) (ls : list Listener) (expected : list nat) :
  listener_id <$> ls ⊆+ i :: expected →
  listener_id <$> remove_last i ls ⊆+ expected.
Proof.
  intros Hsub. destruct (remove_last_ids i ls) as [[Hin Hp]|[Hnin Heq]].
  - rewrite Hp in Hsub. by apply (submseteq_app_inv_l _ _ [i]).
  - rewrite Heq. apply submseteq_cons_r in Hsub as [Hsub|(l' & Hp & _)]; [done|].
    exfalso. apply Hnin. rewrite Hp. by left.
Qed.

Lemma remove_last_submseteq (i : nat) (ls : list Listener) : remove_last i ls ⊆+ ls.
Proof.
  unfold remove_last. rewrite reverse_Permutation.
  rewrite <-(reverse_Permutation ls) at 2.
  generalize (reverse ls). clear ls. intros ls.
  induction ls as [|l ls IH]; simpl; [done|].
  case_bool_decide; [by apply submseteq_cons|by apply submseteq_skip].
Qed.

(** What [removeListener] leaves of the listeners of its event. *)
Lemma listeners_removeListener_eq event l (st : State) :
  listeners_of event (removeListener event l st) =
  remove_last (listener_id l) (listeners_of event st).
Proof.
  unfold removeListener, listeners_of.
  destruct (notifications st !! event) as [ls|] eqn:Hls; simpl.
  - destruct (remove_last (listener_id l) ls) as [|l' ls'] eqn:Hrm; simpl.
    + by rewrite lookup_delete_eq.
    + by rewrite lookup_insert_eq.
  - rewrite Hls. done.
Qed.

Lemma listeners_removeListener_ne event event' l (st : State) :
  event ≠ event' →
  listeners_of event' (removeListener event l st) = listeners_of event' st.
Proof.
  intros Hne. unfold removeListener, listeners_of.
  destruct (notifications st !! event) as [ls|] eqn:Hls; [|done].
  destruct (remove_last (listener_id l) ls) as [|l' ls'] eqn:Hrm; simpl.
  - by rewrite lookup_delete_ne.
  - by rewrite lookup_insert_ne.
Qed.

(** [removeListener] leaves each listener at most as often as it was
    there. *)
Lemma listeners_removeListener_fewer event' event l (st : State) :
  listeners_of event' (removeListener event l st) ⊆+ listeners_of event' st.
Proof.
  destruct (decide (event = event')) as [<-|Hne].
  - rewrite listeners_removeListener_eq. apply remove_last_submseteq.
  - by rewrite listeners_removeListener_ne.
Qed.

Lemma listeners_cleanupListener_fewer event sid k (st : State) :
  listeners_of event (cleanupListener toB58String sid k st) ⊆+ listeners_of event st.
Proof.
  unfold cleanupListener. rewrite listeners_finish.
  set (st1 := match unwantListeners (the_stream sid st) !! _ with
              | Some l => update_stream sid _ (removeListener _ l st)
              | None => st
              end).
  assert (listeners_of event st1 ⊆+ listeners_of event st) as Hs1.
  { subst st1. case_match; [|done].
    rewrite listeners_update_stream. apply listeners_removeListener_fewer. }
  clearbody st1. case_match; [|done].
  rewrite listeners_update_stream.
  etrans; [apply listeners_removeListener_fewer|done].
Qed.

Lemma listeners_pusher_push_fewer event sid block (st : State) :
  listeners_of event (pusher_push toB58String sid block st) ⊆+ listeners_of event st.
Proof.
  unfold pusher_push. case_match; [done|].
  rewrite listeners_update_stream. apply listeners_cleanupListener_fewer.
Qed.

(** A listener that is called was registered with [once]: it is taken
    out of the listeners of the event, and what it does adds none. *)
Lemma call_listener_expected event payload l (expected : list nat) (st : State) :
  listener_id <$> listeners_of event st ⊆+ listener_id l :: expected →
  listener_id <$> listeners_of event (call_listener toB58String event payload l st)
  ⊆+ expected.
Proof.
  intros Hsub. unfold call_listener.
  assert (listener_id <$> listeners_of event (removeListener event l st) ⊆+ expected)
    as Hrm.
  { rewrite listeners_removeListener_eq. by apply remove_last_expected. }
  destruct (listener_body l) as [sid k|sid].
  - etrans; [|exact Hrm]. apply fmap_submseteq.
    etrans; [apply listeners_cleanupListener_fewer|]. done.
  - destruct payload as [block|]; [|done].
    etrans; [|exact Hrm]. apply fmap_submseteq, listeners_pusher_push_fewer.
Qed.

(** An [emit] leaves no listener of its event: each was registered with
    [once]. *)
Lemma emit_consumes event payload (st : State) :
  listeners_of event (emit toB58String event payload st) = [].
Proof.
  unfold emit.
  assert (listener_id <$> listeners_of event (record (EvEmit event payload) st) ⊆+
          listener_id <$> listeners_of event (record (EvEmit event payload) st))
    as Hsub by done.
  revert Hsub.
  generalize (listeners_of event (record (EvEmit event payload) st)) at 2 3.
  generalize (record (EvEmit event payload) st). clear st.
  intros st ls. revert st. induction ls as [|l ls IH]; intros st Hsub.
  - simpl in *. apply submseteq_nil_r in Hsub. by apply fmap_nil_inv in Hsub.
  - cbn [foldl]. apply IH. by apply call_listener_expected.
Qed.

Lemma no_listeners_stay_none event (st st' : State) :
  no_new_listeners st st' → listeners_of event st = [] → listeners_of event st' = [].
Proof.
  intros [Hsub _] Hnone. specialize (Hsub event). rewrite Hnone in Hsub.
  destruct (listeners_of event st') as [|l ls]; [done|].
  exfalso. assert (l ∈ @nil Listener) as Hin by (apply Hsub; by left).
  by apply elem_of_nil in Hin.
Qed.

(** X12. The listeners of a [block:] event are one-shot.  When
    [hasBlock] has put a block, no listener of the event of its key is
    left in the emitter, whatever listeners were there: a second
    [hasBlock] of the block reaches none of the gets that the first one
    served.  When the put fails, the emitter is as it was. *)
Theorem block_listeners_fire_once (block : Block) (cb : JsCallback W) (st : State) :
  ∃ err st',
    hasBlock toB58String block cb st = call (or_noop cb) err st' ∧
    match err with
    | None => listeners_of (blockEvent (toB58String (key block))) st' = []
    | Some _ => notifications st' = notifications st
    end.
Proof.
  rewrite hasBlock_calls_back.
  exists (hasBlock_result toB58String block st).1,
    (hasBlock_result toB58String block st).2.
  split; [done|].
  unfold hasBlock_result, tryPutBlock_result.
  pose proof (retry_result_inside (4 - 1) 400 block
                (log DebugLog "trying to put block %s" [ArgBuffer (data block)] st))
    as Hin.
  destruct (retry_result _ _ _ _) as [[e|] st1]; simpl in *;
    unfold inside in Hin; simpl in Hin; injection Hin as _ _ _ _ Hn Hs _.
  - done.
  - apply (emit_consumes (blockEvent (toB58String (key block))) (Some block)).
Qed.

Lemma no_new_emits (keys : list Key) (st : State) :
  no_new_listeners st
    (foldl (λ st k, emit toB58String (unwantEvent (toB58String k)) None st) st keys).
Proof.
  revert st. induction keys as [|k keys IH]; intros st; [apply no_new_refl|].
  cbn [foldl]. eapply no_new_trans; [apply (no_new_emit toB58String)|apply IH].
Qed.

Lemma emits_consume (keys : list Key) (k : Key) (st : State) :
  k ∈ keys →
  listeners_of (unwantEvent (toB58String k))
    (foldl (λ st k, emit toB58String (unwantEvent (toB58String k)) None st) st keys) = [].
Proof.
  revert st. induction keys as [|k0 keys IH]; intros st Hin;
    [by apply elem_of_nil in Hin|].
  cbn [foldl]. apply elem_of_cons in Hin as [->|Hin]; [|by apply IH].
  eapply no_listeners_stay_none; [apply no_new_emits|apply emit_consumes].
Qed.

(** X13. The listeners of an [unwant:] event are one-shot.  After
    [unwantBlocks(keys)], no listener of the unwant event of any of the
    keys is left in the emitter. *)
Theorem unwant_listeners_fire_once (keys : list Key) (k : Key) (st : State) :
  k ∈ keys →
  listeners_of (unwantEvent (toB58String k)) (unwantBlocks toB58String keys st) = [].
Proof. intros Hin. unfold unwantBlocks. by apply emits_consume. Qed.

End OneShot.

(** ** A block from a peer reaches a get *)

Section Exchange.

Context {W : Type} `{Collaborators W}.
Variable toB58String : Key → string.

Local Abbreviation State := (Bitswap W).

(** A block event whose last listener is the block listener of an open
    stream, the listeners before it being of other streams: the stream
    reads the block. *)
Lemma emit_last_block_listener (event : string) (block : Block)
    (others : list Listener) (b1 : Listener) (s1 : nat) (st : State) :
  listeners_of event st = others ++ [b1] →
  Forall (λ l, listener_stream l ≠ s1) others →
  listener_body b1 = BlockListener s1 →
  (s1 < length (streams st))%nat →
  pusher_ended (the_stream s1 st) = None →
  the_stream s1 (emit toB58String event (Some block) st) =
  pushed toB58String block (the_stream s1 st).
Proof.
  intros Hls Hoth Hb1 Hlt Hopen. unfold emit.
  change (listeners_of event (record (EvEmit event (Some block)) st))
    with (listeners_of event st).
  rewrite Hls, foldl_app.
  destruct (call_listeners_other toB58String event (Some block) others s1
              (record (EvEmit event (Some block)) st) Hoth) as [H0 Hl0].
  set (st0 := foldl _ (record (EvEmit event (Some block)) st) others) in *.
  change (the_stream ?s (record ?ev st)) with (the_stream s st) in H0.
  change (length (streams (record ?ev st))) with (length (streams st)) in Hl0.
  clearbody st0.
  cbn [foldl]. unfold call_listener. rewrite Hb1.
  rewrite the_stream_pusher_push.
  - by rewrite the_stream_removeListener, H0.
  - by rewrite streams_removeListener, Hl0.
  - by rewrite the_stream_removeListener, H0.
Qed.

(** A message of one block, up to the block. *)
Lemma receive_single_block (peerId : PeerId) (incoming : Message) (block : Block)
    (st : State) (err : option Error) (w : W) :
  msg_blocks incoming = [block] →
  engine_messageReceived peerId incoming (collaborators st) = (err, w) →
  ∃ st_c,
    receiveMessage_result toB58String peerId incoming st =
    receive_block_result toB58String peerId block st_c ∧
    collaborators st_c = w ∧
    counters st_c = counters st ∧
    notifications st_c = notifications st ∧
    streams st_c = streams st.
Proof.
  intros Hblocks Hengine. unfold receiveMessage_result. simpl.
  rewrite Hengine, Hblocks. simpl.
  set (st_e := match err with
               | Some _ => log DebugLog "failed to receive message" _ _
               | None => _
               end).
  assert (collaborators st_e = w ∧ counters st_e = counters st ∧
          notifications st_e = notifications st ∧ streams st_e = streams st)
    as (Hc & Hco & Hn & Hs) by (subst st_e; by destruct err).
  clearbody st_e.
  destruct (WantList.contains _ _); simpl.
  - match goal with |- context [wm_cancelWants _ ?ks ?s] =>
      destruct (wm_cancelWants_spec toB58String ks s)
        as (Hc' & Hb' & Hd' & Hdd' & Hn' & Hs' & _) end.
    eexists. split; [reflexivity|]. unfold counters in *.
    rewrite Hc', Hb', Hd', Hdd', Hn', Hs'. done.
  - match goal with |- context [wm_cancelWants _ ?ks ?s] =>
      destruct (wm_cancelWants_spec toB58String ks s)
        as (Hc' & Hb' & Hd' & Hdd' & Hn' & Hs' & _) end.
    eexists. split; [reflexivity|]. unfold counters in *.
    rewrite Hc', Hb', Hd', Hdd', Hn', Hs'. done.
Qed.

(** A block of a message whose put succeeds at once, up to the emit. *)
Lemma receive_block_put (peerId : PeerId) (block : Block) (st : State)
    (r : Error + bool) (w1 w2 : W) :
  blockstore_has (key block) (collaborators st) = (r, w1) →
  blockstore_putStream block w1 = (None, w2) →
  ∃ st_l,
    receive_block_result toB58String peerId block st =
    record (EvEngineReceivedBlock block)
      (emit toB58String (blockEvent (toB58String (key block))) (Some block) st_l) ∧
    collaborators st_l = w2 ∧
    blocksRecvd st_l = blocksRecvd st + 1 ∧
    notifications st_l = notifications st ∧
    streams st_l = streams st.
Proof.
  intros Hhas Hput.
  unfold receive_block_result, updateReceiveCounters_result, has_result. simpl.
  rewrite Hhas.
  destruct r as [err|[|]]; simpl;
    unfold hasBlock_result, tryPutBlock_result; simpl;
    unfold put_result; simpl; rewrite Hput; simpl.
  all: eexists; split; [reflexivity|]; done.
Qed.

(** X14. A get that waits for a key, then an inbound message that
    carries the block of that key, with a put that succeeds: the block
    reaches the get through [hasBlock] and the emitter.  The get, which had
    read nothing and was open, reads the block and ends with no error, and
    the callback of [_receiveMessage] is called with no error.  This holds
    whatever the blockstore answers when [_receiveMessage] asks whether it
    has the block, whatever the engine makes of the message, and whatever
    gets of known streams already wait for the key. *)
Theorem block_from_peer_completes_get (peerId : PeerId) (incoming : Message)
    (block : Block) (st : State) (err : option Error) (r : Error + bool)
    (w1 w2 w3 w4 : W) :
  listeners_known (blockEvent (toB58String (key block))) st →
  msg_blocks incoming = [block] →
  blockstore_has (key block) (collaborators st) = (inr false, w1) →
  engine_messageReceived peerId incoming w1 = (err, w2) →
  blockstore_has (key block) w2 = (r, w3) →
  blockstore_putStream block w3 = (None, w4) →
  ∃ st1 st2,
    get_one toB58String (key block) st = (length (streams st), st1) ∧
    (∀ cb, _receiveMessage toB58String peerId incoming cb st1 =
           call (or_noop cb) None st2) ∧
    emitted (the_stream (length (streams st)) st1) = [] ∧
    pusher_ended (the_stream (length (streams st)) st1) = None ∧
    emitted (the_stream (length (streams st)) st2) = [block] ∧
    pusher_ended (the_stream (length (streams st)) st2) = Some None ∧
    collaborators st2 = w4.
Proof.
  intros Hknown Hblocks Hhas1 Hengine Hhas2 Hput.
  set (keyS := toB58String (key block)) in *.
  unfold listeners_known in Hknown.
  set (others := listeners_of (blockEvent keyS) st) in *.
  destruct (get_one_miss toB58String (key block) st w1 Hhas1)
    as (Hsid & Hs1 & Hn1 & _ & Hc1 & _).
  set (st1 := (get_one toB58String (key block) st).2) in *.
  fold keyS in Hs1, Hn1. fold others in Hn1.
  set (u := mkListener (next_listener st)
              (UnwantListener (length (streams st)) (key block))) in *.
  set (b := mkListener (S (next_listener st)) (BlockListener (length (streams st)))) in *.
  assert (the_stream (length (streams st)) st1 = waiting_stream keyS u b) as Hw.
  { unfold the_stream. rewrite Hs1. by rewrite list_lookup_middle. }
  rewrite <-Hc1 in Hengine.
  destruct (receive_single_block peerId incoming block st1 err w2 Hblocks Hengine)
    as (st_c & Hrc & Hc_c & _ & Hn_c & Hs_c).
  rewrite <-Hc_c in Hhas2.
  destruct (receive_block_put peerId block st_c r w3 w4 Hhas2 Hput)
    as (st_l & Hrl & Hc_l & _ & Hn_l & Hs_l).
  fold keyS in Hrl.
  assert (the_stream (length (streams st)) st_l = waiting_stream keyS u b) as Hw_l.
  { unfold the_stream. rewrite Hs_l, Hs_c. exact Hw. }
  pose proof (emit_last_block_listener (blockEvent keyS) block others b
                (length (streams st)) st_l) as Hemit.
  rewrite Hw_l in Hemit.
  exists st1, (receiveMessage_result toB58String peerId incoming st1).
  split; [by rewrite <-Hsid; destruct (get_one _ _ st)|].
  split; [intros cb; apply receiveMessage_calls_back|].
  rewrite Hw. do 2 (split; [done|]).
  rewrite Hrc, Hrl.
  change (the_stream ?s (record ?ev ?x)) with (the_stream s x).
  rewrite Hemit.
  - unfold pushed, cleaned, waiting_stream. simpl. fold keyS.
    rewrite !delete_insert_eq, !delete_empty, map_size_empty. simpl.
    do 2 (split; [done|]).
    destruct (emit_outside toB58String (blockEvent keyS) (Some block) st_l)
      as [Hcore _].
    unfold core in Hcore. simpl. congruence.
  - unfold listeners_of at 1. rewrite Hn_l, Hn_c, Hn1.
    by rewrite lookup_insert_eq.
  - eapply Forall_impl; [exact Hknown|]. simpl. lia.
  - done.
  - rewrite Hs_l, Hs_c, Hs1, length_app. simpl. lia.
  - done.
Qed.

End Exchange.

(** ** Gets that wait *)

Section Waiting.

Context {W : Type} `{Collaborators W}.
Variable toB58String : Key → string.

Local Abbreviation State := (Bitswap W).

Lemma emitted_cleanupListener sid sid' k (st : State) :
  emitted (the_stream sid' (cleanupListener toB58String sid k st)) =
  emitted (the_stream sid' st).
Proof.
  destruct (decide (sid = sid')) as [<-|Hne].
  - destruct (decide (sid < length (streams st))%nat) as [Hlt|Hge].
    + by rewrite the_stream_cleanupListener.
    + by rewrite !the_stream_beyond
        by (rewrite ?length_streams_cleanupListener; lia).
  - by rewrite the_stream_cleanupListener_ne.
Qed.

Lemma emitted_emit_unwant event sid (st : State) :
  emitted (the_stream sid (emit toB58String event None st)) = emitted (the_stream sid st).
Proof.
  unfold emit.
  generalize (listeners_of event (record (EvEmit event None) st)). intros ls.
  change (the_stream sid st) with (the_stream sid (record (EvEmit event None) st)).
  generalize (record (EvEmit event None) st). clear st.
  induction ls as [|l ls IH]; intros st; [done|].
  cbn [foldl]. rewrite IH. unfold call_listener.
  destruct (listener_body l) as [sid' k|sid'].
  - rewrite emitted_cleanupListener.
    change (the_stream sid (log ?c ?f ?a ?x)) with (the_stream sid x).
    by rewrite the_stream_removeListener.
  - by rewrite the_stream_removeListener.
Qed.

(** X15. [unwantBlocks] hands no block to any get: whatever the keys and
    whoever waits, every get stream has read after it exactly what it had
    read before, and the receive counters are as they were. *)
Theorem unwant_delivers_no_block (keys : list Key) (sid : nat) (st : State) :
  emitted (the_stream sid (unwantBlocks toB58String keys st)) =
  emitted (the_stream sid st) ∧
  counters (unwantBlocks toB58String keys st) = counters st.
Proof.
  split; [|apply counters_unwantBlocks].
  unfold unwantBlocks.
  destruct (wm_unwantBlocks_spec toB58String keys st) as (_ & Hs & _).
  assert (the_stream sid (wm_unwantBlocks toB58String keys st) = the_stream sid st)
    as <- by (unfold the_stream; by rewrite Hs).
  generalize (wm_unwantBlocks toB58String keys st) as st0. clear.
  induction keys as [|k keys IH]; intros st0; [done|].
  cbn [foldl]. rewrite IH. apply emitted_emit_unwant.
Qed.

(** X16. A get of a key that the blockstore lacks: the blockstore is
    asked whether it has the key and is not read; [addListener] makes two
    fresh listeners and registers them with [once] after those already
    there, the unwant listener under [unwant:<keyB58>] and the block
    listener under [block:<keyB58>]; then [wm.wantBlocks([key])] is called.
    The sink has ended, the source is open and has emitted nothing. *)
Theorem get_of_missing_key_waits (k : Key) (st : State) (w : W) :
  blockstore_has k (collaborators st) = (inr false, w) →
  ∃ st1 enq,
    get_one toB58String k st = (length (streams st), st1) ∧
    the_stream (length (streams st)) st1 =
    waiting_stream (toB58String k)
      (mkListener (next_listener st) (UnwantListener (length (streams st)) k))
      (mkListener (S (next_listener st)) (BlockListener (length (streams st)))) ∧
    listeners_of (unwantEvent (toB58String k)) st1 =
    listeners_of (unwantEvent (toB58String k)) st ++
    [mkListener (next_listener st) (UnwantListener (length (streams st)) k)] ∧
    listeners_of (blockEvent (toB58String k)) st1 =
    listeners_of (blockEvent (toB58String k)) st ++
    [mkListener (S (next_listener st)) (BlockListener (length (streams st)))] ∧
    trace st1 =
    trace st ++ EvBlockstoreHas k (inr false) :: EvWmWantBlocks [k] :: enq ∧
    Forall is_enqueue enq ∧
    collaborators st1 = w ∧
    counters st1 = counters st.
Proof.
  intros Hhas.
  destruct (get_one_miss toB58String k st w Hhas)
    as (Hsid & Hs1 & Hn1 & _ & Hc1 & _).
  assert (∃ enq, trace (get_one toB58String k st).2 =
                 trace st ++ EvBlockstoreHas k (inr false) :: EvWmWantBlocks [k] :: enq ∧
                 Forall is_enqueue enq) as (enq & Ht & Henq).
  { unfold get_one, getStream, sink. cbn [sink_keys]. unfold sink_key.
    change (collaborators (set_streams ?x st)) with (collaborators st).
    rewrite Hhas. cbv beta iota delta [snd fst].
    match goal with |- context [sink_onEnd ?sid ?e ?s] =>
      destruct (but_streams_sink_onEnd sid e s) as (Hout & _) end.
    apply outside_fields in Hout as (_ & _ & _ & ->).
    unfold wm_wantBlocks.
    match goal with |- context [broadcast ?es ?s] =>
      destruct (broadcast_spec es s) as (_ & enq & -> & Henq) end.
    exists enq. simpl. split; [by rewrite <-?app_assoc|].
    eapply Forall_impl; [exact Henq|]. by intros ev [p ->]. }
  exists (get_one toB58String k st).2, enq.
  split; [by rewrite <-Hsid; destruct (get_one _ _ st)|].
  split; [unfold the_stream; rewrite Hs1; by rewrite list_lookup_middle|].
  split.
  { unfold listeners_of at 1. rewrite Hn1.
    rewrite lookup_insert_ne by (apply not_eq_sym, event_names_differ).
    by rewrite lookup_insert_eq. }
  split; [unfold listeners_of at 1; by rewrite Hn1, lookup_insert_eq|].
  split; [done|]. split; [done|]. split; [done|].
  unfold get_one. change ((getStream st).1) with (length (streams st)).
  simpl. by rewrite counters_sink.
Qed.

End Waiting.

(** ** What holds of every get stream *)

Section Invariants.

Context {W : Type} `{Collaborators W}.
Variable toB58String : Key → string.

Local Abbreviation State := (Bitswap W).

Lemma step_keeps_end (s s' : GetStream) (e : option Error) :
  stream_step toB58String s s' →
  pusher_ended s = Some e →
  pusher_ended s' = Some e ∧ emitted s' = emitted s.
Proof.
  intros Hstep He. destruct Hstep as [keyS u b s _|keyS s|block s Hopen|err s]; simpl.
  - done.
  - rewrite He. simpl. by case_match.
  - congruence.
  - by rewrite He.
Qed.

Lemma steps_keep_end (s s' : GetStream) (e : option Error) :
  rtc (stream_step toB58String) s s' →
  pusher_ended s = Some e →
  pusher_ended s' = Some e ∧ emitted s' = emitted s.
Proof.
  induction 1 as [s|s1 s2 s3 Hstep _ IH]; intros He; [done|].
  destruct (step_keeps_end _ _ _ Hstep He) as [He2 Hem2].
  destruct (IH He2) as [He3 Hem3]. split; congruence.
Qed.

Lemma step_finished (s s' : GetStream) :
  stream_step toB58String s s' → finished s = true → finished s' = true.
Proof. by intros [keyS u b s0 _|keyS s0|block s0 Hopen|err s0]. Qed.

Lemma steps_finished (s s' : GetStream) :
  rtc (stream_step toB58String) s s' → finished s = true → finished s' = true.
Proof.
  induction 1 as [s|s1 s2 s3 Hstep _ IH]; [done|].
  intros Hf. apply IH. by eapply step_finished.
Qed.

Lemma settled_cleaned (keyS : string) (s : GetStream) :
  settled s → settled (cleaned keyS s).
Proof.
  intros (Hdom & Hend & Hclean). unfold settled, cleaned. simpl.
  split; [by rewrite !dom_delete_L, Hdom|].
  destruct (finished s) eqn:Hf; simpl.
  - case_bool_decide as Hsz.
    + apply map_size_empty_iff in Hsz. split; [done|].
      intros _. done.
    + split.
      * intros _ He. rewrite He, map_size_empty in Hsz. done.
      * intros He. destruct (Hclean He) as [_ Hb]. rewrite Hb in Hsz.
        rewrite delete_empty, map_size_empty in Hsz. done.
  - split; [done|]. intros He. by destruct (Hclean He).
Qed.

Lemma step_settled (s s' : GetStream) :
  stream_step toB58String s s' → settled s → settled s'.
Proof.
  intros Hstep Hs.
  destruct Hstep as [keyS u b s Hf|keyS s|block s Hopen|err s].
  - destruct Hs as (Hdom & Hend & Hclean). unfold settled, listening. simpl.
    split; [by rewrite !dom_insert_L, Hdom|]. split.
    + intros _ He. by apply insert_non_empty in He.
    + intros He. destruct (Hclean He). congruence.
  - by apply settled_cleaned.
  - pose proof (settled_cleaned (toB58String (key block)) s Hs)
      as (Hdom & Hend & Hclean).
    unfold settled, pushed. simpl in *.
    split; [done|]. split.
    + intros Hf. rewrite Hf in *. by apply Hend.
    + intros He. destruct (Hclean He) as [Hf Hb]. done.
  - destruct Hs as (Hdom & Hend & Hclean). unfold settled, sunk. simpl.
    split; [done|]. split.
    + intros _ Hb. destruct (pusher_ended s); [done|].
      destruct err; [done|]. rewrite Hb, map_size_empty. done.
    + destruct (pusher_ended s) as [e|] eqn:He.
      * intros He'. destruct (Hclean He') as [_ Hb]. done.
      * destruct err; [done|]. case_bool_decide as Hsz; [|done].
        apply map_size_empty_iff in Hsz. done.
Qed.

Lemma steps_settled (s s' : GetStream) :
  rtc (stream_step toB58String) s s' → settled s → settled s'.
Proof.
  induction 1 as [s|s1 s2 s3 Hstep _ IH]; [done|].
  intros Hs. apply IH. by eapply step_settled.
Qed.

Lemma settled_new : settled new_stream.
Proof. unfold settled, new_stream. simpl. by rewrite !dom_empty_L. Qed.

Lemma history_run_all (ms : list Method) (st : State) :
  ∃ st', run_all toB58String ms st = Returned st' ∧
         ∀ sid, rtc (stream_step toB58String) (the_stream sid st) (the_stream sid st').
Proof.
  revert st. induction ms as [|m ms IH]; intros st; simpl.
  - by exists st.
  - destruct (history_run toB58String m st) as (st1 & -> & H1).
    destruct (IH st1) as (st2 & -> & H2).
    exists st2. split; [done|]. intros sid. etrans; [apply H1|apply H2].
Qed.

Lemma settled_run (m : Method) (st : State) :
  all_settled st →
  ∃ st', run toB58String m st = Returned st' ∧ all_settled st'.
Proof.
  intros Hall. unfold all_settled in *. rewrite Forall_lookup in Hall.
  assert (∀ st' : State, (∀ sid, rtc (stream_step toB58String)
                           (the_stream sid st) (the_stream sid st')) →
                 (∀ sid, (length (streams st) ≤ sid < length (streams st'))%nat →
                         finished (the_stream sid st') = true) →
                 Forall (λ s, settled s ∧ finished s = true) (streams st')) as Hkey.
  { intros st' Hsteps Hnew. apply Forall_lookup. intros sid s' Hs'.
    assert (the_stream sid st' = s') as Hthe by (unfold the_stream; by rewrite Hs').
    specialize (Hsteps sid). rewrite Hthe in Hsteps.
    destruct (streams st !! sid) as [s|] eqn:Hs.
    - destruct (Hall sid s Hs) as [Hset Hfin].
      assert (the_stream sid st = s) as Hthe0 by (unfold the_stream; by rewrite Hs).
      rewrite Hthe0 in Hsteps.
      split; [by eapply steps_settled|by eapply steps_finished].
    - apply lookup_ge_None in Hs. rewrite the_stream_beyond in Hsteps by done.
      split; [eapply steps_settled; [done|apply settled_new]|].
      rewrite <-Hthe. apply Hnew. split; [done|]. by eapply lookup_lt_Some. }
  destruct m.
  5: { exists (sink toB58String (getStream st).1 keys upstream_end (getStream st).2).
       split; [reflexivity|].
       destruct (getStream_sink toB58String keys upstream_end st) as (Hl & Hsteps & Hf).
       apply Hkey; [done|].
       intros sid [Hge Hlt]. rewrite Hl in Hlt.
       replace sid with (length (streams st)) by lia. done. }
  all: match goal with |- context [run _ ?m _] =>
         destruct (follows_run toB58String m st I) as (st' & Hr & Hl & Hfo) end;
    exists st'; (split; [done|]); (apply Hkey; [done|]); intros sid; lia.
Qed.

(** X17. Once the source of a get stream has ended, whatever is called
    afterwards, nothing more is read from it, and the way it ended (with
    or without an error) stays: a block that arrives late is dropped. *)
Theorem ended_stream_is_final (ms : list Method) (sid : nat) (e : option Error)
    (st : State) :
  pusher_ended (the_stream sid st) = Some e →
  ∃ st',
    run_all toB58String ms st = Returned st' ∧
    pusher_ended (the_stream sid st') = Some e ∧
    emitted (the_stream sid st') = emitted (the_stream sid st).
Proof.
  intros He. destruct (history_run_all ms st) as (st' & Hr & Hsteps).
  exists st'. split; [done|]. by eapply steps_keep_end.
Qed.

(** X19. Whatever the calls made on a new instance, none throws, and of
    every get stream there is then: its sink has ended, its two listener
    objects hold the same keys, its source has ended if no block listener
    is left, and its source has ended without an error only if no block
    listener is left. *)
Theorem streams_are_settled (ms : list Method) (w : W) :
  ∃ st',
    run_all toB58String ms (constructor w) = Returned st' ∧
    all_settled st'.
Proof.
  assert (all_settled (constructor w)) as Hinit by constructor.
  revert Hinit. generalize (constructor w).
  induction ms as [|m ms IH]; intros st Hall; simpl.
  - by exists st.
  - destruct (settled_run m st Hall) as (st1 & -> & H1). by apply IH.
Qed.

Lemma served_step_no_error (s s' : GetStream) :
  served_step toB58String s s' →
  pusher_ended s = None ∨ pusher_ended s = Some None →
  pusher_ended s' = None ∨ pusher_ended s' = Some None.
Proof.
  intros [keyS s0|block s0 Hopen] Hs; simpl.
  - case_match; [|done]. right. by destruct Hs as [->| ->].
  - case_match; [|by left]. right. by rewrite Hopen.
Qed.

Lemma served_steps_no_error (s s' : GetStream) :
  rtc (served_step toB58String) s s' →
  pusher_ended s = None ∨ pusher_ended s = Some None →
  pusher_ended s' = None ∨ pusher_ended s' = Some None.
Proof.
  induction 1 as [s|s1 s2 s3 Hstep _ IH]; [done|].
  intros Hs. apply IH. by eapply served_step_no_error.
Qed.

(** What a method does to a stream that is there already. *)
Lemma served_run (m : Method) (sid : nat) (st : State) :
  (sid < length (streams st))%nat →
  ∃ st',
    run toB58String m st = Returned st' ∧
    rtc (served_step toB58String) (the_stream sid st) (the_stream sid st') ∧
    (sid < length (streams st'))%nat.
Proof.
  intros Hlt. destruct m.
  5: { exists (sink toB58String (getStream st).1 keys upstream_end (getStream st).2).
       split; [reflexivity|].
       destruct (getStream_sink toB58String keys upstream_end st) as (Hl & _).
       rewrite Hl. split; [|lia].
       rewrite the_stream_sink_ne by (simpl; lia).
       by rewrite the_stream_getStream. }
  all: match goal with |- context [run _ ?m _] =>
         destruct (serves_run toB58String m st I) as (st' & Hr & Hl & Hs) end;
    exists st'; (split; [done|]); (split; [apply Hs|by rewrite Hl]).
Qed.

Lemma served_run_all (ms : list Method) (sid : nat) (st : State) :
  (sid < length (streams st))%nat →
  ∃ st',
    run_all toB58String ms st = Returned st' ∧
    rtc (served_step toB58String) (the_stream sid st) (the_stream sid st').
Proof.
  revert st. induction ms as [|m ms IH]; intros st Hlt; simpl.
  - by exists st.
  - destruct (served_run m sid st Hlt) as (st1 & -> & H1 & Hlt1).
    destruct (IH st1 Hlt1) as (st2 & -> & H2).
    exists st2. split; [done|]. by etrans.
Qed.

(** X20. Only its own sink ends a get with an error.  Of a get stream
    that is there and whose source is open, whatever is called afterwards
    (inbound messages, [hasBlock] with puts that fail, [unwantBlocks],
    other gets whose sinks fail, ...), the source is open or has ended
    with no error. *)
Theorem open_get_never_fails (ms : list Method) (sid : nat) (st : State) :
  (sid < length (streams st))%nat →
  pusher_ended (the_stream sid st) = None →
  ∃ st',
    run_all toB58String ms st = Returned st' ∧
    (pusher_ended (the_stream sid st') = None ∨
     pusher_ended (the_stream sid st') = Some None).
Proof.
  intros Hlt Hopen. destruct (served_run_all ms sid st Hlt) as (st' & Hr & Hsteps).
  exists st'. split; [done|]. eapply served_steps_no_error; [exact Hsteps|by left].
Qed.

End Invariants.

(** ** The emitter holds what [addListener] registered *)

Section Sorted.

Context {W : Type} `{Collaborators W}.
Variable toB58String : Key → string.

Local Abbreviation State := (Bitswap W).

Lemma sorted_step (st st' : State) :
  no_new_listeners st st' →
  emitter_sorted toB58String st → emitter_sorted toB58String st'.
Proof.
  intros [Hl _] Hs event. apply Forall_forall. intros l Hin%Hl.
  specialize (Hs event). rewrite Forall_forall in Hs. by apply Hs.
Qed.

Lemma sorted_constructor (w : W) : emitter_sorted toB58String (constructor w).
Proof.
  intros event. unfold listeners_of. simpl. rewrite lookup_empty. constructor.
Qed.

Lemma sorted_addListener sid k (st : State) :
  emitter_sorted toB58String st →
  emitter_sorted toB58String (addListener toB58String sid k st).
Proof.
  intros Hs event. unfold addListener, once, listeners_of. simpl.
  pose proof (Hs event) as Hev.
  pose proof (Hs (unwantEvent (toB58String k))) as Hu.
  pose proof (Hs (blockEvent (toB58String k))) as Hb.
  unfold listeners_of in Hev, Hu, Hb.
  rewrite (lookup_insert_ne _ (unwantEvent _) (blockEvent _))
    by apply event_names_differ.
  destruct (decide (blockEvent (toB58String k) = event)) as [<-|Hne1].
  - rewrite lookup_insert_eq. simpl. apply Forall_app. split; [done|].
    repeat constructor. unfold registered_as. simpl. by eexists.
  - rewrite lookup_insert_ne by done.
    destruct (decide (unwantEvent (toB58String k) = event)) as [<-|Hne2].
    + rewrite lookup_insert_eq. simpl. apply Forall_app. split; [done|].
      by repeat constructor.
    + by rewrite lookup_insert_ne.
Qed.

Lemma sorted_sink_key sid k (st : State) :
  emitter_sorted toB58String st →
  emitter_sorted toB58String (sink_key toB58String sid k st).2.
Proof.
  intros Hs. unfold sink_key.
  destruct (blockstore_has k (collaborators st)) as [[err|[|]] w]; simpl.
  - eapply sorted_step; [|exact Hs]. by apply no_new_same.
  - destruct (blockstore_getStream k _) as [[err|block] w']; simpl.
    + eapply sorted_step; [|exact Hs]. by apply no_new_same.
    + match goal with |- context [wm_cancelWants _ ?ks ?s] =>
        destruct (wm_cancelWants_spec toB58String ks s)
          as (_ & _ & _ & _ & Hn & Hst & _) end.
      simpl in Hn, Hst.
      eapply sorted_step; [|exact Hs].
      eapply no_new_trans; [|apply no_new_pusher_push]. by apply no_new_same.
  - match goal with |- context [wm_wantBlocks _ ?ks ?s] =>
      pose proof (no_new_wm_wantBlocks toB58String ks s) as Hnn end.
    eapply sorted_step; [exact Hnn|].
    apply sorted_addListener.
    eapply sorted_step; [|exact Hs]. by apply no_new_same.
Qed.

Lemma sorted_sink sid (keys : list Key) (upstream_end : option Error) (st : State) :
  emitter_sorted toB58String st →
  emitter_sorted toB58String (sink toB58String sid keys upstream_end st).
Proof.
  intros Hs. unfold sink.
  assert (emitter_sorted toB58String (sink_keys toB58String sid keys st).2) as Hs'.
  { revert st Hs. induction keys as [|k keys IH]; intros st Hs; [done|].
    cbn [sink_keys].
    pose proof (sorted_sink_key sid k st Hs) as Hs1.
    destruct (sink_key toB58String sid k st) as [[e|] st1]; [done|].
    by apply IH. }
  destruct (sink_keys toB58String sid keys st) as [err st1]. simpl in Hs'.
  eapply sorted_step; [|exact Hs'].
  unfold sink_onEnd.
  eapply no_new_trans; [apply no_new_update_stream|].
  destruct (match err with Some e => Some e | None => upstream_end end).
  - apply no_new_update_stream.
  - apply no_new_finish.
Qed.

Lemma sorted_run (m : Method) (st : State) :
  emitter_sorted toB58String st →
  ∃ st', run toB58String m st = Returned st' ∧ emitter_sorted toB58String st'.
Proof.
  intros Hs. destruct m; simpl.
  - rewrite receiveMessage_calls_back. eexists. split; [reflexivity|].
    eapply sorted_step; [apply no_new_receiveMessage|done].
  - eexists. split; [reflexivity|].
    eapply sorted_step; [|exact Hs]. by apply no_new_same.
  - eexists. split; [reflexivity|].
    eapply sorted_step; [|exact Hs]. by apply no_new_same.
  - eexists. split; [reflexivity|].
    eapply sorted_step; [|exact Hs]. by apply no_new_same.
  - eexists. split; [reflexivity|]. apply sorted_sink.
    eapply sorted_step; [|exact Hs]. split; [done|].
    simpl. rewrite length_app. lia.
  - eexists. split; [reflexivity|].
    eapply sorted_step; [apply no_new_unwantBlocks|done].
  - eexists. split; [reflexivity|].
    destruct (wm_cancelWants_spec toB58String keys st)
      as (_ & _ & _ & _ & Hn & Hst & _).
    eapply sorted_step; [|exact Hs]. by apply no_new_same.
  - rewrite hasBlock_calls_back. eexists. split; [reflexivity|].
    eapply sorted_step; [apply no_new_hasBlock|done].
  - eexists. split; [reflexivity|].
    eapply sorted_step; [|exact Hs]. by apply no_new_same.
  - eexists. split; [reflexivity|].
    eapply sorted_step; [|exact Hs]. by apply no_new_same.
Qed.

(** X21. Whatever the calls made on a new instance, none throws, and the
    emitter then holds only what [addListener] registered: every listener
    under an event was made by a [getStream] call that the instance knows;
    an unwant listener is registered under the unwant event of its own
    key, and a block listener under a block event.  So an unwant event
    never reaches a block listener, and a block never reaches an unwant
    listener. *)
Theorem emitter_holds_what_was_registered (ms : list Method) (w : W) :
  ∃ st',
    run_all toB58String ms (constructor w) = Returned st' ∧
    all_listeners_known st' ∧
    emitter_sorted toB58String st'.
Proof.
  pose proof (known_constructor w) as Hknown.
  pose proof (sorted_constructor w) as Hsorted.
  revert Hknown Hsorted. generalize (constructor w).
  induction ms as [|m ms IH]; intros st Hknown Hsorted; simpl.
  - by exists st.
  - destruct (known_run toB58String m st Hknown) as (st1 & Hr & Hk1).
    destruct (sorted_run m st Hsorted) as (st1' & Hr' & Hs1).
    rewrite Hr in Hr'. injection Hr' as <-. rewrite Hr. by apply IH.
Qed.

End Sorted.

(** ** A get of two keys *)

Section TwoKeys.

Context {W : Type} `{Collaborators W}.
Variable toB58String : Key → string.

Local Abbreviation State := (Bitswap W).

Lemma blockEvent_inj (a b : string) : blockEvent a = blockEvent b → a = b.
Proof. unfold blockEvent. simpl. intros Heq. by simplify_eq. Qed.

(** [cleanupListener] touches the two events of its key and no other. *)
Lemma cleanupListener_other_event event sid k (st : State) :
  event ≠ unwantEvent (toB58String k) →
  event ≠ blockEvent (toB58String k) →
  listeners_of event (cleanupListener toB58String sid k st) = listeners_of event st.
Proof.
  intros Hu Hb. unfold cleanupListener. rewrite listeners_finish.
  set (st1 := match unwantListeners (the_stream sid st) !! _ with
              | Some l => update_stream sid _ (removeListener _ l st)
              | None => st
              end).
  assert (listeners_of event st1 = listeners_of event st) as Hs1.
  { subst st1. case_match; [|done].
    rewrite listeners_update_stream. by apply listeners_removeListener_ne. }
  clearbody st1. case_match; [|done].
  rewrite listeners_update_stream.
  by rewrite listeners_removeListener_ne.
Qed.

Lemma pusher_push_other_event event sid block (st : State) :
  event ≠ unwantEvent (toB58String (key block)) →
  event ≠ blockEvent (toB58String (key block)) →
  listeners_of event (pusher_push toB58String sid block st) = listeners_of event st.
Proof.
  intros Hu Hb. unfold pusher_push. case_match; [done|].
  rewrite listeners_update_stream. by apply cleanupListener_other_event.
Qed.

(** The emit of the block event of a block, to block listeners, touches
    the two events of the key of the block and no other. *)
Lemma emit_other_event event (block : Block) (st : State) :
  Forall (λ l, ∃ sid, listener_body l = BlockListener sid)
    (listeners_of (blockEvent (toB58String (key block))) st) →
  event ≠ unwantEvent (toB58String (key block)) →
  event ≠ blockEvent (toB58String (key block)) →
  listeners_of event
    (emit toB58String (blockEvent (toB58String (key block))) (Some block) st) =
  listeners_of event st.
Proof.
  intros Hall Hu Hb. unfold emit.
  change (listeners_of (blockEvent (toB58String (key block)))
            (record (EvEmit (blockEvent (toB58String (key block))) (Some block)) st))
    with (listeners_of (blockEvent (toB58String (key block))) st).
  revert Hall. generalize (listeners_of (blockEvent (toB58String (key block))) st).
  intros ls Hall.
  change (listeners_of event st)
    with (listeners_of event
            (record (EvEmit (blockEvent (toB58String (key block))) (Some block)) st)).
  generalize (record (EvEmit (blockEvent (toB58String (key block))) (Some block)) st).
  clear st. induction Hall as [|l ls [sid Hl] _ IH]; intros st; [done|].
  cbn [foldl]. rewrite IH. unfold call_listener. rewrite Hl.
  rewrite pusher_push_other_event by done.
  by rewrite listeners_removeListener_ne.
Qed.

(** A key that the blockstore lacks, through the sink of a stream. *)
Lemma sink_key_miss sid k (st : State) (w : W) :
  (sid < length (streams st))%nat →
  blockstore_has k (collaborators st) = (inr false, w) →
  (sink_key toB58String sid k st).1 = None ∧
  the_stream sid (sink_key toB58String sid k st).2 =
  listening (toB58String k)
    (mkListener (next_listener st) (UnwantListener sid k))
    (mkListener (S (next_listener st)) (BlockListener sid))
    (the_stream sid st) ∧
  length (streams (sink_key toB58String sid k st).2) = length (streams st) ∧
  listeners_of (blockEvent (toB58String k)) (sink_key toB58String sid k st).2 =
  listeners_of (blockEvent (toB58String k)) st ++
  [mkListener (S (next_listener st)) (BlockListener sid)] ∧
  (∀ event, event ≠ blockEvent (toB58String k) → event ≠ unwantEvent (toB58String k) →
            listeners_of event (sink_key toB58String sid k st).2 =
            listeners_of event st) ∧
  collaborators (sink_key toB58String sid k st).2 = w ∧
  next_listener (sink_key toB58String sid k st).2 = S (S (next_listener st)).
Proof.
  intros Hlt Hhas. unfold sink_key. rewrite Hhas.
  set (st0 := record (EvBlockstoreHas k (inr false)) (set_collaborators w st)).
  cbv beta iota delta [fst snd].
  destruct (counters_wm_wantBlocks toB58String [k] (addListener toB58String sid k st0))
    as (_ & Hc & Hn & Hnl).
  pose proof (streams_wm_wantBlocks toB58String [k] (addListener toB58String sid k st0))
    as Hs.
  split; [done|]. split; [|split; [|split; [|split; [|split]]]].
  - unfold the_stream. rewrite Hs.
    etrans; [apply (the_stream_addListener toB58String sid k st0); exact Hlt|].
    reflexivity.
  - rewrite Hs. etrans; [apply length_streams_addListener|done].
  - unfold listeners_of. rewrite Hn. unfold addListener, once, listeners_of. simpl.
    rewrite lookup_insert_eq. simpl.
    by rewrite lookup_insert_ne by apply event_names_differ.
  - intros event Hb Hu. unfold listeners_of. rewrite Hn.
    unfold addListener, once, listeners_of. simpl.
    by rewrite !lookup_insert_ne by done.
  - by rewrite Hc.
  - by rewrite Hnl.
Qed.

(** [hasBlock] with a put that succeeds at once, up to the emit. *)
Lemma hasBlock_put (block : Block) (st : State) (w : W) :
  blockstore_putStream block (collaborators st) = (None, w) →
  ∃ st_l,
    hasBlock_result toB58String block st =
    (None,
     record (EvEngineReceivedBlock block)
       (emit toB58String (blockEvent (toB58String (key block))) (Some block) st_l)) ∧
    collaborators st_l = w ∧
    notifications st_l = notifications st ∧
    streams st_l = streams st.
Proof.
  intros Hput. unfold hasBlock_result, tryPutBlock_result. simpl.
  unfold put_result. simpl. rewrite Hput. simpl.
  eexists. split; [reflexivity|]. done.
Qed.

Lemma sorted_block_listeners keyS (st : State) :
  emitter_sorted toB58String st →
  Forall (λ l, ∃ sid, listener_body l = BlockListener sid)
    (listeners_of (blockEvent keyS) st).
Proof.
  intros Hs. eapply Forall_impl; [apply (Hs (blockEvent keyS))|].
  intros l. unfold registered_as. destruct (listener_body l) as [sid k|sid].
  - intros Heq. symmetry in Heq. by apply event_names_differ in Heq.
  - intros _. by exists sid.
Qed.

(** X22. A get of two keys that the blockstore lacks, then [hasBlock]
    of the block of the first and [hasBlock] of the block of the second,
    each with a put that succeeds.  After the sink the get is open and has
    read nothing; after the first [hasBlock] it has read the first block
    and is still open, as it waits for the second; after the second it has
    read both blocks, in the order of their arrival, and has ended with no
    error.  The two keys differ in their base58 form.  Other gets may
    wait for them: the emitter is taken to hold only what [addListener]
    registered, as it does in every state reached from the constructor. *)
Theorem get_of_two_keys_ends_after_both (block1 block2 : Block) (st : State)
    (w1 w2 w3 w4 : W) :
  toB58String (key block1) ≠ toB58String (key block2) →
  all_listeners_known st →
  emitter_sorted toB58String st →
  blockstore_has (key block1) (collaborators st) = (inr false, w1) →
  blockstore_has (key block2) w1 = (inr false, w2) →
  blockstore_putStream block1 w2 = (None, w3) →
  blockstore_putStream block2 w3 = (None, w4) →
  ∃ st0 st1 st2,
    sink toB58String (getStream st).1 [key block1; key block2] None (getStream st).2 =
    st0 ∧
    (∀ cb, hasBlock toB58String block1 cb st0 = call (or_noop cb) None st1) ∧
    (∀ cb, hasBlock toB58String block2 cb st1 = call (or_noop cb) None st2) ∧
    emitted (the_stream (length (streams st)) st0) = [] ∧
    pusher_ended (the_stream (length (streams st)) st0) = None ∧
    emitted (the_stream (length (streams st)) st1) = [block1] ∧
    pusher_ended (the_stream (length (streams st)) st1) = None ∧
    emitted (the_stream (length (streams st)) st2) = [block1; block2] ∧
    pusher_ended (the_stream (length (streams st)) st2) = Some None.
Proof.
  intros Hne Hknown Hsorted Hhas1 Hhas2 Hput1 Hput2.
  set (sid := length (streams st)).
  set (keyS1 := toB58String (key block1)) in *.
  set (keyS2 := toB58String (key block2)) in *.
  set (others1 := listeners_of (blockEvent keyS1) st).
  set (others2 := listeners_of (blockEvent keyS2) st).
  assert (Forall (λ l, listener_stream l ≠ sid) others1) as Hoth1.
  { eapply Forall_impl; [apply (Hknown (blockEvent keyS1))|]. simpl. subst sid. lia. }
  assert (Forall (λ l, listener_stream l ≠ sid) others2) as Hoth2.
  { eapply Forall_impl; [apply (Hknown (blockEvent keyS2))|]. simpl. subst sid. lia. }
  pose proof (sorted_block_listeners keyS1 st Hsorted) as Hblock1.
  fold others1 in Hblock1.
  assert (blockEvent keyS1 ≠ blockEvent keyS2) as Hbb
    by (intros Heq%blockEvent_inj; done).
  (* the first key *)
  set (stg := (getStream st).2).
  assert ((sid < length (streams stg))%nat) as Hltg.
  { subst stg sid. simpl. rewrite length_app. simpl. lia. }
  assert (the_stream sid stg = new_stream) as Hthg.
  { subst stg. rewrite the_stream_getStream. by apply the_stream_beyond. }
  destruct (sink_key_miss sid (key block1) stg w1 Hltg Hhas1)
    as (He1 & Hth1 & Hl1 & Hlb1 & Hlo1 & Hc1 & _).
  fold keyS1 in Hth1, Hlb1, Hlo1.
  destruct (sink_key toB58String sid (key block1) stg) as [e1 sta] eqn:Hsk1.
  simpl in He1, Hth1, Hl1, Hlb1, Hlo1, Hc1. subst e1.
  set (u1 := mkListener (next_listener stg) (UnwantListener sid (key block1))) in *.
  set (b1 := mkListener (S (next_listener stg)) (BlockListener sid)) in *.
  (* the second key *)
  assert ((sid < length (streams sta))%nat) as Hlta by (by rewrite Hl1).
  rewrite <-Hc1 in Hhas2.
  destruct (sink_key_miss sid (key block2) sta w2 Hlta Hhas2)
    as (He2 & Hth2 & Hl2 & Hlb2 & Hlo2 & Hc2 & _).
  fold keyS2 in Hth2, Hlb2, Hlo2.
  destruct (sink_key toB58String sid (key block2) sta) as [e2 stb] eqn:Hsk2.
  simpl in He2, Hth2, Hl2, Hlb2, Hlo2, Hc2. subst e2.
  set (u2 := mkListener (next_listener sta) (UnwantListener sid (key block2))) in *.
  set (b2 := mkListener (S (next_listener sta)) (BlockListener sid)) in *.
  (* the end of the sink *)
  set (st0 := sink_onEnd sid None stb).
  assert (sink toB58String (getStream st).1 [key block1; key block2] None
            (getStream st).2 = st0) as Hsink.
  { unfold sink. change ((getStream st).1) with sid. fold stg.
    cbn [sink_keys]. by rewrite Hsk1, Hsk2. }
  assert ((sid < length (streams stb))%nat) as Hltb by (by rewrite Hl2).
  assert (the_stream sid st0 = waiting_for_two keyS1 keyS2 u1 b1 u2 b2) as Hw0.
  { subst st0. rewrite the_stream_sink_onEnd by done.
    rewrite Hth2, Hth1, Hthg. unfold sunk, listening, waiting_for_two. simpl.
    case_bool_decide as Hsz; [|done].
    apply map_size_empty_iff in Hsz. by apply insert_non_empty in Hsz. }
  destruct (but_streams_sink_onEnd sid None stb) as (Hout0 & Hn0 & _).
  apply outside_fields in Hout0 as (Hc0 & _).
  fold st0 in Hn0, Hc0.
  assert ((sid < length (streams st0))%nat) as Hlt0.
  { subst st0. by rewrite length_streams_sink_onEnd. }
  assert (listeners_of (blockEvent keyS1) st0 = others1 ++ [b1]) as Hls1.
  { unfold listeners_of at 1. rewrite Hn0. fold (listeners_of (blockEvent keyS1) stb).
    rewrite Hlo2; [exact Hlb1|done|apply not_eq_sym, event_names_differ]. }
  assert (listeners_of (blockEvent keyS2) st0 = others2 ++ [b2]) as Hls2.
  { unfold listeners_of at 1. rewrite Hn0. fold (listeners_of (blockEvent keyS2) stb).
    rewrite Hlb2. f_equal.
    rewrite Hlo1; [done|by apply not_eq_sym|apply not_eq_sym, event_names_differ]. }
  (* the first block *)
  assert (blockstore_putStream block1 (collaborators st0) = (None, w3)) as Hput1'
    by (by rewrite Hc0, Hc2).
  destruct (hasBlock_put block1 st0 w3 Hput1') as (st_l1 & Hr1 & Hc_l1 & Hn_l1 & Hs_l1).
  fold keyS1 in Hr1.
  set (st_e1 := emit toB58String (blockEvent keyS1) (Some block1) st_l1) in *.
  set (st1 := record (EvEngineReceivedBlock block1) st_e1) in *.
  assert (the_stream sid st_l1 = waiting_for_two keyS1 keyS2 u1 b1 u2 b2) as Hw_l1.
  { unfold the_stream. rewrite Hs_l1. exact Hw0. }
  assert (listeners_of (blockEvent keyS1) st_l1 = others1 ++ [b1]) as Hls1_l.
  { unfold listeners_of at 1. rewrite Hn_l1. exact Hls1. }
  assert (the_stream sid st1 =
          mkGetStream (<[keyS2 := u2]> ∅) (<[keyS2 := b2]> ∅) true None [block1])
    as Hw1.
  { change (the_stream sid st1) with (the_stream sid st_e1). subst st_e1.
    rewrite (emit_last_block_listener toB58String (blockEvent keyS1) block1 others1 b1 sid);
      [|done|done|done|by rewrite Hs_l1|by rewrite Hw_l1].
    rewrite Hw_l1. unfold pushed, cleaned, waiting_for_two. simpl. fold keyS1.
    rewrite !(delete_insert_ne _ keyS1 keyS2) by done.
    rewrite !delete_insert_eq, !delete_empty.
    case_bool_decide as Hsz; [|done].
    apply map_size_empty_iff in Hsz. by apply insert_non_empty in Hsz. }
  assert (listeners_of (blockEvent keyS2) st1 = others2 ++ [b2]) as Hls2_1.
  { change (listeners_of (blockEvent keyS2) st1)
      with (listeners_of (blockEvent keyS2) st_e1).
    subst st_e1. unfold keyS1.
    rewrite emit_other_event.
    - unfold listeners_of at 1. rewrite Hn_l1. exact Hls2.
    - fold keyS1. rewrite Hls1_l. apply Forall_app. split; [done|].
      repeat constructor. by exists sid.
    - apply not_eq_sym, event_names_differ.
    - by apply not_eq_sym. }
  assert (collaborators st1 = w3) as Hc1'.
  { change (collaborators st1) with (collaborators st_e1). subst st_e1.
    destruct (emit_outside toB58String (blockEvent keyS1) (Some block1) st_l1)
      as [Hcore _].
    unfold core in Hcore. congruence. }
  assert ((sid < length (streams st1))%nat) as Hlt1.
  { change (length (streams st1)) with (length (streams st_e1)). subst st_e1.
    destruct (no_new_emit toB58String (blockEvent keyS1) (Some block1) st_l1)
      as [_ Hlen].
    rewrite Hs_l1 in Hlen. lia. }
  (* the second block *)
  assert (blockstore_putStream block2 (collaborators st1) = (None, w4)) as Hput2'
    by (by rewrite Hc1').
  destruct (hasBlock_put block2 st1 w4 Hput2') as (st_l2 & Hr2 & Hc_l2 & Hn_l2 & Hs_l2).
  fold keyS2 in Hr2.
  set (st_e2 := emit toB58String (blockEvent keyS2) (Some block2) st_l2) in *.
  set (st2 := record (EvEngineReceivedBlock block2) st_e2) in *.
  assert (the_stream sid st_l2 =
          mkGetStream (<[keyS2 := u2]> ∅) (<[keyS2 := b2]> ∅) true None [block1])
    as Hw_l2.
  { unfold the_stream. rewrite Hs_l2. exact Hw1. }
  assert (the_stream sid st2 = mkGetStream ∅ ∅ true (Some None) [block1; block2])
    as Hw2.
  { change (the_stream sid st2) with (the_stream sid st_e2). subst st_e2.
    rewrite (emit_last_block_listener toB58String (blockEvent keyS2) block2 others2 b2 sid);
      [|unfold listeners_of at 1; rewrite Hn_l2; exact Hls2_1
       |done|done|by rewrite Hs_l2|by rewrite Hw_l2].
    rewrite Hw_l2. unfold pushed, cleaned. simpl. fold keyS2.
    rewrite !delete_insert_eq, !delete_empty, map_size_empty. done. }
  exists st0, st1, st2.
  split; [exact Hsink|].
  split; [intros cb; by rewrite hasBlock_calls_back, Hr1|].
  split; [intros cb; by rewrite hasBlock_calls_back, Hr2|].
  fold sid. rewrite Hw0, Hw1, Hw2. done.
Qed.

End TwoKeys.

(** C3, as the specification has it, fails on a fresh node: the engine
    is started after the network, and [stop()] does not reverse the
    order of [start()]. *)
Lemma specified_order_counterexample :
  trace (start Sample.fresh_node) ≠ specified_start_order ∧
  trace (stop Sample.fresh_node) ≠ specified_stop_order.
Proof. split; discriminate. Qed.


(** C8, with "hence no network.sendMessage", fails when the key is
    wanted: a peer is connected, a get asks for the key of [block1] and
    waits, [hasBlock] stores [block1]; a second get of the key then finds
    it in the blockstore and emits it, and its [wm.cancelWants] drops the
    last reference of the key, so that the peer is handed a cancel. *)
Lemma local_hit_hands_a_cancel_counterexample :
  run_all Base58.encode
    [CallPeerConnected Sample.peer; CallGetStream [key Sample.block1] None;
     CallHasBlock Sample.block1] Sample.fresh_node =
  Returned Connected.node_served_block1 ∧
  ∃ st',
    run Base58.encode (CallGetStream [key Sample.block1] None)
      Connected.node_served_block1 = Returned st' ∧
    emitted (the_stream 1 st') = [Sample.block1] ∧
    pusher_ended (the_stream 1 st') = Some None ∧
    trace st' =
    trace Connected.node_served_block1 ++
    [EvBlockstoreHas (key Sample.block1) (inr true);
     EvBlockstoreGet (key Sample.block1) (inr Sample.block1);
     EvWmCancelWants [key Sample.block1];
     EvWmEnqueue Sample.peer [mkWantEntry (key Sample.block1) 1 true 1]].
Proof.
  split; [vm_compute; reflexivity|].
  exists (sink Base58.encode 1 [key Sample.block1] None
            (getStream Connected.node_served_block1).2).
  split; [vm_compute; reflexivity|].
  split; [vm_compute; reflexivity|].
  split; vm_compute; reflexivity.
Qed.

(** ** The properties at work on the sample nodes *)

Lemma duplicate_block_is_put_again_witness :
  blockstore_has (key Sample.block1) (collaborators Sample.node_with_block1) =
  (inr true, MemStore.mk [Sample.block1] [] [] [] []) ∧
  ∃ st' p rest,
    (∀ next, receive_block Base58.encode Sample.peer Sample.block1 next
               Sample.node_with_block1 = next None st') ∧
    dupBlocksRecvd st' = 1 ∧
    dupDataRecvd st' = 3 ∧
    trace st' =
    [EvBlockstoreHas (key Sample.block1) (inr true);
     EvLog DebugLog "trying to put block %s" [ArgBuffer (data Sample.block1)];
     EvBlockstorePut Sample.block1 p] ++ rest.
Proof.
  assert (blockstore_has (key Sample.block1) (collaborators Sample.node_with_block1) =
          (inr true, MemStore.mk [Sample.block1] [] [] [] [])) as Hhas
    by (vm_compute; reflexivity).
  split; [exact Hhas|].
  destruct (duplicate_block_is_put_again Base58.encode Sample.peer Sample.block1
              Sample.node_with_block1 _ Hhas)
    as (st' & p & rest & Hnext & _ & Hd & Hdd & Ht).
  exists st', p, rest. split; [exact Hnext|]. split; [exact Hd|].
  split; [exact Hdd|exact Ht].
Defined.

Lemma has_error_does_not_abort_witness :
  blockstore_has (key Sample.block1) (collaborators Sample.node_with_failing_has) =
  (inl (mkError "disk"), MemStore.empty) ∧
  ∃ st',
    eachLimit [Sample.block1; Sample.block2] 10
      (receive_block Base58.encode Sample.peer) (reporter "done")
      Sample.node_with_failing_has =
    eachLimit [Sample.block2] 10
      (receive_block Base58.encode Sample.peer) (reporter "done") st' ∧
    blocksRecvd st' = 1 ∧ dupBlocksRecvd st' = 0 ∧ dupDataRecvd st' = 0.
Proof.
  assert (blockstore_has (key Sample.block1)
            (collaborators Sample.node_with_failing_has) =
          (inl (mkError "disk"), MemStore.empty)) as Hhas
    by (vm_compute; reflexivity).
  split; [exact Hhas|].
  destruct (has_error_does_not_abort Base58.encode Sample.peer Sample.block1
              [Sample.block2] (reporter "done") Sample.node_with_failing_has
              _ _ Hhas)
    as (st' & p & rest & Hnext & Hb & Hd & Hdd & _).
  exists st'. split; [exact Hnext|]. split; [exact Hb|]. split; [exact Hd|exact Hdd].
Defined.

Lemma hasBlock_puts_then_notifies_witness :
  (failed_attempts 2 Sample.block1 (collaborators Faulty.node_with_two_failing_puts) =
   Some ([mkError "1"; mkError "2"], MemStore.empty) ∧
   blockstore_putStream Sample.block1 MemStore.empty =
   (None, MemStore.mk [Sample.block1] [] [] [] []) ∧
   ∃ st',
     hasBlock Base58.encode Sample.block1 (Some (reporter "cb"))
       Faulty.node_with_two_failing_puts =
     Returned (record (EvCallback "cb" None) st') ∧
     collaborators st' = MemStore.mk [Sample.block1] [] [] [] [] ∧
     ∃ logs,
       Forall is_log logs ∧
       trace st' =
       [EvLog DebugLog "trying to put block %s" [ArgBuffer (data Sample.block1)];
        EvBlockstorePut Sample.block1 (Some (mkError "1")); EvTimeout 400;
        EvBlockstorePut Sample.block1 (Some (mkError "2")); EvTimeout 400;
        EvBlockstorePut Sample.block1 None;
        EvLog DebugLog "put block: %s"
          [ArgString (Base58.encode (key Sample.block1))];
        EvEmit (blockEvent (Base58.encode (key Sample.block1))) (Some Sample.block1)] ++
       logs ++ [EvEngineReceivedBlock Sample.block1]) ∧
  (failed_attempts 3 Sample.block1 (collaborators Faulty.node_with_failing_put) =
   Some ([mkError "1"; mkError "2"; mkError "3"],
         MemStore.mk [] [] [] [Some (mkError "4")] []) ∧
   blockstore_putStream Sample.block1 (MemStore.mk [] [] [] [Some (mkError "4")] []) =
   (Some (mkError "4"), MemStore.empty) ∧
   ∃ st',
     hasBlock Base58.encode Sample.block1 (Some (reporter "cb"))
       Faulty.node_with_failing_put =
     Returned (record (EvCallback "cb" (Some (mkError "4"))) st') ∧
     collaborators st' = MemStore.empty ∧
     inside st' = inside Faulty.node_with_failing_put ∧
     trace st' =
     [EvLog DebugLog "trying to put block %s" [ArgBuffer (data Sample.block1)];
      EvBlockstorePut Sample.block1 (Some (mkError "1")); EvTimeout 400;
      EvBlockstorePut Sample.block1 (Some (mkError "2")); EvTimeout 400;
      EvBlockstorePut Sample.block1 (Some (mkError "3")); EvTimeout 400;
      EvBlockstorePut Sample.block1 (Some (mkError "4"));
      EvLog ErrorLog "Error writing block to blockstore: %s" [ArgString "4"]]).
Proof.
  assert (failed_attempts 2 Sample.block1
            (collaborators Faulty.node_with_two_failing_puts) =
          Some ([mkError "1"; mkError "2"], MemStore.empty)) as Hfail2
    by (vm_compute; reflexivity).
  assert (blockstore_putStream Sample.block1 MemStore.empty =
          (None, MemStore.mk [Sample.block1] [] [] [] [])) as Hput2
    by (vm_compute; reflexivity).
  assert (failed_attempts 3 Sample.block1 (collaborators Faulty.node_with_failing_put) =
          Some ([mkError "1"; mkError "2"; mkError "3"],
                MemStore.mk [] [] [] [Some (mkError "4")] [])) as Hfail3
    by (vm_compute; reflexivity).
  assert (blockstore_putStream Sample.block1
            (MemStore.mk [] [] [] [Some (mkError "4")] []) =
          (Some (mkError "4"), MemStore.empty)) as Hput3
    by (vm_compute; reflexivity).
  split.
  - split; [exact Hfail2|]. split; [exact Hput2|].
    destruct (hasBlock_puts_then_notifies Base58.encode Sample.block1
                (Some (reporter "cb")) Faulty.node_with_two_failing_puts
                2 _ _ None _ Hfail2 Hput2 ltac:(lia) (or_introl eq_refl))
      as (logs & st' & Hrun & Hc & Hlogs & Ht).
    exists st'. split; [exact Hrun|]. split; [exact Hc|].
    exists logs. split; [exact Hlogs|exact Ht].
  - split; [exact Hfail3|]. split; [exact Hput3|].
    destruct (hasBlock_puts_then_notifies Base58.encode Sample.block1
                (Some (reporter "cb")) Faulty.node_with_failing_put
                3 _ _ (Some (mkError "4")) _ Hfail3 Hput3 ltac:(lia)
                (or_intror eq_refl))
      as (st' & Hrun & Hc & Hi & Ht).
    exists st'. split; [exact Hrun|]. split; [exact Hc|]. split; [exact Hi|exact Ht].
Defined.

Lemma cancels_before_blocks_are_stored_witness :
  msg_blocks Sample.message12 ≠ [] ∧
  wanted Base58.encode (wl (wm Connected.node_wanting_block1)) Sample.block1 = true ∧
  wanted Base58.encode (wl (wm Connected.node_wanting_block1)) Sample.block2 = false ∧
  (∃ st' err enq post,
     _receiveMessage Base58.encode Sample.peer Sample.message12
       (Some (reporter "cb")) Connected.node_wanting_block1 =
     Returned (record (EvCallback "cb" None) st') ∧
     trace st' =
     trace Connected.node_wanting_block1 ++
     (EvLog DebugLog "receiving message from %s" [ArgString "QmPeer"] ::
      EvEngineMessageReceived Sample.peer Sample.message12 err ::
      match err with
      | Some _ =>
          [EvLog DebugLog "failed to receive message" [ArgMessage Sample.message12]]
      | None => []
      end) ++
     [unasked_log Base58.encode Sample.peer Sample.block2;
      EvWmCancelWants [key Sample.block1]] ++ enq ++ post ∧
     Forall is_cancel_delta enq ∧
     (∃ p, EvBlockstorePut Sample.block1 p ∈ post) ∧
     (∃ p, EvBlockstorePut Sample.block2 p ∈ post)) ∧
  trace (receiveMessage_result Base58.encode Sample.peer Sample.message12
           Connected.node_wanting_block1) =
  trace Connected.node_wanting_block1 ++
  [EvLog DebugLog "receiving message from %s" [ArgString "QmPeer"];
   EvEngineMessageReceived Sample.peer Sample.message12 None;
   unasked_log Base58.encode Sample.peer Sample.block2;
   EvWmCancelWants [key Sample.block1];
   EvWmEnqueue Sample.peer [mkWantEntry (key Sample.block1) 1 true 1];
   EvBlockstoreHas (key Sample.block1) (inr false);
   EvLog DebugLog "got block from %s"
     [ArgString "QmPeer"; ArgBuffer (data Sample.block1)];
   EvLog DebugLog "trying to put block %s" [ArgBuffer (data Sample.block1)];
   EvBlockstorePut Sample.block1 None;
   EvLog DebugLog "put block: %s" [ArgString (Base58.encode (key Sample.block1))];
   EvEmit (blockEvent (Base58.encode (key Sample.block1))) (Some Sample.block1);
   EvEngineReceivedBlock Sample.block1;
   EvBlockstoreHas (key Sample.block2) (inr false);
   EvLog DebugLog "got block from %s"
     [ArgString "QmPeer"; ArgBuffer (data Sample.block2)];
   EvLog DebugLog "trying to put block %s" [ArgBuffer (data Sample.block2)];
   EvBlockstorePut Sample.block2 None;
   EvLog DebugLog "put block: %s" [ArgString (Base58.encode (key Sample.block2))];
   EvEmit (blockEvent (Base58.encode (key Sample.block2))) (Some Sample.block2);
   EvEngineReceivedBlock Sample.block2].
Proof.
  assert (msg_blocks Sample.message12 ≠ []) as Hne by discriminate.
  assert (filter (λ b, wanted Base58.encode (wl (wm Connected.node_wanting_block1)) b =
                       false) (msg_blocks Sample.message12) = [Sample.block2]) as Hunasked
    by (vm_compute; reflexivity).
  assert (filter (λ b, wanted Base58.encode (wl (wm Connected.node_wanting_block1)) b =
                       true) (msg_blocks Sample.message12) = [Sample.block1]) as Hwanted
    by (vm_compute; reflexivity).
  split; [exact Hne|].
  split; [vm_compute; reflexivity|]. split; [vm_compute; reflexivity|].
  split; [|vm_compute; reflexivity].
  destruct (cancels_before_blocks_are_stored Base58.encode Sample.peer
              Sample.message12 (Some (reporter "cb")) Connected.node_wanting_block1 Hne)
    as (st' & err & enq & post & Hrun & Ht & Henq & Hputs).
  rewrite Hunasked, Hwanted in Ht.
  exists st', err, enq, post. split; [exact Hrun|]. split; [exact Ht|].
  split; [exact Henq|].
  split; apply Hputs; [by left|right; by left].
Defined.

Lemma local_hit_is_emitted_without_want_witness :
  (1 < length (streams (getStream Connected.node_served_block1).2))%nat ∧
  pusher_ended (the_stream 1 (getStream Connected.node_served_block1).2) = None ∧
  blockstore_has (key Sample.block1)
    (collaborators (getStream Connected.node_served_block1).2) =
  (inr true, MemStore.mk [Sample.block1] [] [] [] []) ∧
  blockstore_getStream (key Sample.block1) (MemStore.mk [Sample.block1] [] [] [] []) =
  (inr Sample.block1, MemStore.mk [Sample.block1] [] [] [] []) ∧
  WantList.refcount (Base58.encode (key Sample.block1))
    (wl (wm Connected.node_served_block1)) = 1 ∧
  ∃ st',
    sink_key Base58.encode 1 (key Sample.block1)
      (getStream Connected.node_served_block1).2 = (None, st') ∧
    emitted (the_stream 1 st') = [Sample.block1] ∧
    trace st' =
    trace Connected.node_served_block1 ++
    [EvBlockstoreHas (key Sample.block1) (inr true);
     EvBlockstoreGet (key Sample.block1) (inr Sample.block1);
     EvWmCancelWants [key Sample.block1];
     EvWmEnqueue Sample.peer [mkWantEntry (key Sample.block1) 1 true 1]] ∧
    next_listener st' = next_listener Connected.node_served_block1 ∧
    ∀ event, listeners_of event st' ⊆ listeners_of event Connected.node_served_block1.
Proof.
  assert (1 < length (streams (getStream Connected.node_served_block1).2))%nat as Hlt
    by (vm_compute; lia).
  assert (pusher_ended (the_stream 1 (getStream Connected.node_served_block1).2) = None)
    as Hopen by (vm_compute; reflexivity).
  assert (blockstore_has (key Sample.block1)
            (collaborators (getStream Connected.node_served_block1).2) =
          (inr true, MemStore.mk [Sample.block1] [] [] [] [])) as Hhas
    by (vm_compute; reflexivity).
  assert (blockstore_getStream (key Sample.block1)
            (MemStore.mk [Sample.block1] [] [] [] []) =
          (inr Sample.block1, MemStore.mk [Sample.block1] [] [] [] [])) as Hget
    by (vm_compute; reflexivity).
  assert (cancel_deltas Base58.encode (key Sample.block1)
            (wm (getStream Connected.node_served_block1).2) =
          [EvWmEnqueue Sample.peer [mkWantEntry (key Sample.block1) 1 true 1]])
    as Hdeltas by (vm_compute; reflexivity).
  assert (emitted (the_stream 1 (getStream Connected.node_served_block1).2) = [])
    as Hnone by (vm_compute; reflexivity).
  split; [exact Hlt|]. split; [exact Hopen|]. split; [exact Hhas|].
  split; [exact Hget|]. split; [vm_compute; reflexivity|].
  destruct (local_hit_is_emitted_without_want Base58.encode 1 (key Sample.block1)
              Sample.block1 (getStream Connected.node_served_block1).2 _ _
              Hlt Hopen Hhas Hget)
    as (st' & Hrun & Hem & _ & Ht & _ & _ & Hnl & Hls).
  rewrite Hdeltas in Ht. rewrite Hnone in Hem.
  exists st'. split; [exact Hrun|]. split; [exact Hem|]. split; [exact Ht|].
  split; [exact Hnl|exact Hls].
Defined.

Lemma two_gets_share_one_delivery_witness :
  listeners_known (blockEvent (Base58.encode (key Sample.block1)))
    (get_one Base58.encode (key Sample.block1) Sample.fresh_node).2 ∧
  ∃ st2 st3,
    get_one Base58.encode (key Sample.block1)
      (get_one Base58.encode (key Sample.block1)
         (get_one Base58.encode (key Sample.block1) Sample.fresh_node).2).2 =
    (2%nat, st2) ∧
    hasBlock Base58.encode Sample.block1 None st2 = Returned st3 ∧
    WantList.refcount (Base58.encode (key Sample.block1)) (wl (wm st2)) = 3 ∧
    emitted (the_stream 1 st3) = [Sample.block1] ∧
    emitted (the_stream 2 st3) = [Sample.block1].
Proof.
  assert (listeners_known (blockEvent (Base58.encode (key Sample.block1)))
            (get_one Base58.encode (key Sample.block1) Sample.fresh_node).2)
    as Hknown by (unfold listeners_known; vm_compute; repeat constructor).
  assert (blockstore_has (key Sample.block1)
            (collaborators
               (get_one Base58.encode (key Sample.block1) Sample.fresh_node).2) =
          (inr false, MemStore.empty)) as Hhas1 by (vm_compute; reflexivity).
  assert (blockstore_has (key Sample.block1) MemStore.empty =
          (inr false, MemStore.empty)) as Hhas2 by (vm_compute; reflexivity).
  assert ((hasBlock_result Base58.encode Sample.block1
             (get_one Base58.encode (key Sample.block1)
                (get_one Base58.encode (key Sample.block1)
                   (get_one Base58.encode (key Sample.block1)
                      Sample.fresh_node).2).2).2).1 =
          None) as Hput by (vm_compute; reflexivity).
  split; [exact Hknown|].
  destruct (two_gets_share_one_delivery Base58.encode Sample.block1
              (get_one Base58.encode (key Sample.block1) Sample.fresh_node).2
              _ _ Hknown Hhas1 Hhas2 Hput)
    as (st2 & st3 & pre & post & _ & Hget & Hcb & Href & _ & _ & _ & _ & _ &
        Hd1 & _ & Hd2 & _).
  exists st2, st3. split; [exact Hget|]. split; [exact (Hcb None)|].
  split; [|split; [exact Hd1|exact Hd2]].
  rewrite Href. vm_compute. reflexivity.
Defined.

Lemma unwant_ends_the_get_without_error_witness :
  listeners_known (unwantEvent (Base58.encode (key Sample.block1))) Sample.fresh_node ∧
  ∃ st1,
    get_one Base58.encode (key Sample.block1) Sample.fresh_node = (0%nat, st1) ∧
    pusher_ended (the_stream 0 st1) = None ∧
    emitted (the_stream 0 (unwantBlocks Base58.encode [key Sample.block1] st1)) = [] ∧
    pusher_ended (the_stream 0 (unwantBlocks Base58.encode [key Sample.block1] st1)) =
    Some None.
Proof.
  assert (listeners_known (unwantEvent (Base58.encode (key Sample.block1)))
            Sample.fresh_node) as Hknown
    by (unfold listeners_known; vm_compute; constructor).
  assert (blockstore_has (key Sample.block1) (collaborators Sample.fresh_node) =
          (inr false, MemStore.empty)) as Hhas by (vm_compute; reflexivity).
  split; [exact Hknown|].
  destruct (unwant_ends_the_get_without_error Base58.encode (key Sample.block1)
              Sample.fresh_node _ Hknown Hhas)
    as (st1 & enq & logs & Hget & Hopen & Hem & Hend & _).
  exists st1. split; [exact Hget|]. split; [exact Hopen|].
  split; [exact Hem|exact Hend].
Defined.

Lemma empty_message_calls_back_at_once_witness :
  msg_blocks Faulty.empty_message = [] ∧
  engine_messageReceived Sample.peer Faulty.empty_message
    (collaborators Faulty.node_with_busy_engine) =
  (Some (mkError "busy"), MemStore.empty) ∧
  ∃ st',
    _receiveMessage Base58.encode Sample.peer Faulty.empty_message
      (Some (reporter "cb")) Faulty.node_with_busy_engine =
    Returned (record (EvCallback "cb" None) st') ∧
    collaborators st' = MemStore.empty ∧
    trace st' =
    [EvLog DebugLog "receiving message from %s" [ArgString "QmPeer"];
     EvEngineMessageReceived Sample.peer Faulty.empty_message (Some (mkError "busy"));
     EvLog DebugLog "failed to receive message" [ArgMessage Faulty.empty_message]].
Proof.
  assert (msg_blocks Faulty.empty_message = []) as Hblocks by reflexivity.
  assert (engine_messageReceived Sample.peer Faulty.empty_message
            (collaborators Faulty.node_with_busy_engine) =
          (Some (mkError "busy"), MemStore.empty)) as Hengine
    by (vm_compute; reflexivity).
  split; [exact Hblocks|]. split; [exact Hengine|].
  destruct (empty_message_calls_back_at_once Base58.encode Sample.peer
              Faulty.empty_message (Some (reporter "cb")) Faulty.node_with_busy_engine
              _ _ Hblocks Hengine)
    as (st' & Hrun & Hc & _ & Ht).
  exists st'. split; [exact Hrun|]. split; [exact Hc|exact Ht].
Defined.

Lemma failed_put_is_logged_not_reported_witness :
  ∃ w0 w1 w2 w3 w4,
    blockstore_has (key Sample.block1) (collaborators Faulty.node_with_failing_put) =
    (inr false, w0) ∧
    blockstore_putStream Sample.block1 w0 = (Some (mkError "1"), w1) ∧
    blockstore_putStream Sample.block1 w1 = (Some (mkError "2"), w2) ∧
    blockstore_putStream Sample.block1 w2 = (Some (mkError "3"), w3) ∧
    blockstore_putStream Sample.block1 w3 = (Some (mkError "4"), w4) ∧
    ∃ st',
      (∀ next, receive_block Base58.encode Sample.peer Sample.block1 next
                 Faulty.node_with_failing_put = next None st') ∧
      collaborators st' = MemStore.empty ∧
      blocksRecvd st' = 1 ∧
      notifications st' = ∅.
Proof.
  set (w0 := MemStore.mk [] [] []
               [Some (mkError "1"); Some (mkError "2");
                Some (mkError "3"); Some (mkError "4")] []).
  set (w1 := MemStore.mk [] [] []
               [Some (mkError "2"); Some (mkError "3"); Some (mkError "4")] []).
  set (w2 := MemStore.mk [] [] [] [Some (mkError "3"); Some (mkError "4")] []).
  set (w3 := MemStore.mk [] [] [] [Some (mkError "4")] []).
  assert (blockstore_has (key Sample.block1)
            (collaborators Faulty.node_with_failing_put) = (inr false, w0)) as Hhas
    by (vm_compute; reflexivity).
  assert (blockstore_putStream Sample.block1 w0 = (Some (mkError "1"), w1)) as H1
    by (vm_compute; reflexivity).
  assert (blockstore_putStream Sample.block1 w1 = (Some (mkError "2"), w2)) as H2
    by (vm_compute; reflexivity).
  assert (blockstore_putStream Sample.block1 w2 = (Some (mkError "3"), w3)) as H3
    by (vm_compute; reflexivity).
  assert (blockstore_putStream Sample.block1 w3 = (Some (mkError "4"), MemStore.empty))
    as H4 by (vm_compute; reflexivity).
  exists w0, w1, w2, w3, MemStore.empty.
  do 5 (split; [assumption|]).
  destruct (failed_put_is_logged_not_reported Base58.encode Sample.peer Sample.block1
              Faulty.node_with_failing_put _ _ _ _ _ _ _ _ _ _ Hhas H1 H2 H3 H4)
    as (st' & logs & Hnext & Hc & _ & Hn & _ & Hb & _).
  exists st'. split; [exact Hnext|]. split; [exact Hc|]. split; [exact Hb|exact Hn].
Defined.

Lemma hasBlock_with_no_waiter_witness :
  listeners_of (blockEvent (Base58.encode (key Sample.block1))) Sample.fresh_node = [] ∧
  blockstore_putStream Sample.block1 (collaborators Sample.fresh_node) =
  (None, MemStore.mk [Sample.block1] [] [] [] []) ∧
  ∃ st',
    hasBlock Base58.encode Sample.block1 None Sample.fresh_node = Returned st' ∧
    collaborators st' = MemStore.mk [Sample.block1] [] [] [] [] ∧
    trace st' =
    [EvLog DebugLog "trying to put block %s" [ArgBuffer (data Sample.block1)];
     EvBlockstorePut Sample.block1 None;
     EvLog DebugLog "put block: %s" [ArgString (Base58.encode (key Sample.block1))];
     EvEmit (blockEvent (Base58.encode (key Sample.block1))) (Some Sample.block1);
     EvEngineReceivedBlock Sample.block1].
Proof.
  assert (listeners_of (blockEvent (Base58.encode (key Sample.block1)))
            Sample.fresh_node = []) as Hnone by reflexivity.
  assert (blockstore_putStream Sample.block1 (collaborators Sample.fresh_node) =
          (None, MemStore.mk [Sample.block1] [] [] [] [])) as Hput
    by (vm_compute; reflexivity).
  split; [exact Hnone|]. split; [exact Hput|].
  destruct (hasBlock_with_no_waiter Base58.encode Sample.block1 None Sample.fresh_node
              _ Hnone Hput)
    as (st' & Hrun & Hc & _ & Ht).
  exists st'. split; [exact Hrun|]. split; [exact Hc|exact Ht].
Defined.

Lemma unwant_with_no_waiter_witness :
  Forall (λ k, listeners_of (unwantEvent (Base58.encode k)) Sample.fresh_node = [])
    [key Sample.block1; key Sample.block2] ∧
  ∃ enq,
    trace (unwantBlocks Base58.encode [key Sample.block1; key Sample.block2]
             Sample.fresh_node) =
    EvWmUnwantBlocks [key Sample.block1; key Sample.block2] :: enq ++
    [EvEmit (unwantEvent (Base58.encode (key Sample.block1))) None;
     EvEmit (unwantEvent (Base58.encode (key Sample.block2))) None] ∧
    streams (unwantBlocks Base58.encode [key Sample.block1; key Sample.block2]
               Sample.fresh_node) = [].
Proof.
  assert (Forall (λ k, listeners_of (unwantEvent (Base58.encode k))
                         Sample.fresh_node = [])
            [key Sample.block1; key Sample.block2]) as Hall
    by (repeat constructor).
  split; [exact Hall|].
  destruct (unwant_with_no_waiter Base58.encode [key Sample.block1; key Sample.block2]
              Sample.fresh_node Hall)
    as (enq & Ht & _ & _ & Hs & _).
  exists enq. split; [exact Ht|exact Hs].
Defined.

Lemma sink_ends_on_has_error_witness :
  (0 < length (streams (getStream Sample.node_with_failing_has).2))%nat ∧
  pusher_ended (the_stream 0 (getStream Sample.node_with_failing_has).2) = None ∧
  blockstore_has (key Sample.block1)
    (collaborators (getStream Sample.node_with_failing_has).2) =
  (inl (mkError "disk"), MemStore.empty) ∧
  ∃ st',
    sink Base58.encode 0 [key Sample.block1; key Sample.block2] None
      (getStream Sample.node_with_failing_has).2 = st' ∧
    the_stream 0 st' = mkGetStream ∅ ∅ true (Some (Some (mkError "disk"))) [] ∧
    trace st' = [EvBlockstoreHas (key Sample.block1) (inl (mkError "disk"))].
Proof.
  assert (0 < length (streams (getStream Sample.node_with_failing_has).2))%nat as Hlt
    by (simpl; lia).
  assert (pusher_ended (the_stream 0 (getStream Sample.node_with_failing_has).2) = None)
    as Hopen by reflexivity.
  assert (blockstore_has (key Sample.block1)
            (collaborators (getStream Sample.node_with_failing_has).2) =
          (inl (mkError "disk"), MemStore.empty)) as Hhas
    by (vm_compute; reflexivity).
  split; [exact Hlt|]. split; [exact Hopen|]. split; [exact Hhas|].
  destruct (sink_ends_on_has_error Base58.encode 0 (key Sample.block1)
              [key Sample.block2] None (getStream Sample.node_with_failing_has).2
              _ _ Hlt Hopen Hhas)
    as (st' & Hrun & Hthe & Ht & _).
  exists st'. split; [exact Hrun|]. split; [exact Hthe|exact Ht].
Defined.

Lemma sink_ends_on_read_error_witness :
  (0 < length (streams (getStream Faulty.node_with_failing_get).2))%nat ∧
  pusher_ended (the_stream 0 (getStream Faulty.node_with_failing_get).2) = None ∧
  blockstore_has (key Sample.block1)
    (collaborators (getStream Faulty.node_with_failing_get).2) =
  (inr true, MemStore.mk [Sample.block1] [] [Some (mkError "read")] [] []) ∧
  blockstore_getStream (key Sample.block1)
    (MemStore.mk [Sample.block1] [] [Some (mkError "read")] [] []) =
  (inl (mkError "read"), MemStore.mk [Sample.block1] [] [] [] []) ∧
  ∃ st',
    sink Base58.encode 0 [key Sample.block1; key Sample.block2] None
      (getStream Faulty.node_with_failing_get).2 = st' ∧
    the_stream 0 st' = mkGetStream ∅ ∅ true (Some (Some (mkError "read"))) [] ∧
    trace st' =
    [EvBlockstoreHas (key Sample.block1) (inr true);
     EvBlockstoreGet (key Sample.block1) (inl (mkError "read"))].
Proof.
  assert (0 < length (streams (getStream Faulty.node_with_failing_get).2))%nat as Hlt
    by (simpl; lia).
  assert (pusher_ended (the_stream 0 (getStream Faulty.node_with_failing_get).2) = None)
    as Hopen by reflexivity.
  assert (blockstore_has (key Sample.block1)
            (collaborators (getStream Faulty.node_with_failing_get).2) =
          (inr true, MemStore.mk [Sample.block1] [] [Some (mkError "read")] [] []))
    as Hhas by (vm_compute; reflexivity).
  assert (blockstore_getStream (key Sample.block1)
            (MemStore.mk [Sample.block1] [] [Some (mkError "read")] [] []) =
          (inl (mkError "read"), MemStore.mk [Sample.block1] [] [] [] [])) as Hget
    by (vm_compute; reflexivity).
  split; [exact Hlt|]. split; [exact Hopen|]. split; [exact Hhas|].
  split; [exact Hget|].
  destruct (sink_ends_on_read_error Base58.encode 0 (key Sample.block1)
              [key Sample.block2] None (getStream Faulty.node_with_failing_get).2
              _ _ _ Hlt Hopen Hhas Hget)
    as (st' & Hrun & Hthe & Ht & _).
  exists st'. split; [exact Hrun|]. split; [exact Hthe|exact Ht].
Defined.

Lemma local_get_emits_in_order_witness :
  read_all [key Sample.block2; key Sample.block1]
    (collaborators Faulty.node_with_two_blocks) =
  Some ([Sample.block2; Sample.block1],
        MemStore.mk [Sample.block1; Sample.block2] [] [] [] []) ∧
  ∃ st',
    sink Base58.encode (getStream Faulty.node_with_two_blocks).1
      [key Sample.block2; key Sample.block1] None
      (getStream Faulty.node_with_two_blocks).2 = st' ∧
    the_stream 0 st' =
    mkGetStream ∅ ∅ true (Some None) [Sample.block2; Sample.block1] ∧
    notifications st' = ∅.
Proof.
  assert (read_all [key Sample.block2; key Sample.block1]
            (collaborators Faulty.node_with_two_blocks) =
          Some ([Sample.block2; Sample.block1],
                MemStore.mk [Sample.block1; Sample.block2] [] [] [] [])) as Hread
    by (vm_compute; reflexivity).
  split; [exact Hread|].
  destruct (local_get_emits_in_order Base58.encode
              [key Sample.block2; key Sample.block1] None Faulty.node_with_two_blocks
              _ _ Hread)
    as (st' & Hrun & Hthe & _ & Hn & _).
  exists st'. split; [exact Hrun|]. split; [exact Hthe|exact Hn].
Defined.

Lemma sink_leaves_other_streams_witness :
  1%nat ≠ 0%nat ∧
  the_stream 0
    (sink Base58.encode 1 [key Sample.block1] None
       (getStream (get_one Base58.encode (key Sample.block2) Sample.fresh_node).2).2) =
  the_stream 0 (get_one Base58.encode (key Sample.block2) Sample.fresh_node).2.
Proof.
  assert (1%nat ≠ 0%nat) as Hne by discriminate.
  split; [exact Hne|].
  rewrite (sink_leaves_other_streams Base58.encode 1 0 [key Sample.block1] None
             (getStream (get_one Base58.encode (key Sample.block2)
                           Sample.fresh_node).2).2 Hne).
  apply the_stream_getStream.
Defined.

Lemma unwant_listeners_fire_once_witness :
  key Sample.block1 ∈ [key Sample.block2; key Sample.block1] ∧
  listeners_of (unwantEvent (Base58.encode (key Sample.block1)))
    (get_one Base58.encode (key Sample.block1) Sample.fresh_node).2 ≠ [] ∧
  listeners_of (unwantEvent (Base58.encode (key Sample.block1)))
    (unwantBlocks Base58.encode [key Sample.block2; key Sample.block1]
       (get_one Base58.encode (key Sample.block1) Sample.fresh_node).2) = [].
Proof.
  assert (key Sample.block1 ∈ [key Sample.block2; key Sample.block1]) as Hin
    by (right; left).
  split; [exact Hin|]. split; [vm_compute; discriminate|].
  exact (unwant_listeners_fire_once Base58.encode
           [key Sample.block2; key Sample.block1] (key Sample.block1)
           (get_one Base58.encode (key Sample.block1) Sample.fresh_node).2 Hin).
Defined.

Lemma block_from_peer_completes_get_witness :
  listeners_known (blockEvent (Base58.encode (key Sample.block1))) Sample.fresh_node ∧
  msg_blocks Faulty.message1 = [Sample.block1] ∧
  blockstore_has (key Sample.block1) (collaborators Sample.fresh_node) =
  (inr false, MemStore.empty) ∧
  engine_messageReceived Sample.peer Faulty.message1 MemStore.empty =
  (None, MemStore.empty) ∧
  blockstore_putStream Sample.block1 MemStore.empty =
  (None, MemStore.mk [Sample.block1] [] [] [] []) ∧
  ∃ st1 st2,
    get_one Base58.encode (key Sample.block1) Sample.fresh_node = (0%nat, st1) ∧
    _receiveMessage Base58.encode Sample.peer Faulty.message1 None st1 = Returned st2 ∧
    emitted (the_stream 0 st1) = [] ∧
    emitted (the_stream 0 st2) = [Sample.block1] ∧
    pusher_ended (the_stream 0 st2) = Some None ∧
    collaborators st2 = MemStore.mk [Sample.block1] [] [] [] [].
Proof.
  assert (listeners_known (blockEvent (Base58.encode (key Sample.block1)))
            Sample.fresh_node) as Hknown
    by (unfold listeners_known; vm_compute; constructor).
  assert (msg_blocks Faulty.message1 = [Sample.block1]) as Hblocks by reflexivity.
  assert (blockstore_has (key Sample.block1) (collaborators Sample.fresh_node) =
          (inr false, MemStore.empty)) as Hhas1 by (vm_compute; reflexivity).
  assert (engine_messageReceived Sample.peer Faulty.message1 MemStore.empty =
          (None, MemStore.empty)) as Hengine by (vm_compute; reflexivity).
  assert (blockstore_has (key Sample.block1) MemStore.empty =
          (inr false, MemStore.empty)) as Hhas2 by (vm_compute; reflexivity).
  assert (blockstore_putStream Sample.block1 MemStore.empty =
          (None, MemStore.mk [Sample.block1] [] [] [] [])) as Hput
    by (vm_compute; reflexivity).
  split; [exact Hknown|]. split; [exact Hblocks|]. split; [exact Hhas1|].
  split; [exact Hengine|]. split; [exact Hput|].
  destruct (block_from_peer_completes_get Base58.encode Sample.peer Faulty.message1
              Sample.block1 Sample.fresh_node _ _ _ _ _ _
              Hknown Hblocks Hhas1 Hengine Hhas2 Hput)
    as (st1 & st2 & Hget & Hcb & Hem1 & _ & Hem2 & Hend & Hc).
  exists st1, st2. split; [exact Hget|]. split; [exact (Hcb None)|].
  split; [exact Hem1|]. split; [exact Hem2|]. split; [exact Hend|exact Hc].
Defined.

Lemma ended_stream_is_final_witness :
  pusher_ended
    (the_stream 0
       (sink Base58.encode 0 [key Sample.block1; key Sample.block2] None
          (getStream Faulty.node_with_second_has_failing).2)) =
  Some (Some (mkError "disk")) ∧
  listeners_of (blockEvent (Base58.encode (key Sample.block1)))
    (sink Base58.encode 0 [key Sample.block1; key Sample.block2] None
       (getStream Faulty.node_with_second_has_failing).2) =
  [mkListener 1 (BlockListener 0)] ∧
  ∃ st',
    run_all Base58.encode [CallHasBlock Sample.block1; CallUnwantBlocks [key Sample.block1]]
      (sink Base58.encode 0 [key Sample.block1; key Sample.block2] None
         (getStream Faulty.node_with_second_has_failing).2) = Returned st' ∧
    pusher_ended (the_stream 0 st') = Some (Some (mkError "disk")) ∧
    emitted (the_stream 0 st') = [].
Proof.
  assert (pusher_ended
            (the_stream 0
               (sink Base58.encode 0 [key Sample.block1; key Sample.block2] None
                  (getStream Faulty.node_with_second_has_failing).2)) =
          Some (Some (mkError "disk"))) as Hended by (vm_compute; reflexivity).
  split; [exact Hended|]. split; [vm_compute; reflexivity|].
  destruct (ended_stream_is_final Base58.encode
              [CallHasBlock Sample.block1; CallUnwantBlocks [key Sample.block1]]
              0 _ _ Hended)
    as (st' & Hrun & Hend & Hem).
  exists st'. split; [exact Hrun|]. split; [exact Hend|].
  rewrite Hem. vm_compute. reflexivity.
Defined.

Lemma get_of_missing_key_waits_witness :
  blockstore_has (key Sample.block1) (collaborators Sample.fresh_node) =
  (inr false, MemStore.empty) ∧
  ∃ st1,
    get_one Base58.encode (key Sample.block1) Sample.fresh_node = (0%nat, st1) ∧
    the_stream 0 st1 =
    waiting_stream (Base58.encode (key Sample.block1))
      (mkListener 0 (UnwantListener 0 (key Sample.block1)))
      (mkListener 1 (BlockListener 0)) ∧
    listeners_of (unwantEvent (Base58.encode (key Sample.block1))) st1 =
    [mkListener 0 (UnwantListener 0 (key Sample.block1))] ∧
    listeners_of (blockEvent (Base58.encode (key Sample.block1))) st1 =
    [mkListener 1 (BlockListener 0)].
Proof.
  assert (blockstore_has (key Sample.block1) (collaborators Sample.fresh_node) =
          (inr false, MemStore.empty)) as Hhas by (vm_compute; reflexivity).
  split; [exact Hhas|].
  destruct (get_of_missing_key_waits Base58.encode (key Sample.block1)
              Sample.fresh_node _ Hhas)
    as (st1 & enq & Hget & Hthe & Hu & Hb & _).
  exists st1. split; [exact Hget|]. split; [exact Hthe|].
  split; [exact Hu|exact Hb].
Defined.

Lemma get_of_two_keys_ends_after_both_witness :
  Base58.encode (key Sample.block1) ≠ Base58.encode (key Sample.block2) ∧
  all_listeners_known Sample.fresh_node ∧
  emitter_sorted Base58.encode Sample.fresh_node ∧
  blockstore_has (key Sample.block1) (collaborators Sample.fresh_node) =
  (inr false, MemStore.empty) ∧
  blockstore_has (key Sample.block2) MemStore.empty = (inr false, MemStore.empty) ∧
  blockstore_putStream Sample.block1 MemStore.empty =
  (None, MemStore.mk [Sample.block1] [] [] [] []) ∧
  blockstore_putStream Sample.block2 (MemStore.mk [Sample.block1] [] [] [] []) =
  (None, MemStore.mk [Sample.block2; Sample.block1] [] [] [] []) ∧
  ∃ st0 st1 st2,
    sink Base58.encode (getStream Sample.fresh_node).1
      [key Sample.block1; key Sample.block2] None (getStream Sample.fresh_node).2 =
    st0 ∧
    hasBlock Base58.encode Sample.block1 None st0 = Returned st1 ∧
    hasBlock Base58.encode Sample.block2 None st1 = Returned st2 ∧
    emitted (the_stream 0 st1) = [Sample.block1] ∧
    pusher_ended (the_stream 0 st1) = None ∧
    emitted (the_stream 0 st2) = [Sample.block1; Sample.block2] ∧
    pusher_ended (the_stream 0 st2) = Some None.
Proof.
  assert (Base58.encode (key Sample.block1) ≠ Base58.encode (key Sample.block2))
    as Hne by (vm_compute; discriminate).
  pose proof (known_constructor MemStore.empty) as Hknown.
  pose proof (sorted_constructor Base58.encode MemStore.empty) as Hsorted.
  assert (blockstore_has (key Sample.block1) (collaborators Sample.fresh_node) =
          (inr false, MemStore.empty)) as Hhas1 by (vm_compute; reflexivity).
  assert (blockstore_has (key Sample.block2) MemStore.empty =
          (inr false, MemStore.empty)) as Hhas2 by (vm_compute; reflexivity).
  assert (blockstore_putStream Sample.block1 MemStore.empty =
          (None, MemStore.mk [Sample.block1] [] [] [] [])) as Hput1
    by (vm_compute; reflexivity).
  assert (blockstore_putStream Sample.block2 (MemStore.mk [Sample.block1] [] [] [] []) =
          (None, MemStore.mk [Sample.block2; Sample.block1] [] [] [] [])) as Hput2
    by (vm_compute; reflexivity).
  split; [exact Hne|]. split; [exact Hknown|]. split; [exact Hsorted|].
  split; [exact Hhas1|]. split; [exact Hhas2|]. split; [exact Hput1|].
  split; [exact Hput2|].
  destruct (get_of_two_keys_ends_after_both Base58.encode Sample.block1 Sample.block2
              Sample.fresh_node _ _ _ _ Hne Hknown Hsorted Hhas1 Hhas2 Hput1 Hput2)
    as (st0 & st1 & st2 & Hsink & Hcb1 & Hcb2 & _ & _ & Hem1 & Hopen1 & Hem2 & Hend2).
  exists st0, st1, st2. split; [exact Hsink|].
  split; [exact (Hcb1 None)|]. split; [exact (Hcb2 None)|].
  split; [exact Hem1|]. split; [exact Hopen1|]. split; [exact Hem2|exact Hend2].
Defined.

Lemma open_get_never_fails_witness :
  (0 < length (streams (get_one Base58.encode (key Sample.block1)
                          Faulty.node_with_failing_put).2))%nat ∧
  pusher_ended
    (the_stream 0 (get_one Base58.encode (key Sample.block1)
                     Faulty.node_with_failing_put).2) = None ∧
  ∃ st',
    run_all Base58.encode
      [CallHasBlock Sample.block1;
       CallGetStream [key Sample.block2] (Some (mkError "upstream"))]
      (get_one Base58.encode (key Sample.block1) Faulty.node_with_failing_put).2 =
    Returned st' ∧
    (pusher_ended (the_stream 0 st') = None ∨
     pusher_ended (the_stream 0 st') = Some None).
Proof.
  assert (0 < length (streams (get_one Base58.encode (key Sample.block1)
                                 Faulty.node_with_failing_put).2))%nat as Hlt
    by (vm_compute; lia).
  assert (pusher_ended
            (the_stream 0 (get_one Base58.encode (key Sample.block1)
                             Faulty.node_with_failing_put).2) = None) as Hopen
    by (vm_compute; reflexivity).
  split; [exact Hlt|]. split; [exact Hopen|].
  exact (open_get_never_fails Base58.encode
           [CallHasBlock Sample.block1;
            CallGetStream [key Sample.block2] (Some (mkError "upstream"))]
           0 _ Hlt Hopen).
Defined.

(** ** Runs on the sample nodes *)

(** Two fresh blocks in one message: both are counted, none as a
    duplicate, both end up in the blockstore, and the callback is called
    once, with no error. *)
Example simple_block_message :
  ∃ st',
    _receiveMessage Base58.encode Sample.peer Sample.message12
      (Some (reporter "cb")) Sample.fresh_node = Returned st' ∧
    (blocksRecvd st', dupBlocksRecvd st', dupDataRecvd st') = (2, 0, 0) ∧
    MemStore.blocks (collaborators st') = [Sample.block2; Sample.block1] ∧
    callbacks_of (trace st') = [("cb", None)].
Proof.
  eexists. split; [vm_compute; reflexivity|]. by vm_compute.
Qed.

(** The same message twice to a node that holds [block1]: of the four
    blocks delivered, the first is a duplicate, the second is new, and the
    two of the second message are duplicates, the first message having
    stored them. *)
Example repeated_message_run :
  (answers_to_messages
     [(Sample.peer, Sample.message12); (Sample.peer, Sample.message12)]
     (collaborators Sample.node_with_block1)).1 =
  [inr true; inr false; inr true; inr true] ∧
  ∃ st',
    receive_messages Base58.encode
      [(Sample.peer, Sample.message12); (Sample.peer, Sample.message12)]
      Sample.node_with_block1 = Returned st' ∧
    (blocksRecvd st', dupBlocksRecvd st', dupDataRecvd st') = (4, 3, 10).
Proof.
  split; [vm_compute; reflexivity|].
  eexists. split; [vm_compute; reflexivity|]. by vm_compute.
Qed.

(** A put that fails four times: four attempts, 400 ms apart, then the
    callback with the last error; nothing is emitted. *)
Example hasBlock_exhausted :
  ∃ st',
    hasBlock Base58.encode Sample.block1 (Some (reporter "cb"))
      (constructor (MemStore.mk [] [] []
                      [Some (mkError "1"); Some (mkError "2");
                       Some (mkError "3"); Some (mkError "4")] [])) =
    Returned st' ∧
    trace st' =
    [EvLog DebugLog "trying to put block %s" [ArgBuffer (data Sample.block1)];
     EvBlockstorePut Sample.block1 (Some (mkError "1")); EvTimeout 400;
     EvBlockstorePut Sample.block1 (Some (mkError "2")); EvTimeout 400;
     EvBlockstorePut Sample.block1 (Some (mkError "3")); EvTimeout 400;
     EvBlockstorePut Sample.block1 (Some (mkError "4"));
     EvLog ErrorLog "Error writing block to blockstore: %s" [ArgString "4"];
     EvCallback "cb" (Some (mkError "4"))].
Proof.
  eexists. split; [vm_compute; reflexivity|]. vm_compute. reflexivity.
Qed.

(** A put that succeeds at the third attempt. *)
Example hasBlock_third_attempt :
  ∃ st',
    hasBlock Base58.encode Sample.block1 (Some (reporter "cb"))
      (constructor (MemStore.mk [] [] []
                      [Some (mkError "1"); Some (mkError "2")] [])) =
    Returned st' ∧
    trace st' =
    [EvLog DebugLog "trying to put block %s" [ArgBuffer (data Sample.block1)];
     EvBlockstorePut Sample.block1 (Some (mkError "1")); EvTimeout 400;
     EvBlockstorePut Sample.block1 (Some (mkError "2")); EvTimeout 400;
     EvBlockstorePut Sample.block1 None;
     EvLog DebugLog "put block: %s" [ArgString "553wupu3Y8"];
     EvEmit "block:553wupu3Y8" (Some Sample.block1);
     EvEngineReceivedBlock Sample.block1;
     EvCallback "cb" None].
Proof.
  eexists. split; [vm_compute; reflexivity|]. vm_compute. reflexivity.
Qed.

(** A block that the blockstore already has: counted as a duplicate, and
    put again, emitted again, and announced to the engine again. *)
Example duplicate_block_run :
  ∃ st',
    _receiveMessage Base58.encode Sample.peer (mkMessage false [] [Sample.block1])
      None Sample.node_with_block1 = Returned st' ∧
    (blocksRecvd st', dupBlocksRecvd st', dupDataRecvd st') = (1, 1, 3) ∧
    trace st' =
    [EvLog DebugLog "receiving message from %s" [ArgString "QmPeer"];
     EvEngineMessageReceived Sample.peer (mkMessage false [] [Sample.block1]) None;
     EvLog DebugLog "received un-askes-for %s from %s"
       [ArgString "553wupu3Y8"; ArgString "QmPeer"];
     EvWmCancelWants [];
     EvBlockstoreHas (key Sample.block1) (inr true);
     EvLog DebugLog "trying to put block %s" [ArgBuffer (data Sample.block1)];
     EvBlockstorePut Sample.block1 None;
     EvLog DebugLog "put block: %s" [ArgString "553wupu3Y8"];
     EvEmit "block:553wupu3Y8" (Some Sample.block1);
     EvEngineReceivedBlock Sample.block1].
Proof.
  eexists. split; [vm_compute; reflexivity|]. split; vm_compute; reflexivity.
Qed.

(** Two gets of one key, then [unwantBlocks]: both streams end with no
    error and no block; the message is only logged. *)
Example manual_unwant_run :
  ∃ st2,
    get_one Base58.encode (key Sample.block1)
      (get_one Base58.encode (key Sample.block1) Sample.fresh_node).2 = (1%nat, st2) ∧
    (λ st3, (emitted <$> streams st3, pusher_ended <$> streams st3,
             lines_of (trace st3)))
      (unwantBlocks Base58.encode [key Sample.block1] st2) =
    ([[]; []], [Some None; Some None],
     ["manual unwant: 553wupu3Y8"; "manual unwant: 553wupu3Y8"]).
Proof.
  eexists. split; [vm_compute; reflexivity|]. vm_compute. reflexivity.
Qed.
